(** * Speaker-diarization runner ([src/python/diarize.py])

    A shallow embedding of [diarize_audio]: the credential lookup, the two
    calls into the external pyannote pipeline, the loop that turns the yielded
    tracks into segment dictionaries, and the [json.dump] of the result into
    the output file.

    - Python [str] values are lists of code points ([pystr]).
    - Python [float] values are binary64 numbers ([PrimFloat.float]); their
      conversion to and from decimal text is the interpreter's and is an
      interface ([PyRuntime]).
    - The pyannote pipeline is a black box: it is an interface ([Pyannote])
      whose operations either return or raise; they do not touch the files
      of the host.
    - [json.dump] and [json.load] follow the [json] package of CPython
      ([json.encoder], [json.decoder], [json.scanner]) with the arguments the
      script gives and the defaults otherwise.
    - The process environment, the files, the standard output and the
      observable events (texts printed, calls into pyannote, files opened
      and closed) are explicit: [diarize_audio] is a computation in a small
      state-and-error monad.
    - The standard output is a device of the host: whether a [print]
      returns or raises, and whether the interpreter can flush the stream
      when it exits, is the host's.
    - The command line is parsed by [argparse] before [diarize_audio] is
      called; [main] starts from the two parsed paths. *)

From Stdlib Require Import ZArith NArith List String Ascii Floats Lia DecimalString.
From stdpp Require Import base option list gmap.

#[local] Set Warnings "-register-all".
Local Open Scope N_scope.

(** ** Python strings *)

(** A Python [str] is a sequence of code points. *)
Definition pystr := list N.

(** The code points of an ASCII literal of the source. *)
Definition u (s : string) : pystr := map N_of_ascii (list_ascii_of_string s).

(** [str(n)] for a non-negative [int]. *)
Definition str_of_nat (n : nat) : pystr := u (NilZero.string_of_uint (Nat.to_uint n)).

(** ** Python values handled by [json] *)

Inductive pyval :=
| PyNone
| PyBool (b : bool)
| PyInt (z : Z)
| PyFloat (f : float)
| PyStr (s : pystr)
| PyList (l : list pyval)
| PyDict (d : list (pystr * pyval)).

(** ** The pyannote interface *)

(** [pyannote.core.Segment]: the time interval of a speaker turn. *)
Record Segment := { seg_start : float; seg_end : float }.

(** What [Annotation.itertracks(yield_label=True)] yields. *)
Record Track := { turn : Segment; track_name : pystr; speaker : pystr }.

(** An uncaught Python exception. *)
Inductive exn :=
| PipelineError (what : pystr)
| OSError (what : pystr)
| UnicodeEncodeError (what : pystr).

Class Pyannote := {
  Pipeline : Type;
  Annotation : Type;
  (** [Pipeline.from_pretrained(model, use_auth_token=token)] *)
  from_pretrained : pystr -> option pystr -> exn + Pipeline;
  (** [pipeline(audio_file)] *)
  apply_pipeline : Pipeline -> pystr -> exn + Annotation;
  (** [diarization.itertracks(yield_label=True)]: the tracks the generator
      yields, and the exception that ends the iteration if it raises. *)
  itertracks : Annotation -> list Track * option exn
}.

(** ** The loop body: one segment dictionary per track *)

Definition SPEAKER_ : pystr := u "SPEAKER_".

(** The dictionary literal of lines 32-36, keys in insertion order. *)
Definition segment_dict (t : Track) : pyval :=
  PyDict [ (u "start", PyFloat (seg_start (turn t)));
           (u "end", PyFloat (seg_end (turn t)));
           (u "speaker", PyStr (SPEAKER_ ++ speaker t)) ].

(** [segments = []; for ... : segments.append({...})] *)
Definition collect_segments (tracks : list Track) : list pyval :=
  fold_left (fun segments t => segments ++ [segment_dict t]) tracks [].

(** [d[k]] on a dictionary value. *)
Fixpoint dict_get (k : pystr) (d : list (pystr * pyval)) : option pyval :=
  match d with
  | [] => None
  | (k', v) :: d' => if decide (k = k') then Some v else dict_get k d'
  end.

Definition getitem (o : pyval) (k : pystr) : option pyval :=
  match o with
  | PyDict d => dict_get k d
  | _ => None
  end.


(** ** The CPython run-time: [float.__repr__] and [float(str)]

    The two conversions between binary64 numbers and decimal text are the
    interpreter's own (David Gay's shortest round-trip algorithm and a
    correctly rounded [strtod]); they are an interface here. *)

Class PyRuntime := {
  float_repr : float -> pystr;
  float_of_str : pystr -> float
}.

(** ** [json.dump(obj, fp, indent=2)]: the encoder

    [json.dump] writes the chunks of [JSONEncoder(indent=2).iterencode(obj)]
    one after the other; [encode] is their concatenation. The defaults
    apply: [ensure_ascii=True], [allow_nan=True], separators [","] and
    [": "]. *)

(** One lower-case hexadecimal digit. *)
Definition hexdigit (n : N) : N :=
  if n <? 10 then 48 + n else 87 + n.

(** ['{0:04x}'.format(n)] for [n < 0x10000]. *)
Definition hex4 (n : N) : pystr :=
  [ hexdigit (N.land (N.shiftr n 12) 15); hexdigit (N.land (N.shiftr n 8) 15);
    hexdigit (N.land (N.shiftr n 4) 15); hexdigit (N.land n 15) ].

(** [replace] of [py_encode_basestring_ascii]: the text that stands for one
    code point. [ESCAPE_ASCII] matches the backslash, the double quote and
    everything outside [' '..'~']. *)
Definition escape_char (c : N) : pystr :=
  if c =? 92 then u "\\"
  else if c =? 34 then [92; 34]
  else if c =? 8 then u "\b"
  else if c =? 12 then u "\f"
  else if c =? 10 then u "\n"
  else if c =? 13 then u "\r"
  else if c =? 9 then u "\t"
  else if (32 <=? c) && (c <=? 126) then [c]
  else if c <? 65536 then u "\u" ++ hex4 c
  else
    let n := c - 65536 in
    let s1 := N.lor 55296 (N.land (N.shiftr n 10) 1023) in
    let s2 := N.lor 56320 (N.land n 1023) in
    u "\u" ++ hex4 s1 ++ u "\u" ++ hex4 s2.

Definition encode_basestring_ascii (s : pystr) : pystr :=
  [34] ++ concat (map escape_char s) ++ [34].

(** [floatstr] of [JSONEncoder.iterencode], with [allow_nan=True]. *)
Definition floatstr `{PyRuntime} (o : float) : pystr :=
  if negb (PrimFloat.eqb o o) then u "NaN"
  else if PrimFloat.eqb o infinity then u "Infinity"
  else if PrimFloat.eqb o neg_infinity then u "-Infinity"
  else float_repr o.

(** [int.__repr__] *)
Definition int_repr (z : Z) : pystr := u (NilZero.string_of_int (Z.to_int z)).

(** [sep.join(parts)] *)
Fixpoint join (sep : pystr) (parts : list pystr) : pystr :=
  match parts with
  | [] => []
  | [p] => p
  | p :: ps => p ++ sep ++ join sep ps
  end.

(** ['\n' + indent * level] with [indent = '  ']. *)
Definition newline_indent (level : nat) : pystr :=
  [10] ++ concat (replicate level (u "  ")).

(** [_iterencode], [_iterencode_list] and [_iterencode_dict] at nesting
    depth [level] ([_current_indent_level]). *)
Fixpoint encode `{PyRuntime} (level : nat) (o : pyval) : pystr :=
  match o with
  | PyNone => u "null"
  | PyBool true => u "true"
  | PyBool false => u "false"
  | PyInt z => int_repr z
  | PyFloat f => floatstr f
  | PyStr s => encode_basestring_ascii s
  | PyList [] => u "[]"
  | PyList l =>
      u "[" ++ newline_indent (S level)
        ++ join (u "," ++ newline_indent (S level)) (map (encode (S level)) l)
        ++ newline_indent level ++ u "]"
  | PyDict [] => u "{}"
  | PyDict d =>
      u "{" ++ newline_indent (S level)
        ++ join (u "," ++ newline_indent (S level))
             (map (fun kv => encode_basestring_ascii (fst kv) ++ u ": "
                             ++ encode (S level) (snd kv)) d)
        ++ newline_indent level ++ u "}"
  end.

(** The text [json.dump(obj, f, indent=2)] sends to [f]. *)
Definition json_dumps `{PyRuntime} (obj : pyval) : pystr := encode 0 obj.

(** ** [json.load]: the decoder

    [JSONDecoder.decode] with the scanner of [json.scanner] and the string,
    array and object parsers of [json.decoder], in strict mode. The
    [parse_constant] hook decides what the tokens [NaN], [Infinity] and
    [-Infinity], which are not JSON, stand for. *)

(** [WHITESPACE_STR = ' \t\n\r'] *)
Definition is_ws (c : N) : bool :=
  (c =? 32) || (c =? 9) || (c =? 10) || (c =? 13).

Fixpoint skip_ws (s : pystr) : pystr :=
  match s with
  | c :: s' => if is_ws c then skip_ws s' else s
  | [] => []
  end.

Definition is_digit (c : N) : bool := (48 <=? c) && (c <=? 57).

Definition hexval (c : N) : option N :=
  if is_digit c then Some (c - 48)
  else if (97 <=? c) && (c <=? 102) then Some (c - 87)
  else if (65 <=? c) && (c <=? 70) then Some (c - 55)
  else None.

(** [_decode_uXXXX]: the value of four hexadecimal digits. *)
Definition hex4val (h1 h2 h3 h4 : N) : option N :=
  a ← hexval h1; b ← hexval h2; c ← hexval h3; d ← hexval h4;
  Some (N.lor (N.shiftl a 12) (N.lor (N.shiftl b 8) (N.lor (N.shiftl c 4) d))).

Definition is_high_surrogate (c : N) : bool := (55296 <=? c) && (c <=? 56319).
Definition is_low_surrogate (c : N) : bool := (56320 <=? c) && (c <=? 57343).

(** [0x10000 + (((uni - 0xd800) << 10) | (uni2 - 0xdc00))] *)
Definition join_surrogates (uni uni2 : N) : N :=
  65536 + N.lor (N.shiftl (uni - 55296) 10) (uni2 - 56320).

(** The [BACKSLASH] table. *)
Definition backslash (e : N) : option N :=
  if e =? 34 then Some 34
  else if e =? 92 then Some 92
  else if e =? 47 then Some 47
  else if e =? 98 then Some 8
  else if e =? 102 then Some 12
  else if e =? 110 then Some 10
  else if e =? 114 then Some 13
  else if e =? 116 then Some 9
  else None.

Definition push (c : N) (r : option (pystr * pystr)) : option (pystr * pystr) :=
  '(str, rest) ← r; Some (c :: str, rest).

(** [scanstring(s, end, strict=True)]: [s] starts after the opening quote;
    the result is the decoded string and the text after the closing quote. *)
Fixpoint scanstring (s : pystr) : option (pystr * pystr) :=
  match s with
  | [] => None
  | c :: s1 =>
      if c =? 34 then Some ([], s1)
      else if c =? 92 then
        match s1 with
        | [] => None
        | e :: s2 =>
            if e =? 117 then
              match s2 with
              | h1 :: h2 :: h3 :: h4 :: s3 =>
                  match hex4val h1 h2 h3 h4 with
                  | None => None
                  | Some uni =>
                      if is_high_surrogate uni then
                        match s3 with
                        | b :: v :: s4 =>
                            if (b =? 92) && (v =? 117) then
                              match s4 with
                              | l1 :: l2 :: l3 :: l4 :: s5 =>
                                  match hex4val l1 l2 l3 l4 with
                                  | None => None
                                  | Some uni2 =>
                                      if is_low_surrogate uni2
                                      then push (join_surrogates uni uni2) (scanstring s5)
                                      else push uni (scanstring s3)
                                  end
                              | _ => None
                              end
                            else push uni (scanstring s3)
                        | _ => push uni (scanstring s3)
                        end
                      else push uni (scanstring s3)
                  end
              | _ => None
              end
            else
              match backslash e with
              | None => None
              | Some ch => push ch (scanstring s2)
              end
        end
      else if c <? 32 then None
      else push c (scanstring s1)
  end.

(** The longest prefix of [s] whose code points satisfy [p], and the rest. *)
Fixpoint span (p : N -> bool) (s : pystr) : pystr * pystr :=
  match s with
  | c :: s' => if p c then let '(a, b) := span p s' in (c :: a, b) else ([], s)
  | [] => ([], [])
  end.

(** [NUMBER_RE], group by group: an integer part (an optional minus sign,
    then a single zero or a non-zero digit followed by digits), an optional
    fraction (a dot and at least one digit) and an optional exponent ([e] or
    [E], an optional sign, at least one digit). *)
Definition match_integer (s : pystr) : option (pystr * pystr) :=
  let '(sign, s1) :=
    match s with
    | c :: s' => if c =? 45 then ([45], s') else ([], s)
    | [] => ([], s)
    end in
  match s1 with
  | d :: s2 =>
      if d =? 48 then Some (sign ++ [48], s2)
      else if is_digit d then let '(ds, r) := span is_digit s2 in Some (sign ++ d :: ds, r)
      else None
  | [] => None
  end.

Definition match_frac (s : pystr) : option (pystr * pystr) :=
  match s with
  | c :: s1 =>
      if c =? 46 then
        let '(ds, r) := span is_digit s1 in
        match ds with [] => None | _ => Some (46 :: ds, r) end
      else None
  | [] => None
  end.

Definition match_exp (s : pystr) : option (pystr * pystr) :=
  match s with
  | c :: s1 =>
      if (c =? 101) || (c =? 69) then
        let '(sign, s2) :=
          match s1 with
          | g :: s' => if (g =? 45) || (g =? 43) then ([g], s') else ([], s1)
          | [] => ([], s1)
          end in
        let '(ds, r) := span is_digit s2 in
        match ds with [] => None | _ => Some (c :: sign ++ ds, r) end
      else None
  | [] => None
  end.

(** [int(text)] on a match of the integer group. *)
Definition digits_value (ds : pystr) : Z :=
  fold_left (fun acc d => (10 * acc + Z.of_N (d - 48))%Z) ds 0%Z.

Definition int_of_str (s : pystr) : Z :=
  match s with
  | c :: ds => if c =? 45 then (- digits_value ds)%Z else digits_value s
  | [] => 0%Z
  end.

(** The groups of the match of [NUMBER_RE] at the start of [s], and the
    text after the match. *)
Definition number_groups (s : pystr) : option (pystr * option pystr * option pystr * pystr) :=
  '(integer, s1) ← match_integer s;
  let '(frac, s2) :=
    match match_frac s1 with Some (f, r) => (Some f, r) | None => (None, s1) end in
  let '(exp, s3) :=
    match match_exp s2 with Some (e, r) => (Some e, r) | None => (None, s2) end in
  Some (integer, frac, exp, s3).

(** [_scan_once], the number case: [parse_float] when there is a fraction
    or an exponent, [parse_int] otherwise. *)
Definition match_number `{PyRuntime} (s : pystr) : option (pyval * pystr) :=
  '(integer, frac, exp, r) ← number_groups s;
  match frac, exp with
  | None, None => Some (PyInt (int_of_str integer), r)
  | _, _ => Some (PyFloat (float_of_str (integer ++ default [] frac ++ default [] exp)), r)
  end.

(** [s[end:].startswith(lit)], returning what follows [lit]. *)
Fixpoint strip_prefix (lit s : pystr) : option pystr :=
  match lit, s with
  | [], _ => Some s
  | a :: lit', b :: s' => if a =? b then strip_prefix lit' s' else None
  | _ :: _, [] => None
  end.

(** [dict(pairs)]: a later pair replaces the value of an equal key. *)
Fixpoint dict_set (k : pystr) (v : pyval) (d : list (pystr * pyval)) : list (pystr * pyval) :=
  match d with
  | [] => [(k, v)]
  | (k', v') :: d' => if decide (k = k') then (k, v) :: d' else (k', v') :: dict_set k v d'
  end.

Definition dict_of_pairs (pairs : list (pystr * pyval)) : list (pystr * pyval) :=
  fold_left (fun d kv => dict_set (fst kv) (snd kv) d) pairs [].

(** The default of [parse_constant]: Python's extension of JSON. *)
Definition python_constants (name : pystr) : option pyval :=
  if decide (name = u "NaN") then Some (PyFloat nan)
  else if decide (name = u "Infinity") then Some (PyFloat infinity)
  else if decide (name = u "-Infinity") then Some (PyFloat neg_infinity)
  else None.

(** A [parse_constant] that raises: RFC 8259 has no such tokens. *)
Definition no_constants (name : pystr) : option pyval := None.

Section Decoder.
Context `{PyRuntime}.
Variable parse_constant : pystr -> option pyval.

Definition scan_constant (s : pystr) : option (pyval * pystr) :=
  match strip_prefix (u "NaN") s, strip_prefix (u "Infinity") s,
        strip_prefix (u "-Infinity") s with
  | Some r, _, _ => v ← parse_constant (u "NaN"); Some (v, r)
  | _, Some r, _ => v ← parse_constant (u "Infinity"); Some (v, r)
  | _, _, Some r => v ← parse_constant (u "-Infinity"); Some (v, r)
  | _, _, _ => None
  end.

(** [scan_once], [JSONArray] and [JSONObject]; [n] bounds the depth of the
    calls. [array_items] starts at an element, [object_members] at the
    quote of a key. *)
Fixpoint scan_once (n : nat) (s : pystr) {struct n} : option (pyval * pystr) :=
  match n with
  | O => None
  | S n' =>
      match s with
      | [] => None
      | c :: s1 =>
          if c =? 34 then '(str, r) ← scanstring s1; Some (PyStr str, r)
          else if c =? 123 then
            match skip_ws s1 with
            | c' :: r =>
                if c' =? 125 then Some (PyDict [], r)
                else '(pairs, r') ← object_members n' (c' :: r);
                     Some (PyDict (dict_of_pairs pairs), r')
            | [] => None
            end
          else if c =? 91 then
            match skip_ws s1 with
            | c' :: r =>
                if c' =? 93 then Some (PyList [], r)
                else '(values, r') ← array_items n' (c' :: r); Some (PyList values, r')
            | [] => None
            end
          else
            match strip_prefix (u "null") s, strip_prefix (u "true") s,
                  strip_prefix (u "false") s with
            | Some r, _, _ => Some (PyNone, r)
            | _, Some r, _ => Some (PyBool true, r)
            | _, _, Some r => Some (PyBool false, r)
            | _, _, _ =>
                match match_number s with
                | Some res => Some res
                | None => scan_constant s
                end
            end
      end
  end
with array_items (n : nat) (s : pystr) {struct n} : option (list pyval * pystr) :=
  match n with
  | O => None
  | S n' =>
      '(value, r) ← scan_once n' s;
      match skip_ws r with
      | c :: r1 =>
          if c =? 93 then Some ([value], r1)
          else if c =? 44 then
            '(values, r2) ← array_items n' (skip_ws r1); Some (value :: values, r2)
          else None
      | [] => None
      end
  end
with object_members (n : nat) (s : pystr) {struct n} : option (list (pystr * pyval) * pystr) :=
  match n with
  | O => None
  | S n' =>
      match s with
      | c :: s1 =>
          if c =? 34 then
            '(key, r) ← scanstring s1;
            match skip_ws r with
            | c1 :: r1 =>
                if c1 =? 58 then
                  '(value, r2) ← scan_once n' (skip_ws r1);
                  match skip_ws r2 with
                  | c2 :: r3 =>
                      if c2 =? 125 then Some ([(key, value)], r3)
                      else if c2 =? 44 then
                        '(pairs, r4) ← object_members n' (skip_ws r3);
                        Some ((key, value) :: pairs, r4)
                      else None
                  | [] => None
                  end
                else None
            | [] => None
            end
          else None
      | [] => None
      end
  end.

(** [JSONDecoder.decode]: surrounding whitespace is skipped and nothing
    else may follow the value. *)
Definition json_loads_fuel (n : nat) (s : pystr) : option pyval :=
  '(obj, r) ← scan_once n (skip_ws s);
  match skip_ws r with
  | [] => Some obj
  | _ :: _ => None
  end.

Definition json_loads (s : pystr) : option pyval :=
  json_loads_fuel (2 * length s + 2) s.
End Decoder.

(** The text is a JSON text (RFC 8259): the decoder accepts it, at some
    depth of calls, without the help of [parse_constant]. *)
Definition valid_json `{PyRuntime} (s : pystr) : Prop :=
  exists n v, json_loads_fuel no_constants n s = Some v.

(** ** The host: environment, files, observable events *)

Record Host := {
  (** [os.environ] *)
  environ : gmap pystr pystr;
  (** the text files, by path *)
  files : gmap pystr pystr;
  (** whether [open(path, "w")] succeeds *)
  writable : pystr -> bool;
  (** how many more characters the device accepts before a write fails;
      [None] when there is no limit *)
  space : option nat;
  (** the texts of the [print] calls that have returned, in order *)
  stdout : list pystr;
  (** what [print(text)] raises, if anything, once the texts [out] have been
      printed: a [UnicodeEncodeError] when the encoding of the stream rejects
      the text, an [OSError] when the stream fails *)
  print_raises : list pystr -> pystr -> option exn;
  (** whether the interpreter can flush the standard streams when it exits,
      once the texts [out] have been printed *)
  flushes_at_exit : list pystr -> bool
}.

(** The host [h] with the files [fs], the space [k] and the printed texts
    [out]. *)
Definition host_with (h : Host) (fs : gmap pystr pystr) (k : option nat)
    (out : list pystr) : Host :=
  {| environ := environ h; files := fs; writable := writable h; space := k;
     stdout := out; print_raises := print_raises h;
     flushes_at_exit := flushes_at_exit h |}.

Definition set_files (h : Host) (fs : gmap pystr pystr) : Host :=
  host_with h fs (space h) (stdout h).

Definition set_space (h : Host) (k : option nat) : Host :=
  host_with h (files h) k (stdout h).

Definition set_stdout (h : Host) (out : list pystr) : Host :=
  host_with h (files h) (space h) out.

(** What a run does that can be seen from outside, in order. *)
Inductive event :=
| Print (line : pystr)
| FromPretrained (model : pystr) (use_auth_token : option pystr)
| ApplyPipeline (audio_file : pystr)
| IterTracks
| Open (path : pystr)
| Close (path : pystr).

(** A computation returns or raises, changes the host and emits events. *)
Record Outcome (A : Type) := {
  result : exn + A;
  host_after : Host;
  trace : list event
}.
Arguments result {A} _.
Arguments host_after {A} _.
Arguments trace {A} _.

Definition M (A : Type) : Type := Host -> Outcome A.

Definition ret {A} (a : A) : M A :=
  fun h => {| result := inr a; host_after := h; trace := [] |}.

Definition raise {A} (e : exn) : M A :=
  fun h => {| result := inl e; host_after := h; trace := [] |}.

Definition bind {A B} (c : M A) (k : A -> M B) : M B :=
  fun h =>
    let o := c h in
    match result o with
    | inl e => {| result := inl e; host_after := host_after o; trace := trace o |}
    | inr a =>
        let o' := k a (host_after o) in
        {| result := result o'; host_after := host_after o'; trace := trace o ++ trace o' |}
    end.

#[global] Instance M_ret : MRet M := @ret.
#[global] Instance M_bind : MBind M := fun A B k c => bind c k.

Definition emit (e : event) : M unit :=
  fun h => {| result := inr tt; host_after := h; trace := [e] |}.

(** A call into the pyannote library: it returns or raises. *)
Definition lift {A} (r : exn + A) : M A :=
  match r with
  | inl e => raise e
  | inr a => ret a
  end.

(** [try: body finally: cleanup] *)
Definition finally {A} (body : M A) (cleanup : M unit) : M A :=
  fun h =>
    let o := body h in
    let o' := cleanup (host_after o) in
    {| result := match result o' with inl e => inl e | inr _ => result o end;
       host_after := host_after o';
       trace := trace o ++ trace o' |}.

(** [print(text)]: the call hands the text to the standard output and
    returns, or it raises and the text does not count as printed. *)
Definition print (text : pystr) : M unit :=
  fun h =>
    match print_raises h (stdout h) text with
    | Some e => raise e h
    | None => emit (Print text) (set_stdout h (stdout h ++ [text]))
    end.

(** [os.environ.get(name)] *)
Definition environ_get (name : pystr) : M (option pystr) :=
  fun h => ret (environ h !! name) h.

(** [open(path, "w")]: the file is created, or truncated if it exists. *)
Definition open_w (path : pystr) : M unit :=
  emit (Open path) ;;
  (fun h =>
     if writable h path
     then ret tt (set_files h (<[path := []]> (files h)))
     else raise (OSError path) h) : M unit.

(** [f.write(text)] on the file opened at [path]: the characters reach the
    file in order; when the device runs out of space the write raises and
    the file keeps what was accepted. *)
Definition write (path : pystr) (text : pystr) : M unit :=
  fun h =>
    let old := default [] (files h !! path) in
    match space h with
    | None => ret tt (set_files h (<[path := old ++ text]> (files h)))
    | Some k =>
        if decide (length text <= k)%nat
        then ret tt (set_space (set_files h (<[path := old ++ text]> (files h)))
                       (Some (k - length text)%nat))
        else raise (OSError path)
               (set_space (set_files h (<[path := old ++ take k text]> (files h))) (Some O))
    end.

(** [with open(path, "w") as f: body] *)
Definition with_open_w {A} (path : pystr) (body : M A) : M A :=
  open_w path ;; finally body (emit (Close path)).

(** [json.dump(obj, f, indent=2)] *)
Definition json_dump `{PyRuntime} (obj : pyval) (path : pystr) : M unit :=
  write path (json_dumps obj).

(** [not access_token]: [None] and the empty string are false. *)
Definition not_ (access_token : option pystr) : bool :=
  match access_token with
  | None => true
  | Some [] => true
  | Some (_ :: _) => false
  end.

Definition WARNING1 : pystr :=
  u "WARNING: HUGGINGFACE_TOKEN not set in environment. Diarization may fail.".
Definition WARNING2 : pystr :=
  u "Please set the HUGGINGFACE_TOKEN environment variable with a valid HuggingFace token.".

Section Runner.
Context `{Pyannote} `{PyRuntime}.

(** Lines 30-36: the loop over [diarization.itertracks(yield_label=True)]. *)
Definition segments_of (diarization : Annotation) : M (list pyval) :=
  emit IterTracks ;;
  let '(tracks, raised) := itertracks diarization in
  match raised with
  | Some e => raise e
  | None => ret (collect_segments tracks)
  end.

Definition diarize_audio (audio_file output_file : pystr) : M unit :=
  print (u "Starting diarization for " ++ audio_file) ;;
  access_token ← environ_get (u "HUGGINGFACE_TOKEN");
  (if not_ access_token
   then print WARNING1 ;; print WARNING2
   else ret tt) ;;
  pipeline ← (emit (FromPretrained (u "pyannote/speaker-diarization@2.1") access_token) ;;
               lift (from_pretrained (u "pyannote/speaker-diarization@2.1") access_token));
  diarization ← (emit (ApplyPipeline audio_file) ;;
                  lift (apply_pipeline pipeline audio_file));
  segments ← segments_of diarization;
  with_open_w output_file (json_dump (PyList segments) output_file) ;;
  print (u "Diarization complete. Found " ++ str_of_nat (length segments)
           ++ u " speaker segments.") ;;
  print (u "Results saved to " ++ output_file).

(** The script: an uncaught exception ends the process with status 1, a
    normal return with status 0; in both cases the interpreter then flushes
    the standard streams, and the status is 120 when that fails. *)
Definition exit_status (o : Outcome unit) : Z :=
  if flushes_at_exit (host_after o) (stdout (host_after o))
  then match result o with
       | inr _ => 0%Z
       | inl _ => 1%Z
       end
  else 120%Z.

Definition main (audio output : pystr) (h : Host) : Outcome unit :=
  diarize_audio audio output h.
End Runner.

(** ** Vocabulary of the statements *)

Definition MODEL : pystr := u "pyannote/speaker-diarization@2.1".
Definition TOKEN : pystr := u "HUGGINGFACE_TOKEN".

(** The events of a run up to and including the construction of the
    pipeline, for the credential [tok] found in the environment. *)
Definition prelude (audio_file : pystr) (tok : option pystr) : list event :=
  [Print (u "Starting diarization for " ++ audio_file)]
  ++ (if not_ tok then [Print WARNING1; Print WARNING2] else [])
  ++ [FromPretrained MODEL tok].

(** The two lines printed after the file has been written. *)
Definition epilogue (output_file : pystr) (count : nat) : list event :=
  [Print (u "Diarization complete. Found " ++ str_of_nat count ++ u " speaker segments.");
   Print (u "Results saved to " ++ output_file)].

(** The texts printed before the pipeline is constructed (lines 11-18). *)
Definition opening_lines (audio_file : pystr) (tok : option pystr) : list pystr :=
  (u "Starting diarization for " ++ audio_file)
    :: (if not_ tok then [WARNING1; WARNING2] else []).

(** The texts printed after the file has been written (lines 42-43). *)
Definition closing_lines (output_file : pystr) (count : nat) : list pystr :=
  [u "Diarization complete. Found " ++ str_of_nat count ++ u " speaker segments.";
   u "Results saved to " ++ output_file].

(** [print] called on each of the texts in turn. *)
Fixpoint print_all (texts : list pystr) : M unit :=
  match texts with
  | [] => ret tt
  | text :: texts' => print text ;; print_all texts'
  end.

(** Printing the texts in turn once [out] has been printed: the exception
    of the first call that raises, if any. *)
Fixpoint print_error (raises : list pystr -> pystr -> option exn) (out : list pystr)
    (texts : list pystr) : option exn :=
  match texts with
  | [] => None
  | text :: texts' =>
      match raises out text with
      | Some e => Some e
      | None => print_error raises (out ++ [text]) texts'
      end
  end.

(** The texts printed before that call. *)
Fixpoint print_done (raises : list pystr -> pystr -> option exn) (out : list pystr)
    (texts : list pystr) : list pystr :=
  match texts with
  | [] => []
  | text :: texts' =>
      match raises out text with
      | Some _ => []
      | None => text :: print_done raises (out ++ [text]) texts'
      end
  end.

(** On the host [h], the calls [print(text)] for the texts in turn all
    return. *)
Definition prints_return (h : Host) (texts : list pystr) : Prop :=
  print_error (print_raises h) (stdout h) texts = None.

(** The write of [text] fits on the device. *)
Definition fits (h : Host) (text : pystr) : Prop :=
  match space h with
  | None => True
  | Some k => (length text <= k)%nat
  end.

(** The characters of a match of [NUMBER_RE]. *)
Definition numchar (c : N) : bool :=
  is_digit c || (c =? 45) || (c =? 43) || (c =? 46) || (c =? 101) || (c =? 69).

(** [s] does not continue a match of [NUMBER_RE]. *)
Definition ends_number (s : pystr) : bool :=
  match s with
  | c :: _ => negb (numchar c)
  | [] => true
  end.

(** [x] passes the three tests of [floatstr]: it is neither a NaN nor an
    infinity. *)
Definition is_finite (x : float) : bool :=
  PrimFloat.eqb x x && negb (PrimFloat.eqb x infinity) && negb (PrimFloat.eqb x neg_infinity).

(** The timestamps of the track are neither NaN nor infinite. *)
Definition finite_track (t : Track) : Prop :=
  is_finite (seg_start (turn t)) = true /\ is_finite (seg_end (turn t)) = true.

(** [s] is, as a whole, a match of [NUMBER_RE] with a fraction or an
    exponent: a JSON number that the decoder reads as a [float]. *)
Definition float_literal (s : pystr) : bool :=
  match number_groups s with
  | Some (_, frac, exp, []) => bool_decide (is_Some frac) || bool_decide (is_Some exp)
  | _ => false
  end.

(** What the statements assume of [float.__repr__]: a finite number is
    printed as such a literal. *)
Definition float_repr_ok `{PyRuntime} : Prop :=
  forall x : float, is_finite x = true -> float_literal (float_repr x) = true.

(** [float(float.__repr__(x))] is [x]. *)
Definition float_roundtrips `{PyRuntime} (x : float) : Prop :=
  is_finite x = true
  /\ float_literal (float_repr x) = true
  /\ float_of_str (float_repr x) = x.

(** No high surrogate is immediately followed by a low surrogate. *)
Fixpoint no_surrogate_pair (s : pystr) : bool :=
  match s with
  | c :: s' =>
      match s' with
      | c2 :: _ => negb (is_high_surrogate c && is_low_surrogate c2)
      | [] => true
      end && no_surrogate_pair s'
  | [] => true
  end.

(** The text starts with the escape of a low surrogate (or with a broken
    [\u] escape). *)
Definition low_escape_ahead (s : pystr) : bool :=
  match s with
  | b :: v :: s4 =>
      (b =? 92) && (v =? 117)
      && match s4 with
         | l1 :: l2 :: l3 :: l4 :: _ =>
             match hex4val l1 l2 l3 l4 with
             | Some uni2 => is_low_surrogate uni2
             | None => true
             end
         | _ => true
         end
  | _ => false
  end.

(** A host whose device accepts five more characters and that already
    holds an output file. *)
Definition full_host : Host :=
  {| environ := ∅; files := {[ u "out.json" := u "old" ]};
     writable := fun _ => true; space := Some 5%nat;
     stdout := []; print_raises := fun _ _ => None; flushes_at_exit := fun _ => true |}.

(** The same host with no limit on writes. *)
Definition full_host_unlimited : Host :=
  {| environ := ∅; files := {[ u "out.json" := u "old" ]};
     writable := fun _ => true; space := None;
     stdout := []; print_raises := fun _ _ => None; flushes_at_exit := fun _ => true |}.

(** The paths that a run opened, in order. *)
Definition opened (evs : list event) : list pystr :=
  omap (fun e => match e with Open path => Some path | _ => None end) evs.

(** The code points of a [str] are below [0x110000]. *)
Definition valid_str (s : pystr) : Prop := Forall (fun c => c < 1114112) s.

(** A value with the shape of a segment: a dictionary with the three keys,
    two numbers and a speaker that starts with ["SPEAKER_"]. *)
Definition segment_like (v : pyval) : Prop :=
  exists (s e : float) (label : pystr),
    v = PyDict [ (u "start", PyFloat s); (u "end", PyFloat e);
                 (u "speaker", PyStr (u "SPEAKER_" ++ label)) ].

(** A [str] whose code points are in range and that [json] reads back as
    it was written. *)
Definition plain_str (s : pystr) : Prop :=
  Forall (fun c => c < 1114112) s /\ no_surrogate_pair s = true.

(** A track that [json] writes as JSON and reads back as it was: finite
    timestamps that survive [float(repr(x))] and a plain label. *)
Definition readable `{PyRuntime} (t : Track) : Prop :=
  float_roundtrips (seg_start (turn t))
  /\ float_roundtrips (seg_end (turn t))
  /\ plain_str (speaker t).

(** The text of one segment in the output file, at nesting depth 1. *)
Definition quoted (s : pystr) : pystr := [34] ++ s ++ [34].

Definition render_segment `{PyRuntime} (t : Track) : pystr :=
  u "{" ++ [10] ++ u "    "
    ++ quoted (u "start") ++ u ": " ++ floatstr (seg_start (turn t))
    ++ u "," ++ [10] ++ u "    "
    ++ quoted (u "end") ++ u ": " ++ floatstr (seg_end (turn t))
    ++ u "," ++ [10] ++ u "    "
    ++ quoted (u "speaker") ++ u ": "
    ++ quoted (concat (map escape_char (u "SPEAKER_" ++ speaker t)))
    ++ [10] ++ u "  " ++ u "}".

(** The text of the whole output file. *)
Definition layout `{PyRuntime} (tracks : list Track) : pystr :=
  match tracks with
  | [] => u "[]"
  | _ :: _ =>
      u "[" ++ [10] ++ u "  "
        ++ join (u "," ++ [10] ++ u "  ") (map render_segment tracks)
        ++ [10] ++ u "]"
  end.

(** A lexer for JSON texts: it follows the nesting of brackets and braces
    outside of strings. *)
Inductive lex :=
| Out (depth : Z)
| Str (depth : Z)
| Esc (depth : Z).

Definition lex_step (st : lex) (c : N) : lex :=
  match st with
  | Out d =>
      if c =? 34 then Str d
      else if (c =? 91) || (c =? 123) then Out (d + 1)
      else if (c =? 93) || (c =? 125) then Out (d - 1)
      else Out d
  | Str d =>
      if c =? 34 then Out d
      else if c =? 92 then Esc d
      else Str d
  | Esc d => Str d
  end.

Definition lex_run (st : lex) (s : pystr) : lex := fold_left lex_step s st.

(** Inside a string, or inside at least one bracket or brace. *)
Definition unclosed (st : lex) : bool :=
  match st with
  | Out d => (0 <? d)%Z
  | Str _ | Esc _ => true
  end.

(** The lexer is unclosed after each character of [s]. *)
Fixpoint stays_unclosed (st : lex) (s : pystr) : bool :=
  match s with
  | [] => true
  | c :: s' => unclosed (lex_step st c) && stays_unclosed (lex_step st c) s'
  end.

(** A character that the lexer ignores outside of strings. *)
Definition inert (c : N) : bool :=
  negb ((c =? 34) || (c =? 91) || (c =? 123) || (c =? 93) || (c =? 125)).

(** Reading [s] down to its suffix [r] takes the lexer from [f d] to [g d],
    at every depth [d]. *)
Definition eats (f g : Z -> lex) (s r : pystr) : Prop :=
  exists c, s = c ++ r /\ forall d, lex_run (f d) c = g d.

(** From [st], the lexer is unclosed after every character of [s] and ends
    in [st']. *)
Definition walk (st : lex) (s : pystr) (st' : lex) : Prop :=
  stays_unclosed st s = true /\ lex_run st s = st'.

(** A stub of the pipeline that yields [tracks] for every audio file. *)
Definition stub_pipeline (tracks : list Track) : Pyannote :=
  {| Pipeline := unit; Annotation := unit;
     from_pretrained := fun _ _ => inr tt;
     apply_pipeline := fun _ _ => inr tt;
     itertracks := fun _ => (tracks, None) |}.

(** A pipeline that rejects every audio file. *)
Definition failing_pipeline (e : exn) : Pyannote :=
  {| Pipeline := unit; Annotation := unit;
     from_pretrained := fun _ _ => inr tt;
     apply_pipeline := fun _ _ => inl e;
     itertracks := fun _ => ([], None) |}.

(** The tracks of the example of the specification. *)
Definition example_tracks : list Track :=
  [ {| turn := {| seg_start := 0; seg_end := 1.5 |}; track_name := u "0"; speaker := u "A" |};
    {| turn := {| seg_start := 1.5; seg_end := 3.25 |}; track_name := u "1"; speaker := u "B" |} ].

(** A track whose interval is not a number. *)
Definition nan_tracks : list Track :=
  [ {| turn := {| seg_start := nan; seg_end := nan |}; track_name := u "0"; speaker := u "A" |} ].

(** A run-time that knows the numbers of the example. *)
Definition example_runtime : PyRuntime :=
  {| float_repr := fun x =>
       if PrimFloat.eqb x 1.5 then u "1.5"
       else if PrimFloat.eqb x 3.25 then u "3.25"
       else u "0.0";
     float_of_str := fun s =>
       if decide (s = u "1.5") then 1.5%float
       else if decide (s = u "3.25") then 3.25%float
       else 0%float |}.

(** A host with no file, no credential, no limit on writes and a standard
    output that accepts everything. *)
Definition empty_host : Host :=
  {| environ := ∅; files := ∅; writable := fun _ => true; space := None;
     stdout := []; print_raises := fun _ _ => None; flushes_at_exit := fun _ => true |}.

(** The same host with an empty credential in the environment. *)
Definition empty_token_host : Host :=
  {| environ := {[ TOKEN := [] ]}; files := ∅;
     writable := fun _ => true; space := None;
     stdout := []; print_raises := fun _ _ => None; flushes_at_exit := fun _ => true |}.

(** The same host with a credential in the environment. *)
Definition token_host : Host :=
  {| environ := {[ TOKEN := u "hf_secret" ]}; files := ∅;
     writable := fun _ => true; space := None;
     stdout := []; print_raises := fun _ _ => None; flushes_at_exit := fun _ => true |}.

(** The outcome [o], after the events [evs]. *)
Definition after {A} (evs : list event) (o : Outcome A) : Outcome A :=
  {| result := result o; host_after := host_after o; trace := evs ++ trace o |}.

(** Every run is one of eight: one of the opening prints raises, the
    construction raises, the inference raises, the iteration raises, the
    output cannot be opened, the write runs out of space, one of the closing
    prints raises, or the run completes. *)
Inductive run_case `{Pyannote} `{PyRuntime} (audio_file output_file : pystr) (h : Host)
  : Outcome unit -> Prop :=
| OpeningRaised e :
    print_error (print_raises h) (stdout h)
      (opening_lines audio_file (environ h !! TOKEN)) = Some e ->
    run_case audio_file output_file h
      {| result := inl e;
         host_after :=
           host_with h (files h) (space h)
             (stdout h ++ print_done (print_raises h) (stdout h)
                            (opening_lines audio_file (environ h !! TOKEN)));
         trace := Print <$> print_done (print_raises h) (stdout h)
                              (opening_lines audio_file (environ h !! TOKEN)) |}
| ConstructionRaised e :
    prints_return h (opening_lines audio_file (environ h !! TOKEN)) ->
    from_pretrained MODEL (environ h !! TOKEN) = inl e ->
    run_case audio_file output_file h
      {| result := inl e;
         host_after :=
           host_with h (files h) (space h)
             (stdout h ++ opening_lines audio_file (environ h !! TOKEN));
         trace := prelude audio_file (environ h !! TOKEN) |}
| InferenceRaised p e :
    prints_return h (opening_lines audio_file (environ h !! TOKEN)) ->
    from_pretrained MODEL (environ h !! TOKEN) = inr p ->
    apply_pipeline p audio_file = inl e ->
    run_case audio_file output_file h
      {| result := inl e;
         host_after :=
           host_with h (files h) (space h)
             (stdout h ++ opening_lines audio_file (environ h !! TOKEN));
         trace := prelude audio_file (environ h !! TOKEN) ++ [ApplyPipeline audio_file] |}
| IterationRaised p d tracks e :
    prints_return h (opening_lines audio_file (environ h !! TOKEN)) ->
    from_pretrained MODEL (environ h !! TOKEN) = inr p ->
    apply_pipeline p audio_file = inr d ->
    itertracks d = (tracks, Some e) ->
    run_case audio_file output_file h
      {| result := inl e;
         host_after :=
           host_with h (files h) (space h)
             (stdout h ++ opening_lines audio_file (environ h !! TOKEN));
         trace := prelude audio_file (environ h !! TOKEN)
                  ++ [ApplyPipeline audio_file; IterTracks] |}
| OpenRaised p d tracks :
    prints_return h (opening_lines audio_file (environ h !! TOKEN)) ->
    from_pretrained MODEL (environ h !! TOKEN) = inr p ->
    apply_pipeline p audio_file = inr d ->
    itertracks d = (tracks, None) ->
    writable h output_file = false ->
    run_case audio_file output_file h
      {| result := inl (OSError output_file);
         host_after :=
           host_with h (files h) (space h)
             (stdout h ++ opening_lines audio_file (environ h !! TOKEN));
         trace := prelude audio_file (environ h !! TOKEN)
                  ++ [ApplyPipeline audio_file; IterTracks; Open output_file] |}
| WriteRaised p d tracks k :
    prints_return h (opening_lines audio_file (environ h !! TOKEN)) ->
    from_pretrained MODEL (environ h !! TOKEN) = inr p ->
    apply_pipeline p audio_file = inr d ->
    itertracks d = (tracks, None) ->
    writable h output_file = true ->
    space h = Some k ->
    (k < length (json_dumps (PyList (collect_segments tracks))))%nat ->
    run_case audio_file output_file h
      {| result := inl (OSError output_file);
         host_after :=
           host_with h
             (<[output_file := take k (json_dumps (PyList (collect_segments tracks)))]>
                (files h))
             (Some O)
             (stdout h ++ opening_lines audio_file (environ h !! TOKEN));
         trace := prelude audio_file (environ h !! TOKEN)
                  ++ [ApplyPipeline audio_file; IterTracks; Open output_file;
                      Close output_file] |}
| ClosingRaised p d tracks e :
    prints_return h (opening_lines audio_file (environ h !! TOKEN)) ->
    from_pretrained MODEL (environ h !! TOKEN) = inr p ->
    apply_pipeline p audio_file = inr d ->
    itertracks d = (tracks, None) ->
    writable h output_file = true ->
    fits h (json_dumps (PyList (collect_segments tracks))) ->
    print_error (print_raises h)
      (stdout h ++ opening_lines audio_file (environ h !! TOKEN))
      (closing_lines output_file (length tracks)) = Some e ->
    run_case audio_file output_file h
      {| result := inl e;
         host_after :=
           host_with h
             (<[output_file := json_dumps (PyList (collect_segments tracks))]> (files h))
             ((fun k => k - length (json_dumps (PyList (collect_segments tracks))))%nat
                <$> space h)
             ((stdout h ++ opening_lines audio_file (environ h !! TOKEN))
                ++ print_done (print_raises h)
                     (stdout h ++ opening_lines audio_file (environ h !! TOKEN))
                     (closing_lines output_file (length tracks)));
         trace := prelude audio_file (environ h !! TOKEN)
                  ++ [ApplyPipeline audio_file; IterTracks; Open output_file;
                      Close output_file]
                  ++ (Print <$> print_done (print_raises h)
                                  (stdout h ++ opening_lines audio_file (environ h !! TOKEN))
                                  (closing_lines output_file (length tracks))) |}
| Completed p d tracks :
    prints_return h (opening_lines audio_file (environ h !! TOKEN)) ->
    from_pretrained MODEL (environ h !! TOKEN) = inr p ->
    apply_pipeline p audio_file = inr d ->
    itertracks d = (tracks, None) ->
    writable h output_file = true ->
    fits h (json_dumps (PyList (collect_segments tracks))) ->
    print_error (print_raises h)
      (stdout h ++ opening_lines audio_file (environ h !! TOKEN))
      (closing_lines output_file (length tracks)) = None ->
    run_case audio_file output_file h
      {| result := inr tt;
         host_after :=
           host_with h
             (<[output_file := json_dumps (PyList (collect_segments tracks))]> (files h))
             ((fun k => k - length (json_dumps (PyList (collect_segments tracks))))%nat
                <$> space h)
             ((stdout h ++ opening_lines audio_file (environ h !! TOKEN))
                ++ closing_lines output_file (length tracks));
         trace := prelude audio_file (environ h !! TOKEN)
                  ++ [ApplyPipeline audio_file; IterTracks; Open output_file;
                      Close output_file]
                  ++ epilogue output_file (length tracks) |}.


(** ** Vocabulary of the further properties *)


(** The paths that a run closed, in order. *)
Definition closed (evs : list event) : list pystr :=
  omap (fun e => match e with Close path => Some path | _ => None end) evs.

(** The calls into pyannote that a run made, in order. *)
Definition calls (evs : list event) : list event :=
  omap (fun e => match e with
                 | FromPretrained _ _ | ApplyPipeline _ | IterTracks => Some e
                 | _ => None
                 end) evs.

(** What the output file keeps of a track: the interval and the label. *)
Definition kept (t : Track) : float * float * pystr :=
  (seg_start (turn t), seg_end (turn t), speaker t).

(** A pipeline whose construction is refused. *)
Definition refused_pipeline (e : exn) : Pyannote :=
  {| Pipeline := unit; Annotation := unit;
     from_pretrained := fun _ _ => inl e;
     apply_pipeline := fun _ _ => inr tt;
     itertracks := fun _ => ([], None) |}.

(** A pipeline whose iterator raises after it has yielded [tracks]. *)
Definition broken_iterator (tracks : list Track) (e : exn) : Pyannote :=
  {| Pipeline := unit; Annotation := unit;
     from_pretrained := fun _ _ => inr tt;
     apply_pipeline := fun _ _ => inr tt;
     itertracks := fun _ => (tracks, Some e) |}.

(** A host on which no file can be opened for writing. *)
Definition readonly_host : Host :=
  {| environ := ∅; files := {[ u "out.json" := u "old" ]};
     writable := fun _ => false; space := None;
     stdout := []; print_raises := fun _ _ => None; flushes_at_exit := fun _ => true |}.

(** A host whose standard output is encoded in ASCII: [print] raises on a
    text with any other code point. *)
Definition ascii_stdout_host : Host :=
  {| environ := ∅; files := {[ u "out.json" := u "old" ]};
     writable := fun _ => true; space := None;
     stdout := [];
     print_raises := fun _ text =>
       if forallb (fun c => c <? 128) text then None else Some (UnicodeEncodeError text);
     flushes_at_exit := fun _ => true |}.


(** Two paths with a letter that ASCII does not have. *)
Definition accented_audio : pystr := u "caf" ++ [233] ++ u ".wav".
Definition accented_output : pystr := u "caf" ++ [233] ++ u ".json".

(** The tracks of the example under other track names. *)
Definition renamed_tracks : list Track :=
  [ {| turn := {| seg_start := 0; seg_end := 1.5 |}; track_name := u "x"; speaker := u "A" |};
    {| turn := {| seg_start := 1.5; seg_end := 3.25 |}; track_name := u "y"; speaker := u "B" |} ].
(** ** Theorems *)

Lemma collect_segments_acc (tracks : list Track) (acc : list pyval) :
  fold_left (fun segments t => segments ++ [segment_dict t]) tracks acc
  = acc ++ map segment_dict tracks.
Proof.
  revert acc. induction tracks as [|t ts IH]; intros acc; simpl.
  - by rewrite app_nil_r.
  - rewrite IH. by rewrite <- app_assoc.
Qed.

Lemma collect_segments_map (tracks : list Track) :
  collect_segments tracks = map segment_dict tracks.
Proof. unfold collect_segments. by rewrite collect_segments_acc. Qed.





(** *** The runs of [diarize_audio], case by case *)

Lemma after_nil {A} (o : Outcome A) : after [] o = o.
Proof. by destruct o. Qed.

Lemma after_after {A} evs evs' (o : Outcome A) :
  after evs (after evs' o) = after (evs ++ evs') o.
Proof. unfold after; simpl. by rewrite app_assoc. Qed.

Lemma bind_emit {B} e (k : unit -> M B) h :
  (emit e ≫= k) h = after [e] (k tt h).
Proof. reflexivity. Qed.

Lemma bind_ret {A B} (a : A) (k : A -> M B) h :
  (ret a ≫= k) h = k a h.
Proof. unfold mbind, M_bind, bind, ret; simpl. by destruct (k a h). Qed.

Lemma bind_raise {A B} e (k : A -> M B) h :
  (raise e ≫= k) h = raise e h.
Proof. reflexivity. Qed.

Lemma bind_bind {A B C} (c : M A) (f : A -> M B) (g : B -> M C) h :
  ((c ≫= f) ≫= g) h = (c ≫= (fun x => f x ≫= g)) h.
Proof.
  unfold mbind, M_bind, bind. destruct (c h) as [[e|a] h1 t1]; simpl; [done|].
  destruct (f a h1) as [[e|b] h2 t2]; simpl; [done|].
  by rewrite app_assoc.
Qed.

Lemma bind_environ_get {B} name (k : option pystr -> M B) h :
  (environ_get name ≫= k) h = k (environ h !! name) h.
Proof. unfold environ_get. apply bind_ret. Qed.

Ltac run :=
  repeat first
    [ rewrite bind_bind | rewrite bind_emit | rewrite bind_ret | rewrite bind_raise
    | rewrite bind_environ_get | rewrite after_after ].

Lemma bind_inr {A B} (c : M A) (k : A -> M B) h a h1 t :
  c h = {| result := inr a; host_after := h1; trace := t |} ->
  (c ≫= k) h = after t (k a h1).
Proof. intros Hc. unfold mbind, M_bind, bind. by rewrite Hc. Qed.

Lemma bind_inl {A B} (c : M A) (k : A -> M B) h e h1 t :
  c h = {| result := inl e; host_after := h1; trace := t |} ->
  (c ≫= k) h = {| result := inl e; host_after := h1; trace := t |}.
Proof. intros Hc. unfold mbind, M_bind, bind. by rewrite Hc. Qed.

Lemma bind_ret_r (c : M unit) h : (c ≫= (fun _ => ret tt)) h = c h.
Proof.
  unfold mbind, M_bind, bind, ret. destruct (c h) as [[e|[]] h1 t]; cbn; [done|].
  by rewrite app_nil_r.
Qed.

Lemma bind_ext {A B} (c c' : M A) (k : A -> M B) h :
  c h = c' h -> (c ≫= k) h = (c' ≫= k) h.
Proof. intros Hc. unfold mbind, M_bind, bind. by rewrite Hc. Qed.

Lemma bind_ext_r {A B} (c : M A) (k k' : A -> M B) h :
  (forall a h', k a h' = k' a h') -> (c ≫= k) h = (c ≫= k') h.
Proof.
  intros Hk. unfold mbind, M_bind, bind. destruct (c h) as [[e|a] h1 t]; cbn; [done|].
  by rewrite Hk.
Qed.

(** **** The standard output *)

Lemma host_with_same h : host_with h (files h) (space h) (stdout h) = h.
Proof. by destruct h. Qed.

Lemma print_returns text h :
  print_raises h (stdout h) text = None ->
  print text h
  = {| result := inr tt;
       host_after := host_with h (files h) (space h) (stdout h ++ [text]);
       trace := [Print text] |}.
Proof. intros Hp. unfold print. by rewrite Hp. Qed.

Lemma print_refused text h e :
  print_raises h (stdout h) text = Some e ->
  print text h = {| result := inl e; host_after := h; trace := [] |}.
Proof. intros Hp. unfold print. by rewrite Hp. Qed.

(** Printing texts in turn stops at the first call that raises. *)
Lemma print_all_run (texts : list pystr) (h : Host) :
  print_all texts h
  = {| result := match print_error (print_raises h) (stdout h) texts with
                 | Some e => inl e
                 | None => inr tt
                 end;
       host_after :=
         host_with h (files h) (space h)
           (stdout h ++ print_done (print_raises h) (stdout h) texts);
       trace := Print <$> print_done (print_raises h) (stdout h) texts |}.
Proof.
  revert h. induction texts as [|text texts IH]; intros h;
    cbn [print_all print_error print_done].
  - by rewrite app_nil_r, host_with_same.
  - destruct (print_raises h (stdout h) text) as [e|] eqn:Hp.
    + rewrite (bind_inl _ _ _ _ _ _ (print_refused _ _ _ Hp)).
      by rewrite app_nil_r, host_with_same.
    + rewrite (bind_inr _ _ _ _ _ _ (print_returns _ _ Hp)), IH.
      unfold after, host_with. cbn. by rewrite <- app_assoc.
Qed.

Lemma print_done_all raises out texts :
  print_error raises out texts = None -> print_done raises out texts = texts.
Proof.
  revert out. induction texts as [|text texts IH]; intros out; cbn; [done|].
  destruct (raises out text); [done|]. intros Hp. by rewrite IH.
Qed.

Lemma print_done_prefix raises out texts :
  print_done raises out texts `prefix_of` texts.
Proof.
  revert out. induction texts as [|text texts IH]; intros out; cbn; [by exists []|].
  destruct (raises out text); [by eexists|]. by apply prefix_cons.
Qed.


Lemma print_error_app raises out texts texts' :
  print_error raises out (texts ++ texts')
  = match print_error raises out texts with
    | Some e => Some e
    | None => print_error raises (out ++ texts) texts'
    end.
Proof.
  revert out. induction texts as [|text texts IH]; intros out; cbn.
  - by rewrite app_nil_r.
  - destruct (raises out text); [done|]. by rewrite IH, <- app_assoc.
Qed.

Lemma prints_return_app h texts texts' :
  prints_return h (texts ++ texts')
  <-> prints_return h texts
      /\ print_error (print_raises h) (stdout h ++ texts) texts' = None.
Proof.
  unfold prints_return. rewrite print_error_app.
  destruct (print_error (print_raises h) (stdout h) texts); split; try done.
  - by intros [? ?].
  - by intros [? ?].
Qed.

Lemma print_done_sub raises out texts :
  (Print <$> print_done raises out texts) ⊆ (Print <$> texts).
Proof.
  destruct (print_done_prefix raises out texts) as [k Hk].
  intros x Hx. rewrite Hk, fmap_app. apply elem_of_app. by left.
Qed.

(** **** The output file *)

Lemma open_w_denied path h :
  writable h path = false ->
  open_w path h = {| result := inl (OSError path); host_after := h; trace := [Open path] |}.
Proof.
  intros Hw. unfold open_w. rewrite bind_emit. by rewrite Hw.
Qed.

Lemma open_w_granted path h :
  writable h path = true ->
  open_w path h
  = {| result := inr tt; host_after := set_files h (<[path := []]> (files h));
       trace := [Open path] |}.
Proof.
  intros Hw. unfold open_w. rewrite bind_emit. by rewrite Hw.
Qed.

Lemma write_fits path text fs h :
  fits h text ->
  write path text (set_files h (<[path := []]> fs))
  = {| result := inr tt;
       host_after :=
         host_with h (<[path := text]> fs) ((fun k => k - length text)%nat <$> space h)
           (stdout h);
       trace := [] |}.
Proof.
  unfold fits, write, set_files, set_space, host_with, ret.
  cbn [files space environ writable stdout print_raises flushes_at_exit].
  rewrite lookup_insert_eq. cbn [default from_option id app].
  destruct (space h) as [k|]; intros Hle.
  - destruct (decide _); [|lia]. by rewrite insert_insert_eq.
  - by rewrite insert_insert_eq.
Qed.

Lemma write_overflows path text fs h k :
  space h = Some k ->
  (k < length text)%nat ->
  write path text (set_files h (<[path := []]> fs))
  = {| result := inl (OSError path);
       host_after := host_with h (<[path := take k text]> fs) (Some O) (stdout h);
       trace := [] |}.
Proof.
  intros Hk Hlt. unfold write, set_files, set_space, host_with, raise.
  cbn [files space environ writable stdout print_raises flushes_at_exit].
  rewrite lookup_insert_eq, Hk. cbn [default from_option id app].
  destruct (decide _); [lia|]. by rewrite insert_insert_eq.
Qed.

Lemma with_open_w_denied `{PyRuntime} path obj h :
  writable h path = false ->
  with_open_w path (json_dump obj path) h
  = {| result := inl (OSError path); host_after := h; trace := [Open path] |}.
Proof.
  intros Hw. unfold with_open_w. by apply bind_inl, open_w_denied.
Qed.

Lemma with_open_w_written `{PyRuntime} path obj h :
  writable h path = true ->
  fits h (json_dumps obj) ->
  with_open_w path (json_dump obj path) h
  = {| result := inr tt;
       host_after :=
         host_with h (<[path := json_dumps obj]> (files h))
           ((fun k => k - length (json_dumps obj))%nat <$> space h) (stdout h);
       trace := [Open path; Close path] |}.
Proof.
  intros Hw Hfit. unfold with_open_w.
  rewrite (bind_inr _ _ _ _ _ _ (open_w_granted _ _ Hw)).
  unfold finally, json_dump. by rewrite write_fits.
Qed.

Lemma with_open_w_truncated `{PyRuntime} path obj h k :
  writable h path = true ->
  space h = Some k ->
  (k < length (json_dumps obj))%nat ->
  with_open_w path (json_dump obj path) h
  = {| result := inl (OSError path);
       host_after := host_with h (<[path := take k (json_dumps obj)]> (files h)) (Some O)
                       (stdout h);
       trace := [Open path; Close path] |}.
Proof.
  intros Hw Hk Hlt. unfold with_open_w.
  rewrite (bind_inr _ _ _ _ _ _ (open_w_granted _ _ Hw)).
  unfold finally, json_dump. by rewrite (write_overflows _ _ _ _ k).
Qed.

Ltac finish :=
  unfold after, raise, ret; cbn [result host_after trace];
  rewrite ?app_nil_r, <- ?app_assoc; reflexivity.

Lemma prelude_opening (audio_file : pystr) (tok : option pystr) :
  prelude audio_file tok
  = (Print <$> opening_lines audio_file tok) ++ [FromPretrained MODEL tok].
Proof. unfold prelude, opening_lines. by destruct (not_ tok). Qed.

Lemma epilogue_closing (output_file : pystr) (n : nat) :
  epilogue output_file n = Print <$> closing_lines output_file n.
Proof. reflexivity. Qed.

Section Runs.
Context `{Pyannote} `{PyRuntime}.
Variables (audio_file output_file : pystr) (h : Host).

Let tok := environ h !! TOKEN.
Let h1 := host_with h (files h) (space h) (stdout h ++ opening_lines audio_file tok).

(** Lines 11-18 print the opening texts in turn. *)
Lemma run_opening :
  diarize_audio audio_file output_file h
  = (print_all (opening_lines audio_file tok) ;;
     pipeline ← (emit (FromPretrained MODEL tok) ;; lift (from_pretrained MODEL tok));
     diarization ← (emit (ApplyPipeline audio_file) ;;
                    lift (apply_pipeline pipeline audio_file));
     segments ← segments_of diarization;
     with_open_w output_file (json_dump (PyList segments) output_file) ;;
     print (u "Diarization complete. Found " ++ str_of_nat (length segments)
              ++ u " speaker segments.") ;;
     print (u "Results saved to " ++ output_file)) h.
Proof.
  unfold diarize_audio, opening_lines. cbn [print_all]. rewrite bind_bind.
  destruct (print_raises h (stdout h) (u "Starting diarization for " ++ audio_file))
    as [e|] eqn:Hp.
  - by rewrite !(bind_inl _ _ _ _ _ _ (print_refused _ _ _ Hp)).
  - rewrite !(bind_inr _ _ _ _ _ _ (print_returns _ _ Hp)). f_equal.
    rewrite bind_environ_get. cbn [environ host_with]. fold TOKEN tok MODEL.
    destruct (not_ tok); [|reflexivity].
    cbn [print_all]. apply bind_ext. apply bind_ext_r. intros _ h'.
    symmetry. apply bind_ret_r.
Qed.

Lemma run_opening_raises e :
  print_error (print_raises h) (stdout h) (opening_lines audio_file tok) = Some e ->
  diarize_audio audio_file output_file h
  = {| result := inl e;
       host_after :=
         host_with h (files h) (space h)
           (stdout h ++ print_done (print_raises h) (stdout h)
                          (opening_lines audio_file tok));
       trace := Print <$> print_done (print_raises h) (stdout h)
                            (opening_lines audio_file tok) |}.
Proof.
  intros He. rewrite run_opening. apply bind_inl. by rewrite print_all_run, He.
Qed.

Lemma run_prelude :
  prints_return h (opening_lines audio_file tok) ->
  diarize_audio audio_file output_file h
  = after (prelude audio_file tok)
      ((pipeline ← lift (from_pretrained MODEL tok);
        diarization ← (emit (ApplyPipeline audio_file) ;;
                       lift (apply_pipeline pipeline audio_file));
        segments ← segments_of diarization;
        with_open_w output_file (json_dump (PyList segments) output_file) ;;
        print (u "Diarization complete. Found " ++ str_of_nat (length segments)
                 ++ u " speaker segments.") ;;
        print (u "Results saved to " ++ output_file)) h1).
Proof.
  intros Hprints. rewrite run_opening.
  assert (Hall : print_all (opening_lines audio_file tok) h
                 = {| result := inr tt; host_after := h1;
                      trace := Print <$> opening_lines audio_file tok |}).
  { rewrite print_all_run, Hprints. by rewrite (print_done_all _ _ _ Hprints). }
  rewrite (bind_inr _ _ _ _ _ _ Hall). run. by rewrite prelude_opening.
Qed.

Lemma run_from_pretrained_raises e :
  prints_return h (opening_lines audio_file tok) ->
  from_pretrained MODEL tok = inl e ->
  diarize_audio audio_file output_file h
  = {| result := inl e; host_after := h1; trace := prelude audio_file tok |}.
Proof.
  intros Hprints He. rewrite run_prelude, He by done. unfold lift. run.
  finish.
Qed.

Lemma run_apply_raises p e :
  prints_return h (opening_lines audio_file tok) ->
  from_pretrained MODEL tok = inr p ->
  apply_pipeline p audio_file = inl e ->
  diarize_audio audio_file output_file h
  = {| result := inl e; host_after := h1;
       trace := prelude audio_file tok ++ [ApplyPipeline audio_file] |}.
Proof.
  intros Hprints Hp He. rewrite run_prelude, Hp by done. unfold lift. run.
  rewrite He. run. finish.
Qed.

Lemma run_itertracks_raises p d tracks e :
  prints_return h (opening_lines audio_file tok) ->
  from_pretrained MODEL tok = inr p ->
  apply_pipeline p audio_file = inr d ->
  itertracks d = (tracks, Some e) ->
  diarize_audio audio_file output_file h
  = {| result := inl e; host_after := h1;
       trace := prelude audio_file tok ++ [ApplyPipeline audio_file; IterTracks] |}.
Proof.
  intros Hprints Hp Hd Ht. rewrite run_prelude, Hp by done. unfold lift. run.
  rewrite Hd. run. unfold segments_of. run. rewrite Ht. run.
  finish.
Qed.

Lemma run_collected p d tracks :
  prints_return h (opening_lines audio_file tok) ->
  from_pretrained MODEL tok = inr p ->
  apply_pipeline p audio_file = inr d ->
  itertracks d = (tracks, None) ->
  diarize_audio audio_file output_file h
  = after (prelude audio_file tok ++ [ApplyPipeline audio_file; IterTracks])
      ((with_open_w output_file
          (json_dump (PyList (collect_segments tracks)) output_file) ;;
        print_all (closing_lines output_file (length tracks))) h1).
Proof.
  intros Hprints Hp Hd Ht. rewrite run_prelude, Hp by done. unfold lift. run.
  rewrite Hd. run. unfold segments_of. run. rewrite Ht. run.
  replace (length (collect_segments tracks)) with (length tracks)
    by (rewrite collect_segments_map; symmetry; apply length_map).
  rewrite <- app_assoc. f_equal. unfold closing_lines. cbn [print_all].
  apply bind_ext_r. intros _ h'. apply bind_ext_r. intros _ h''.
  symmetry. apply bind_ret_r.
Qed.

Lemma run_open_raises p d tracks :
  prints_return h (opening_lines audio_file tok) ->
  from_pretrained MODEL tok = inr p ->
  apply_pipeline p audio_file = inr d ->
  itertracks d = (tracks, None) ->
  writable h output_file = false ->
  diarize_audio audio_file output_file h
  = {| result := inl (OSError output_file); host_after := h1;
       trace := prelude audio_file tok
                ++ [ApplyPipeline audio_file; IterTracks; Open output_file] |}.
Proof.
  intros Hprints Hp Hd Ht Hw. rewrite (run_collected p d tracks) by done.
  assert (Hw1 : writable h1 output_file = false) by done.
  rewrite (bind_inl _ _ _ _ _ _ (with_open_w_denied _ _ _ Hw1)). finish.
Qed.

Lemma run_write_raises p d tracks k :
  prints_return h (opening_lines audio_file tok) ->
  from_pretrained MODEL tok = inr p ->
  apply_pipeline p audio_file = inr d ->
  itertracks d = (tracks, None) ->
  writable h output_file = true ->
  space h = Some k ->
  (k < length (json_dumps (PyList (collect_segments tracks))))%nat ->
  diarize_audio audio_file output_file h
  = {| result := inl (OSError output_file);
       host_after :=
         host_with h
           (<[output_file := take k (json_dumps (PyList (collect_segments tracks)))]>
              (files h))
           (Some O)
           (stdout h ++ opening_lines audio_file tok);
       trace := prelude audio_file tok
                ++ [ApplyPipeline audio_file; IterTracks; Open output_file;
                    Close output_file] |}.
Proof.
  intros Hprints Hp Hd Ht Hw Hs Hk. rewrite (run_collected p d tracks) by done.
  assert (Hw1 : writable h1 output_file = true) by done.
  assert (Hs1 : space h1 = Some k) by done.
  rewrite (bind_inl _ _ _ _ _ _ (with_open_w_truncated _ _ _ k Hw1 Hs1 Hk)). finish.
Qed.

Lemma run_written p d tracks :
  prints_return h (opening_lines audio_file tok) ->
  from_pretrained MODEL tok = inr p ->
  apply_pipeline p audio_file = inr d ->
  itertracks d = (tracks, None) ->
  writable h output_file = true ->
  fits h (json_dumps (PyList (collect_segments tracks))) ->
  diarize_audio audio_file output_file h
  = {| result := match print_error (print_raises h)
                         (stdout h ++ opening_lines audio_file tok)
                         (closing_lines output_file (length tracks)) with
                 | Some e => inl e
                 | None => inr tt
                 end;
       host_after :=
         host_with h
           (<[output_file := json_dumps (PyList (collect_segments tracks))]> (files h))
           ((fun k => k - length (json_dumps (PyList (collect_segments tracks))))%nat
              <$> space h)
           ((stdout h ++ opening_lines audio_file tok)
              ++ print_done (print_raises h) (stdout h ++ opening_lines audio_file tok)
                   (closing_lines output_file (length tracks)));
       trace := prelude audio_file tok
                ++ [ApplyPipeline audio_file; IterTracks; Open output_file;
                    Close output_file]
                ++ (Print <$> print_done (print_raises h)
                                (stdout h ++ opening_lines audio_file tok)
                                (closing_lines output_file (length tracks))) |}.
Proof.
  intros Hprints Hp Hd Ht Hw Hs. rewrite (run_collected p d tracks) by done.
  assert (Hw1 : writable h1 output_file = true) by done.
  assert (Hs1 : fits h1 (json_dumps (PyList (collect_segments tracks)))) by done.
  rewrite (bind_inr _ _ _ _ _ _ (with_open_w_written _ _ _ Hw1 Hs1)).
  rewrite print_all_run. unfold after, h1, host_with.
  cbn [result host_after trace files space stdout print_raises flushes_at_exit
       environ writable].
  by rewrite <- !app_assoc.
Qed.
End Runs.

Lemma diarize_audio_cases `{Pyannote} `{PyRuntime} (audio_file output_file : pystr) (h : Host) :
  run_case audio_file output_file h (diarize_audio audio_file output_file h).
Proof.
  destruct (print_error (print_raises h) (stdout h)
              (opening_lines audio_file (environ h !! TOKEN))) as [e|] eqn:Hprints.
  { rewrite (run_opening_raises _ _ _ e Hprints). by constructor. }
  destruct (from_pretrained MODEL (environ h !! TOKEN)) as [e|p] eqn:Hp.
  { rewrite (run_from_pretrained_raises _ _ _ e Hprints Hp). by constructor. }
  destruct (apply_pipeline p audio_file) as [e|d] eqn:Hd.
  { rewrite (run_apply_raises _ _ _ p e Hprints Hp Hd). by econstructor. }
  destruct (itertracks d) as [tracks [e|]] eqn:Ht.
  { rewrite (run_itertracks_raises _ _ _ p d tracks e Hprints Hp Hd Ht). by econstructor. }
  destruct (writable h output_file) eqn:Hw.
  2: { rewrite (run_open_raises _ _ _ p d tracks Hprints Hp Hd Ht Hw). by econstructor. }
  assert (Hdone : fits h (json_dumps (PyList (collect_segments tracks))) ->
                  run_case audio_file output_file h (diarize_audio audio_file output_file h)).
  { intros Hfit. rewrite (run_written _ _ _ p d tracks Hprints Hp Hd Ht Hw Hfit).
    destruct (print_error (print_raises h)
                (stdout h ++ opening_lines audio_file (environ h !! TOKEN))
                (closing_lines output_file (length tracks))) as [e|] eqn:Hclosing.
    - by eapply ClosingRaised.
    - rewrite (print_done_all _ _ _ Hclosing). by eapply Completed. }
  destruct (space h) as [k|] eqn:Hk.
  - destruct (decide (length (json_dumps (PyList (collect_segments tracks))) <= k)%nat) as [Hle|Hn].
    + apply Hdone. unfold fits. by rewrite Hk.
    + assert (Hlt : (k < length (json_dumps (PyList (collect_segments tracks))))%nat) by lia.
      rewrite (run_write_raises _ _ _ p d tracks k Hprints Hp Hd Ht Hw Hk Hlt).
      by econstructor.
  - apply Hdone. unfold fits. by rewrite Hk.
Qed.

(** *** The events and the outcome of a run *)

Ltac clash H := unfold WARNING1, WARNING2, u in H; simpl in H; discriminate.

(** Membership in, and inclusion between, lists written out with [++]. *)
Ltac in_list := rewrite ?elem_of_app, ?elem_of_cons; auto 20.
Ltac sub_list :=
  let x := fresh "x" in
  let Hx := fresh "Hx" in
  intros x Hx; revert Hx; rewrite ?elem_of_app, ?elem_of_cons, ?elem_of_nil; tauto.

Lemma elem_of_prelude_warning audio_file tok :
  (Print WARNING1 ∈ prelude audio_file tok <-> not_ tok = true)
  /\ (Print WARNING2 ∈ prelude audio_file tok <-> not_ tok = true).
Proof.
  unfold prelude. destruct (not_ tok).
  - split; (split; [done|]); intros _; in_list.
  - split; (split; [|done]); intros Hx;
      apply elem_of_app in Hx as [Hx|Hx];
      try (apply elem_of_app in Hx as [Hx|Hx]);
      try (by apply elem_of_nil in Hx);
      apply list_elem_of_singleton in Hx; try discriminate;
      inversion Hx as [Hs]; clash Hs.
Qed.

Lemma elem_of_prelude_call audio_file tok m t :
  FromPretrained m t ∈ prelude audio_file tok <-> m = MODEL /\ t = tok.
Proof.
  unfold prelude. split.
  - intros Hx. apply elem_of_app in Hx as [Hx|Hx]; [|apply elem_of_app in Hx as [Hx|Hx]].
    + apply list_elem_of_singleton in Hx. discriminate.
    + destruct (not_ tok); [|by apply elem_of_nil in Hx].
      repeat (apply elem_of_cons in Hx as [Hx|Hx]; [discriminate|]).
      by apply elem_of_nil in Hx.
    + apply list_elem_of_singleton in Hx. by inversion Hx.
  - intros [-> ->]. in_list.
Qed.

Lemma not__spec tok : not_ tok = true <-> tok = None \/ tok = Some [].
Proof.
  destruct tok as [[|c s]|]; simpl; split; auto; try discriminate;
    intros [Hx|Hx]; discriminate.
Qed.

Lemma nothing_later audio_file output_file n (evs : list event) :
  evs ⊆ [ApplyPipeline audio_file; IterTracks; Open output_file; Close output_file]
        ++ epilogue output_file n ->
  (Print WARNING1 ∉ evs) /\ (Print WARNING2 ∉ evs)
  /\ (forall m t, FromPretrained m t ∉ evs).
Proof.
  intros Hsub. split; [|split; [|intros m t]]; intros Hx; apply Hsub in Hx;
    unfold epilogue in Hx; cbn [app] in Hx;
    repeat (apply elem_of_cons in Hx as [Hx|Hx]; [try discriminate|]);
    try (by apply elem_of_nil in Hx);
    inversion Hx as [Hs]; clash Hs.
Qed.

(** A run past one of its opening prints. *)
Ltac stuck Hprints :=
  match goal with
  | Hraised : print_error _ _ _ = Some _ |- _ =>
      unfold prints_return in Hprints; rewrite Hprints in Hraised; discriminate
  end.

(** When the opening prints return, the events of a run are those of the
    prelude followed by later events. *)
Lemma trace_shape `{Pyannote} `{PyRuntime} audio_file output_file h :
  prints_return h (opening_lines audio_file (environ h !! TOKEN)) ->
  exists rest n,
    trace (diarize_audio audio_file output_file h)
    = prelude audio_file (environ h !! TOKEN) ++ rest
    /\ rest ⊆ [ApplyPipeline audio_file; IterTracks; Open output_file; Close output_file]
              ++ epilogue output_file n.
Proof.
  intros Hprints.
  destruct (diarize_audio_cases audio_file output_file h); cbn [trace].
  - stuck Hprints.
  - exists [], O. rewrite app_nil_r. split; [done|]. sub_list.
  - eexists _, O. split; [done|]. sub_list.
  - eexists _, O. split; [done|]. sub_list.
  - eexists _, O. split; [done|]. sub_list.
  - eexists _, O. split; [done|]. sub_list.
  - eexists _, (length tracks). split; [done|].
    intros x Hx. apply elem_of_app in Hx as [Hx|Hx]; apply elem_of_app; [by left|right].
    rewrite epilogue_closing. by eapply print_done_sub.
  - eexists _, (length tracks). split; [done|]. sub_list.
Qed.

(** C9: when the prints of lines 11-18 return, the warning is printed
    exactly when [HUGGINGFACE_TOKEN] is unset or set to the empty string, and
    the value found in the environment (the empty string included) is what
    the pipeline constructor receives. *)
Theorem C9_warning_iff_falsy `{Pyannote} `{PyRuntime} (audio_file output_file : pystr) (h : Host) :
  prints_return h (opening_lines audio_file (environ h !! TOKEN)) ->
  (Print WARNING1 ∈ trace (diarize_audio audio_file output_file h)
   <-> environ h !! TOKEN = None \/ environ h !! TOKEN = Some [])
  /\ (Print WARNING2 ∈ trace (diarize_audio audio_file output_file h)
      <-> environ h !! TOKEN = None \/ environ h !! TOKEN = Some [])
  /\ FromPretrained MODEL (environ h !! TOKEN)
       ∈ trace (diarize_audio audio_file output_file h)
  /\ (forall m t, FromPretrained m t ∈ trace (diarize_audio audio_file output_file h) ->
                  m = MODEL /\ t = environ h !! TOKEN).
Proof.
  intros Hprints.
  destruct (trace_shape audio_file output_file h Hprints) as (rest & n & -> & Hrest).
  destruct (nothing_later _ _ _ _ Hrest) as (Hw1 & Hw2 & Hcall).
  destruct (elem_of_prelude_warning audio_file (environ h !! TOKEN)) as [Hp1 Hp2].
  rewrite <- !not__spec, !elem_of_app. split; [|split; [|split]].
  - split; [intros [Hx|Hx]; [by apply Hp1|done] | intros Hx; left; by apply Hp1].
  - split; [intros [Hx|Hx]; [by apply Hp2|done] | intros Hx; left; by apply Hp2].
  - left. by apply elem_of_prelude_call.
  - intros m t Hx. apply elem_of_app in Hx as [Hx|Hx]; [|by apply Hcall in Hx].
    by apply elem_of_prelude_call in Hx.
Qed.

Lemma C9_warning_iff_falsy_witness :
  Print WARNING1 ∈ trace (@diarize_audio (stub_pipeline example_tracks) example_runtime
                            (u "a.wav") (u "out.json") empty_token_host)
  /\ FromPretrained MODEL (Some [])
       ∈ trace (@diarize_audio (stub_pipeline example_tracks) example_runtime
                  (u "a.wav") (u "out.json") empty_token_host).
Proof.
  destruct (@C9_warning_iff_falsy (stub_pipeline example_tracks) example_runtime
              (u "a.wav") (u "out.json") empty_token_host eq_refl)
    as (Hwarn & _ & Hcall & _).
  split; [|exact Hcall]. apply Hwarn. right. reflexivity.
Defined.

(** C5: with [HUGGINGFACE_TOKEN] absent, and the start line and the two
    warning lines printed, the run constructs the pipeline (with no token)
    and, once constructed, invokes it on the audio file; an exception of the
    construction or of the invocation is the outcome of the run. *)
Theorem C5_absent_token_proceeds `{Pyannote} `{PyRuntime}
    (audio_file output_file : pystr) (h : Host) :
  environ h !! TOKEN = None ->
  prints_return h [u "Starting diarization for " ++ audio_file; WARNING1; WARNING2] ->
  [Print (u "Starting diarization for " ++ audio_file);
   Print WARNING1; Print WARNING2;
   FromPretrained MODEL None] `prefix_of` trace (diarize_audio audio_file output_file h)
  /\ (forall e, from_pretrained MODEL None = inl e ->
        result (diarize_audio audio_file output_file h) = inl e)
  /\ (forall p, from_pretrained MODEL None = inr p ->
        ApplyPipeline audio_file ∈ trace (diarize_audio audio_file output_file h)
        /\ forall e, apply_pipeline p audio_file = inl e ->
             result (diarize_audio audio_file output_file h) = inl e).
Proof.
  intros Htok Hprints.
  assert (Hopening : prints_return h (opening_lines audio_file (environ h !! TOKEN)))
    by (by rewrite Htok).
  split; [|split].
  - destruct (trace_shape audio_file output_file h Hopening) as (rest & n & -> & _).
    rewrite Htok. by exists rest.
  - intros e He. rewrite <- Htok in He.
    by rewrite (run_from_pretrained_raises _ _ _ e Hopening He).
  - intros p Hp. rewrite <- Htok in Hp. split.
    + destruct (diarize_audio_cases audio_file output_file h); cbn [trace];
        try in_list; congruence.
    + intros e He. by rewrite (run_apply_raises _ _ _ p e Hopening Hp He).
Qed.

Lemma C5_absent_token_proceeds_witness :
  let P := failing_pipeline (PipelineError (u "no such file")) in
  let o := @diarize_audio P example_runtime (u "a.wav") (u "out.json") empty_host in
  trace o = [Print (u "Starting diarization for a.wav"); Print WARNING1; Print WARNING2;
             FromPretrained MODEL None; ApplyPipeline (u "a.wav")]
  /\ result o = inl (PipelineError (u "no such file")).
Proof.
  intros P o.
  destruct (@C5_absent_token_proceeds P example_runtime (u "a.wav") (u "out.json") empty_host)
    as (Hpre & _ & Hcall); [reflexivity|reflexivity|].
  destruct (Hcall tt eq_refl) as [_ Hraise].
  split; [reflexivity|]. exact (Hraise _ eq_refl).
Defined.

Lemma opening_events_not_open (audio_file : pystr) (tok : option pystr) (texts : list pystr)
    (path : pystr) :
  (Open path ∉ (Print <$> texts)) /\ (Open path ∉ prelude audio_file tok).
Proof.
  split.
  - intros Hx. apply list_elem_of_fmap in Hx as (text & Heq & _). discriminate.
  - intros Hx. unfold prelude in Hx. destruct (not_ _); cbn [app] in Hx;
      repeat (apply elem_of_cons in Hx as [Hx|Hx]; [discriminate|]);
      by apply elem_of_nil in Hx.
Qed.

(** C4: when the pipeline rejects the audio path, the run ends with an
    uncaught exception, the exit status is not 0, no file is created or
    modified and the output file is never opened. When the prints of lines
    11-18 return, the exception is the one the pyannote call raised and the
    host is as it was before the run, but for the texts printed; when the
    interpreter can then flush its standard streams, the exit status is 1. *)
Theorem C4_bad_audio_leaves_no_file `{Pyannote} `{PyRuntime}
    (audio_file output_file : pystr) (h : Host) :
  (forall p, exists e, apply_pipeline p audio_file = inl e) ->
  exit_status (main audio_file output_file h) <> 0%Z
  /\ (exists e, result (main audio_file output_file h) = inl e)
  /\ files (host_after (main audio_file output_file h)) = files h
  /\ (forall path, Open path ∉ trace (main audio_file output_file h))
  /\ (prints_return h (opening_lines audio_file (environ h !! TOKEN)) ->
      (exists e, result (main audio_file output_file h) = inl e
                 /\ (from_pretrained MODEL (environ h !! TOKEN) = inl e
                     \/ exists p, from_pretrained MODEL (environ h !! TOKEN) = inr p
                                  /\ apply_pipeline p audio_file = inl e))
      /\ host_after (main audio_file output_file h)
         = host_with h (files h) (space h)
             (stdout h ++ opening_lines audio_file (environ h !! TOKEN))
      /\ (flushes_at_exit h (stdout h ++ opening_lines audio_file (environ h !! TOKEN))
          = true ->
          exit_status (main audio_file output_file h) = 1%Z)).
Proof.
  intros Hbad. unfold exit_status, main.
  destruct (diarize_audio_cases audio_file output_file h) as
    [e Hraised|e Hprints He|p e Hprints Hp He|p d ? e Hprints Hp Hd|p d ? Hprints Hp Hd
    |p d ? k Hprints Hp Hd|p d ? e Hprints Hp Hd|p d ? Hprints Hp Hd];
    cbn [result host_after trace files stdout flushes_at_exit host_with];
    try (destruct (Hbad p) as [e' He']; congruence).
  - split; [by destruct (flushes_at_exit _ _)|]. split; [by eauto|]. split; [done|].
    split; [intros path; apply (opening_events_not_open audio_file None)|].
    intros Hprints. stuck Hprints.
  - split; [by destruct (flushes_at_exit _ _)|]. split; [by eauto|]. split; [done|].
    split; [intros path; apply (opening_events_not_open audio_file _ [])|].
    intros _. split; [by eauto|]. split; [done|]. by intros ->.
  - split; [by destruct (flushes_at_exit _ _)|]. split; [by eauto|]. split; [done|].
    split.
    { intros path Hx. apply elem_of_app in Hx as [Hx|Hx].
      - by apply (opening_events_not_open audio_file _ []) in Hx.
      - apply list_elem_of_singleton in Hx. discriminate. }
    intros _. split; [by eauto 6|]. split; [done|]. by intros ->.
Qed.

Lemma C4_bad_audio_leaves_no_file_witness :
  let P := failing_pipeline (PipelineError (u "no such file")) in
  exit_status (@main P example_runtime (u "missing.wav") (u "out.json") empty_host) = 1%Z
  /\ files (host_after (@main P example_runtime (u "missing.wav") (u "out.json") empty_host))
     = ∅.
Proof.
  intros P.
  destruct (@C4_bad_audio_leaves_no_file P example_runtime (u "missing.wav") (u "out.json")
              empty_host) as (_ & _ & Hfiles & _ & Hprinted).
  - intros p. by eexists.
  - destruct (Hprinted eq_refl) as (_ & _ & Hexit).
    split; [exact (Hexit eq_refl)|exact Hfiles].
Defined.

(** C8: when the pipeline yields no track, the output can be written, the
    prints return and the interpreter can flush its standard streams, the run
    completes with status 0, the output file holds exactly [[]], and the
    completion message reports 0 segments. *)
Theorem C8_no_tracks `{Pyannote} `{PyRuntime}
    (audio_file output_file : pystr) (h : Host) (p : Pipeline) (d : Annotation) :
  from_pretrained MODEL (environ h !! TOKEN) = inr p ->
  apply_pipeline p audio_file = inr d ->
  itertracks d = ([], None) ->
  writable h output_file = true ->
  fits h (u "[]") ->
  prints_return h (opening_lines audio_file (environ h !! TOKEN)
                   ++ closing_lines output_file 0) ->
  flushes_at_exit h (stdout h ++ opening_lines audio_file (environ h !! TOKEN)
                              ++ closing_lines output_file 0) = true ->
  result (main audio_file output_file h) = inr tt
  /\ exit_status (main audio_file output_file h) = 0%Z
  /\ files (host_after (main audio_file output_file h)) !! output_file = Some (u "[]")
  /\ Print (u "Diarization complete. Found 0 speaker segments.")
       ∈ trace (main audio_file output_file h).
Proof.
  intros Hp Hd Ht Hw Hfit Hprints Hflush. unfold exit_status, main.
  apply prints_return_app in Hprints as [Hopening Hclosing].
  rewrite (run_written _ _ _ p d [] Hopening Hp Hd Ht Hw Hfit).
  cbn [length] in *. rewrite Hclosing, (print_done_all _ _ _ Hclosing).
  cbn [result host_after trace files stdout flushes_at_exit host_with].
  rewrite <- app_assoc, Hflush.
  split; [done|]. split; [done|]. split.
  - by rewrite lookup_insert_eq.
  - rewrite !elem_of_app. right. right. apply elem_of_cons. by left.
Qed.

Lemma C8_no_tracks_witness :
  let o := @main (stub_pipeline []) example_runtime (u "a.wav") (u "out.json") empty_host in
  result o = inr tt /\ files (host_after o) !! u "out.json" = Some (u "[]").
Proof.
  intros o.
  destruct (@C8_no_tracks (stub_pipeline []) example_runtime (u "a.wav") (u "out.json")
              empty_host tt tt eq_refl eq_refl eq_refl eq_refl I eq_refl eq_refl)
    as (Hres & _ & Hfile & _).
  by split.
Defined.

(** A run that completes is the last case. *)
Lemma completed_run `{Pyannote} `{PyRuntime}
    (audio_file output_file : pystr) (h : Host) (p : Pipeline) (d : Annotation)
    (tracks : list Track) :
  from_pretrained MODEL (environ h !! TOKEN) = inr p ->
  apply_pipeline p audio_file = inr d ->
  itertracks d = (tracks, None) ->
  result (diarize_audio audio_file output_file h) = inr tt ->
  writable h output_file = true
  /\ fits h (json_dumps (PyList (collect_segments tracks)))
  /\ files (host_after (diarize_audio audio_file output_file h))
     = <[output_file := json_dumps (PyList (collect_segments tracks))]> (files h)
  /\ trace (diarize_audio audio_file output_file h)
     = prelude audio_file (environ h !! TOKEN)
       ++ [ApplyPipeline audio_file; IterTracks; Open output_file; Close output_file]
       ++ epilogue output_file (length tracks).
Proof.
  intros Hp Hd Ht Hres.
  destruct (diarize_audio_cases audio_file output_file h) as
    [e Hraised|e Hprints He|p' e Hprints Hp' He|p' d' ? e Hprints Hp' Hd' Ht'
    |p' d' ? Hprints Hp' Hd' Ht'|p' d' ? k Hprints Hp' Hd' Ht'
    |p' d' ? e Hprints Hp' Hd' Ht'
    |p' d' tracks' Hprints Hp' Hd' Ht' Hw Hfit Hclosing]; try discriminate.
  assert (p' = p) as -> by congruence.
  assert (d' = d) as -> by congruence.
  assert (tracks' = tracks) as -> by congruence.
  done.
Qed.

(** C10: two runs that complete and whose pipelines yield the same tracks
    write the same text, whatever the hosts (credential included), the
    pipelines, the audio paths and the output paths are. *)
Theorem C10_same_tracks_same_bytes (R : PyRuntime) (P1 P2 : Pyannote)
    (audio1 output1 audio2 output2 : pystr) (h1 h2 : Host)
    (p1 : @Pipeline P1) (d1 : @Annotation P1) (p2 : @Pipeline P2) (d2 : @Annotation P2)
    (tracks : list Track) :
  @from_pretrained P1 MODEL (environ h1 !! TOKEN) = inr p1 ->
  @apply_pipeline P1 p1 audio1 = inr d1 ->
  @itertracks P1 d1 = (tracks, None) ->
  @from_pretrained P2 MODEL (environ h2 !! TOKEN) = inr p2 ->
  @apply_pipeline P2 p2 audio2 = inr d2 ->
  @itertracks P2 d2 = (tracks, None) ->
  result (@diarize_audio P1 R audio1 output1 h1) = inr tt ->
  result (@diarize_audio P2 R audio2 output2 h2) = inr tt ->
  files (host_after (@diarize_audio P1 R audio1 output1 h1)) !! output1
  = files (host_after (@diarize_audio P2 R audio2 output2 h2)) !! output2
  /\ is_Some (files (host_after (@diarize_audio P1 R audio1 output1 h1)) !! output1).
Proof.
  intros Hp1 Hd1 Ht1 Hp2 Hd2 Ht2 Hr1 Hr2.
  destruct (@completed_run P1 R audio1 output1 h1 p1 d1 tracks Hp1 Hd1 Ht1 Hr1)
    as (_ & _ & -> & _).
  destruct (@completed_run P2 R audio2 output2 h2 p2 d2 tracks Hp2 Hd2 Ht2 Hr2)
    as (_ & _ & -> & _).
  rewrite !lookup_insert_eq. split; [done|]. by eexists.
Qed.

Lemma C10_same_tracks_same_bytes_witness :
  files (host_after (@diarize_audio (stub_pipeline example_tracks) example_runtime
                       (u "a.wav") (u "out.json") empty_host)) !! u "out.json"
  = files (host_after (@diarize_audio (stub_pipeline example_tracks) example_runtime
                         (u "b.flac") (u "other.json") token_host)) !! u "other.json".
Proof.
  exact (proj1 (C10_same_tracks_same_bytes example_runtime
                  (stub_pipeline example_tracks) (stub_pipeline example_tracks)
                  (u "a.wav") (u "out.json") (u "b.flac") (u "other.json")
                  empty_host token_host
                  tt tt tt tt example_tracks
                  eq_refl eq_refl eq_refl eq_refl eq_refl eq_refl eq_refl eq_refl)).
Defined.

(** *** The text of the output file *)

Lemma encode_segment_dict `{PyRuntime} (t : Track) :
  encode 1 (segment_dict t) = render_segment t.
Proof.
  unfold segment_dict, render_segment, quoted, SPEAKER_. cbn [encode map join fst snd].
  unfold encode_basestring_ascii, newline_indent. cbn [replicate concat].
  change (u "start") with [115; 116; 97; 114; 116].
  change (u "end") with [101; 110; 100].
  change (u "speaker") with [115; 112; 101; 97; 107; 101; 114].
  change (u "  ") with [32; 32]. change (u "    ") with [32; 32; 32; 32].
  change (u "{") with [123]. change (u "}") with [125].
  change (u ",") with [44]. change (u ": ") with [58; 32].
  cbn [map escape_char concat app].
  repeat (rewrite <- ?app_assoc; cbn [app]). reflexivity.
Qed.

Lemma json_dumps_layout `{PyRuntime} (tracks : list Track) :
  json_dumps (PyList (collect_segments tracks)) = layout tracks.
Proof.
  rewrite collect_segments_map. unfold json_dumps, layout.
  destruct tracks as [|t ts]; [reflexivity|].
  cbn [encode map]. rewrite encode_segment_dict.
  rewrite map_map. rewrite (map_ext _ _ encode_segment_dict).
  unfold newline_indent. cbn [replicate concat].
  change (u "  ") with [32; 32]. cbn [app].
  reflexivity.
Qed.

(** *** The number pattern *)

Lemma span_spec (p : N -> bool) (s : pystr) :
  s = (span p s).1 ++ (span p s).2
  /\ Forall (fun c => p c = true) (span p s).1
  /\ match (span p s).2 with c :: _ => p c = false | [] => True end.
Proof.
  induction s as [|c s IH]; simpl; [done|].
  destruct (p c) eqn:Hc; [|done].
  destruct (span p s) as [a b]; simpl in *. destruct IH as (-> & Ha & Hb).
  split; [done|]. split; [by constructor|done].
Qed.

Lemma span_ext (p : N -> bool) (s r : pystr) :
  match r with c :: _ => p c = false | [] => True end ->
  span p (s ++ r) = ((span p s).1, (span p s).2 ++ r).
Proof.
  intros Hr. induction s as [|c s IH]; simpl.
  - destruct r as [|c r]; [done|]. simpl. by rewrite Hr.
  - destruct (p c); [|done]. rewrite IH. by destruct (span p s).
Qed.

Lemma ends_number_digit (r : pystr) :
  ends_number r = true -> match r with c :: _ => is_digit c = false | [] => True end.
Proof.
  destruct r as [|c r]; [done|]. unfold ends_number, numchar.
  destruct (is_digit c); [done|done].
Qed.

Lemma match_integer_ext (s r i b : pystr) :
  ends_number r = true ->
  match_integer s = Some (i, b) -> match_integer (s ++ r) = Some (i, b ++ r).
Proof.
  intros Hr. pose proof (ends_number_digit r Hr) as Hd.
  assert (Hcore : forall sign s1,
    match s1 with
    | d :: s2 =>
        if d =? 48 then Some (sign ++ [48], s2)
        else if is_digit d then let '(ds, r0) := span is_digit s2 in Some (sign ++ d :: ds, r0)
        else None
    | [] => None
    end = Some (i, b) ->
    match s1 ++ r with
    | d :: s2 =>
        if d =? 48 then Some (sign ++ [48], s2)
        else if is_digit d then let '(ds, r0) := span is_digit s2 in Some (sign ++ d :: ds, r0)
        else None
    | [] => None
    end = Some (i, b ++ r)).
  { intros sign [|d s2]; [done|]. simpl.
    destruct (d =? 48); [by intros [= <- <-]|].
    destruct (is_digit d); [|done].
    rewrite (span_ext _ _ _ Hd). destruct (span is_digit s2) as [ds r0]. simpl.
    by intros [= <- <-]. }
  unfold match_integer. destruct s as [|c s]; [done|]. simpl.
  destruct (c =? 45) eqn:Hc.
  - apply Hcore.
  - intros Hm. apply (Hcore [] (c :: s)) in Hm. exact Hm.
Qed.

Lemma match_frac_ext (s r : pystr) :
  ends_number r = true ->
  match_frac (s ++ r)
  = match match_frac s with
    | Some (f, b) => Some (f, b ++ r)
    | None => None
    end.
Proof.
  intros Hr. pose proof (ends_number_digit r Hr) as Hd.
  unfold match_frac. destruct s as [|c s]; simpl.
  - destruct r as [|c r]; [done|]. unfold ends_number, numchar in Hr.
    destruct (c =? 46); [|done]. by rewrite !orb_true_r in Hr.
  - destruct (c =? 46); [|done]. rewrite (span_ext _ _ _ Hd).
    destruct (span is_digit s) as [ds r0]. simpl. by destruct ds.
Qed.

Lemma match_exp_ext (s r : pystr) :
  ends_number r = true ->
  match_exp (s ++ r)
  = match match_exp s with
    | Some (e, b) => Some (e, b ++ r)
    | None => None
    end.
Proof.
  intros Hr. pose proof (ends_number_digit r Hr) as Hd.
  unfold match_exp. destruct s as [|c s]; simpl.
  - destruct r as [|c r]; [done|]. unfold ends_number, numchar in Hr.
    destruct (c =? 101) eqn:H1; [by rewrite ?orb_true_r in Hr|].
    destruct (c =? 69) eqn:H2; [by rewrite ?orb_true_r in Hr|]. done.
  - destruct ((c =? 101) || (c =? 69)); [|done].
    destruct s as [|g s]; simpl.
    + destruct r as [|g r]; [done|]. unfold ends_number, numchar in Hr.
      destruct (g =? 45) eqn:H1; [by rewrite ?orb_true_r in Hr|].
      destruct (g =? 43) eqn:H2; [by rewrite ?orb_true_r in Hr|]. simpl.
      destruct (is_digit g) eqn:H3; [done|]. done.
    + destruct ((g =? 45) || (g =? 43)).
      * rewrite (span_ext _ _ _ Hd). destruct (span is_digit s) as [ds r0]. simpl.
        by destruct ds.
      * change (g :: s ++ r) with ((g :: s) ++ r). rewrite (span_ext _ _ _ Hd).
        destruct (span is_digit (g :: s)) as [ds r0]. simpl. by destruct ds.
Qed.

Lemma number_groups_ext (s r i b : pystr) (f e : option pystr) :
  ends_number r = true ->
  number_groups s = Some (i, f, e, b) ->
  number_groups (s ++ r) = Some (i, f, e, b ++ r).
Proof.
  intros Hr. unfold number_groups.
  destruct (match_integer s) as [[i0 s1]|] eqn:Hi; [|done]. simpl.
  rewrite (match_integer_ext _ _ _ _ Hr Hi). simpl.
  rewrite (match_frac_ext _ _ Hr).
  destruct (match_frac s1) as [[f0 s2]|].
  - rewrite (match_exp_ext _ _ Hr). destruct (match_exp s2) as [[e0 s3]|]; by intros [= <- <- <- <-].
  - rewrite (match_exp_ext _ _ Hr). destruct (match_exp s1) as [[e0 s3]|]; by intros [= <- <- <- <-].
Qed.

Lemma digit_numchar (c : N) : is_digit c = true -> numchar c = true.
Proof. unfold numchar. by intros ->. Qed.

Lemma Forall_digit_numchar (ds : pystr) :
  Forall (fun c => is_digit c = true) ds -> Forall (fun c => numchar c = true) ds.
Proof. intros Hd. eapply Forall_impl; [exact Hd|exact digit_numchar]. Qed.

Lemma match_integer_spec (s i b : pystr) :
  match_integer s = Some (i, b) ->
  s = i ++ b
  /\ Forall (fun c => numchar c = true) i
  /\ exists c i', i = c :: i' /\ (c = 45 \/ is_digit c = true).
Proof.
  assert (Hcore : forall s1 i1,
    match s1 with
    | d :: s2 =>
        if d =? 48 then Some ([48], s2)
        else if is_digit d then let '(ds, r0) := span is_digit s2 in Some (d :: ds, r0)
        else None
    | [] => None
    end = Some (i1, b) ->
    s1 = i1 ++ b /\ Forall (fun c => numchar c = true) i1
    /\ exists c i', i1 = c :: i' /\ is_digit c = true).
  { intros [|d s2] i1; [done|].
    destruct (d =? 48) eqn:Hd.
    - apply N.eqb_eq in Hd as ->. intros [= <- <-]. split; [done|].
      split; [by repeat constructor|]. by eexists _, _.
    - destruct (is_digit d) eqn:Hdig; [|done].
      destruct (span_spec is_digit s2) as (Hs & Ha & _).
      destruct (span is_digit s2) as [ds r0]. simpl in *. intros [= <- <-].
      split; [by rewrite Hs|]. split.
      + constructor; [by apply digit_numchar|by apply Forall_digit_numchar].
      + by eexists _, _. }
  unfold match_integer. destruct s as [|c s]; [done|].
  destruct (c =? 45) eqn:Hc.
  - apply N.eqb_eq in Hc as ->. intros Hm.
    assert (exists i1, i = 45 :: i1 /\
      match s with
      | d :: s2 =>
          if d =? 48 then Some ([48], s2)
          else if is_digit d then let '(ds, r0) := span is_digit s2 in Some (d :: ds, r0)
          else None
      | [] => None
      end = Some (i1, b)) as (i1 & -> & Hm1).
    { destruct s as [|d s2]; [done|]. destruct (d =? 48); [by inversion Hm; eauto|].
      destruct (is_digit d); [|done]. destruct (span is_digit s2). inversion Hm; eauto. }
    destruct (Hcore _ _ Hm1) as (-> & Hall & _).
    split; [done|]. split; [by constructor|]. eexists _, _. eauto.
  - intros Hm. destruct (Hcore (c :: s) i) as (Hs & Hall & c' & i' & -> & Hdig).
    { exact Hm. }
    split; [done|]. split; [done|]. eexists _, _. eauto.
Qed.

Lemma match_frac_spec (s f b : pystr) :
  match_frac s = Some (f, b) ->
  s = f ++ b /\ Forall (fun c => numchar c = true) f.
Proof.
  unfold match_frac. destruct s as [|c s]; [done|].
  destruct (c =? 46) eqn:Hc; [|done]. apply N.eqb_eq in Hc as ->.
  destruct (span_spec is_digit s) as (Hs & Ha & _).
  destruct (span is_digit s) as [ds r0]. simpl in *.
  destruct ds as [|d ds]; [done|]. intros [= <- <-].
  split; [by rewrite Hs|]. constructor; [done|by apply Forall_digit_numchar].
Qed.

Lemma match_exp_spec (s e b : pystr) :
  match_exp s = Some (e, b) ->
  s = e ++ b /\ Forall (fun c => numchar c = true) e.
Proof.
  unfold match_exp. destruct s as [|c s]; [done|].
  destruct ((c =? 101) || (c =? 69)) eqn:Hc; [|done].
  assert (Hcn : numchar c = true).
  { unfold numchar. apply orb_true_iff in Hc as [->| ->]; by rewrite ?orb_true_r. }
  destruct s as [|g s].
  - simpl. done.
  - destruct ((g =? 45) || (g =? 43)) eqn:Hg.
    + assert (Hgn : numchar g = true).
      { unfold numchar. apply orb_true_iff in Hg as [->| ->]; by rewrite ?orb_true_r. }
      destruct (span_spec is_digit s) as (Hs & Ha & _).
      destruct (span is_digit s) as [ds r0]. simpl in *.
      destruct ds as [|d ds]; [done|]. intros [= <- <-].
      split; [by rewrite Hs|]. constructor; [done|].
      constructor; [done|by apply Forall_digit_numchar].
    + destruct (span_spec is_digit (g :: s)) as (Hs & Ha & _).
      destruct (span is_digit (g :: s)) as [ds r0]. simpl in Hs, Ha.
      destruct ds as [|d ds]; [done|]. intros [= <- <-].
      split; [by rewrite Hs|]. constructor; [done|by apply Forall_digit_numchar].
Qed.

Lemma number_groups_spec (s i b : pystr) (f e : option pystr) :
  number_groups s = Some (i, f, e, b) ->
  s = (i ++ default [] f ++ default [] e) ++ b
  /\ Forall (fun c => numchar c = true) (i ++ default [] f ++ default [] e)
  /\ exists c i', i = c :: i' /\ (c = 45 \/ is_digit c = true).
Proof.
  unfold number_groups.
  destruct (match_integer s) as [[i0 s1]|] eqn:Hi; [|done]. simpl.
  destruct (match_integer_spec _ _ _ Hi) as (-> & Hin & Hhead).
  destruct (match_frac s1) as [[f0 s2]|] eqn:Hf.
  - destruct (match_frac_spec _ _ _ Hf) as (-> & Hfn).
    destruct (match_exp s2) as [[e0 s3]|] eqn:He.
    + destruct (match_exp_spec _ _ _ He) as (-> & Hen). intros [= <- <- <- <-]. simpl.
      split; [by rewrite <- !app_assoc|]. split; [|done].
      by rewrite !Forall_app.
    + intros [= <- <- <- <-]. simpl. rewrite app_nil_r.
      split; [by rewrite <- !app_assoc|]. split; [|done]. by rewrite !Forall_app.
  - destruct (match_exp s1) as [[e0 s3]|] eqn:He.
    + destruct (match_exp_spec _ _ _ He) as (-> & Hen). intros [= <- <- <- <-]. simpl.
      split; [by rewrite <- !app_assoc|]. split; [|done]. by rewrite !Forall_app.
    + intros [= <- <- <- <-]. simpl. rewrite !app_nil_r. done.
Qed.

(** A float literal is made of number characters and starts with a minus
    sign or a digit. *)
Lemma float_literal_spec (s : pystr) :
  float_literal s = true ->
  Forall (fun c => numchar c = true) s
  /\ (exists c s', s = c :: s' /\ (c = 45 \/ is_digit c = true))
  /\ exists i f e, number_groups s = Some (i, f, e, [])
                   /\ s = i ++ default [] f ++ default [] e
                   /\ (is_Some f \/ is_Some e).
Proof.
  unfold float_literal. destruct (number_groups s) as [[[[i f] e] b]|] eqn:Hg; [|done].
  destruct b; [|done]. intros Hfe.
  destruct (number_groups_spec _ _ _ _ _ Hg) as (Hs & Hall & c & i' & -> & Hc).
  rewrite app_nil_r in Hs. split; [by rewrite Hs|]. split.
  - exists c, (i' ++ default [] f ++ default [] e). by rewrite Hs.
  - exists (c :: i'), f, e. split; [done|]. split; [done|].
    apply orb_true_iff in Hfe as [Hx|Hx]; apply bool_decide_eq_true in Hx; eauto.
Qed.

(** *** Escapes *)

Lemma lor_shiftl (hi lo k : N) :
  lo < 2 ^ k -> N.lor (N.shiftl hi k) lo = hi * 2 ^ k + lo.
Proof.
  intros Hlo. rewrite N.shiftl_mul_pow2.
  assert (Hdisj : N.land (hi * 2 ^ k) lo = 0).
  { apply N.bits_inj_0. intros i. rewrite N.land_spec.
    destruct (N.lt_ge_cases i k) as [Hi|Hi].
    - by rewrite N.mul_pow2_bits_low.
    - rewrite andb_false_iff. right.
      destruct (N.eq_dec lo 0) as [->|Hne]; [apply N.bits_0|].
      apply N.bits_above_log2. apply N.log2_lt_pow2; [lia|].
      eapply N.lt_le_trans; [exact Hlo|]. by apply N.pow_le_mono_r. }
  rewrite <- N.lxor_lor by done. symmetry. by apply N.add_nocarry_lxor.
Qed.

Lemma land_15 (x : N) : N.land x 15 = x mod 16.
Proof. change 15 with (N.ones 4). by rewrite N.land_ones. Qed.

Lemma hexval_hexdigit (n : N) : n < 16 -> hexval (hexdigit n) = Some n.
Proof.
  intros Hn. unfold hexval, hexdigit, is_digit.
  destruct (n <? 10) eqn:H10.
  - apply N.ltb_lt in H10.
    replace (48 <=? 48 + n) with true by (symmetry; apply N.leb_le; lia).
    replace (48 + n <=? 57) with true by (symmetry; apply N.leb_le; lia).
    simpl. f_equal. lia.
  - apply N.ltb_ge in H10.
    replace (87 + n <=? 57) with false by (symmetry; apply N.leb_gt; lia).
    rewrite andb_false_r.
    replace (97 <=? 87 + n) with true by (symmetry; apply N.leb_le; lia).
    replace (87 + n <=? 102) with true by (symmetry; apply N.leb_le; lia).
    simpl. f_equal. lia.
Qed.

Lemma hex4val_hex4 (c : N) :
  c < 65536 ->
  hex4val (hexdigit (N.land (N.shiftr c 12) 15)) (hexdigit (N.land (N.shiftr c 8) 15))
          (hexdigit (N.land (N.shiftr c 4) 15)) (hexdigit (N.land c 15)) = Some c.
Proof.
  intros Hc. unfold hex4val. rewrite !land_15, !N.shiftr_div_pow2.
  change (2 ^ 12) with 4096. change (2 ^ 8) with 256. change (2 ^ 4) with 16.
  rewrite !hexval_hexdigit by (apply N.mod_lt; lia). cbn [mbind option_bind].
  f_equal.
  rewrite (lor_shiftl _ (c mod 16) 4) by (change (2 ^ 4) with 16; apply N.mod_lt; lia).
  change (2 ^ 4) with 16.
  rewrite (lor_shiftl _ _ 8).
  2:{ change (2 ^ 8) with 256.
      pose proof (N.mod_lt (c / 16) 16). pose proof (N.mod_lt c 16). lia. }
  change (2 ^ 8) with 256.
  rewrite (lor_shiftl _ _ 12).
  2:{ change (2 ^ 12) with 4096.
      pose proof (N.mod_lt (c / 256) 16). pose proof (N.mod_lt (c / 16) 16).
      pose proof (N.mod_lt c 16). lia. }
  change (2 ^ 12) with 4096.
  zify. Z.to_euclidean_division_equations. lia.
Qed.

Ltac dlia := zify; Z.to_euclidean_division_equations; lia.

Lemma land_1023 (x : N) : N.land x 1023 = x mod 1024.
Proof. change 1023 with (N.ones 10). by rewrite N.land_ones. Qed.

(** The two halves of a code point above the basic plane. *)
Lemma surrogates_spec (c : N) :
  65536 <= c -> c < 1114112 ->
  let n := c - 65536 in
  let s1 := N.lor 55296 (N.land (N.shiftr n 10) 1023) in
  let s2 := N.lor 56320 (N.land n 1023) in
  s1 < 65536 /\ s2 < 65536
  /\ is_high_surrogate s1 = true /\ is_low_surrogate s2 = true
  /\ join_surrogates s1 s2 = c.
Proof.
  intros Hlo Hhi n s1 s2.
  assert (Hn : n < 1048576) by (unfold n; lia).
  assert (H1 : s1 = 55296 + n / 1024).
  { unfold s1. rewrite land_1023, N.shiftr_div_pow2. change (2 ^ 10) with 1024.
    change 55296 with (N.shiftl 54 10) at 1.
    rewrite lor_shiftl by (change (2 ^ 10) with 1024; apply N.mod_lt; lia).
    change (2 ^ 10) with 1024. rewrite N.mod_small; [dlia|].
    apply N.Div0.div_lt_upper_bound. lia. }
  assert (H2 : s2 = 56320 + n mod 1024).
  { unfold s2. rewrite land_1023. change 56320 with (N.shiftl 55 10) at 1.
    rewrite lor_shiftl by (change (2 ^ 10) with 1024; apply N.mod_lt; lia).
    change (2 ^ 10) with 1024. dlia. }
  assert (Hc : c = n + 65536) by (unfold n; lia).
  clearbody s1 s2 n. subst s1 s2 c.
  assert (Hq : n / 1024 < 1024) by (apply N.Div0.div_lt_upper_bound; lia).
  assert (Hr : n mod 1024 < 1024) by (apply N.mod_lt; lia).
  unfold is_high_surrogate, is_low_surrogate, join_surrogates.
  split; [dlia|]. split; [dlia|]. split; [|split].
  - apply andb_true_iff. split; apply N.leb_le; dlia.
  - apply andb_true_iff. split; apply N.leb_le; dlia.
  - replace (55296 + n / 1024 - 55296) with (n / 1024) by dlia.
    replace (56320 + n mod 1024 - 56320) with (n mod 1024) by dlia.
    rewrite lor_shiftl by (change (2 ^ 10) with 1024; done).
    change (2 ^ 10) with 1024.
    dlia.
Qed.

(** *** Reading back an encoded string *)

Lemma scanstring_u (h1 h2 h3 h4 : N) (s3 : pystr) :
  scanstring (92 :: 117 :: h1 :: h2 :: h3 :: h4 :: s3)
  = match hex4val h1 h2 h3 h4 with
    | None => None
    | Some uni =>
        if is_high_surrogate uni then
          match s3 with
          | b :: v :: s4 =>
              if (b =? 92) && (v =? 117) then
                match s4 with
                | l1 :: l2 :: l3 :: l4 :: s5 =>
                    match hex4val l1 l2 l3 l4 with
                    | None => None
                    | Some uni2 =>
                        if is_low_surrogate uni2
                        then push (join_surrogates uni uni2) (scanstring s5)
                        else push uni (scanstring s3)
                    end
                | _ => None
                end
              else push uni (scanstring s3)
          | _ => push uni (scanstring s3)
          end
        else push uni (scanstring s3)
    end.
Proof. reflexivity. Qed.

Lemma scanstring_bmp_escape (c : N) (T : pystr) :
  c < 65536 ->
  is_high_surrogate c = false \/ low_escape_ahead T = false ->
  scanstring (u "\u" ++ hex4 c ++ T) = push c (scanstring T).
Proof.
  intros Hc Hside. change (u "\u" ++ hex4 c ++ T) with
    (92 :: 117 :: hexdigit (N.land (N.shiftr c 12) 15) :: hexdigit (N.land (N.shiftr c 8) 15)
        :: hexdigit (N.land (N.shiftr c 4) 15) :: hexdigit (N.land c 15) :: T).
  rewrite scanstring_u, hex4val_hex4 by done.
  destruct (is_high_surrogate c) eqn:Hhigh; [|done].
  destruct Hside as [?|Hahead]; [done|].
  destruct T as [|b [|v s4]]; [done|done|].
  unfold low_escape_ahead in Hahead.
  destruct ((b =? 92) && (v =? 117)) eqn:Hbv; [|done].
  destruct s4 as [|l1 [|l2 [|l3 [|l4 s5]]]]; try done.
  cbn [andb] in Hahead. destruct (hex4val l1 l2 l3 l4) as [uni2|]; [|done].
  by rewrite Hahead.
Qed.

Lemma scanstring_pair_escape (c : N) (T : pystr) :
  65536 <= c -> c < 1114112 ->
  scanstring (u "\u" ++ hex4 (N.lor 55296 (N.land (N.shiftr (c - 65536) 10) 1023))
              ++ u "\u" ++ hex4 (N.lor 56320 (N.land (c - 65536) 1023)) ++ T)
  = push c (scanstring T).
Proof.
  intros Hlo Hhi.
  destruct (surrogates_spec c Hlo Hhi) as (H1 & H2 & Hhigh & Hlow & Hjoin).
  set (s1 := N.lor 55296 _) in *. set (s2 := N.lor 56320 _) in *.
  change (u "\u" ++ hex4 s1 ++ u "\u" ++ hex4 s2 ++ T) with
    (92 :: 117 :: hexdigit (N.land (N.shiftr s1 12) 15) :: hexdigit (N.land (N.shiftr s1 8) 15)
        :: hexdigit (N.land (N.shiftr s1 4) 15) :: hexdigit (N.land s1 15)
        :: 92 :: 117 :: hexdigit (N.land (N.shiftr s2 12) 15)
        :: hexdigit (N.land (N.shiftr s2 8) 15)
        :: hexdigit (N.land (N.shiftr s2 4) 15) :: hexdigit (N.land s2 15) :: T).
  rewrite scanstring_u, hex4val_hex4, Hhigh by done.
  change ((92 =? 92) && (117 =? 117)) with true. cbv iota.
  by rewrite hex4val_hex4, Hlow, Hjoin.
Qed.

(** The decoder reads the escape of one code point as that code point. *)
Lemma scanstring_escape_char (c : N) (T : pystr) :
  c < 1114112 ->
  is_high_surrogate c = false \/ low_escape_ahead T = false ->
  scanstring (escape_char c ++ T) = push c (scanstring T).
Proof.
  intros Hc Hside. unfold escape_char.
  destruct (c =? 92) eqn:E1; [apply N.eqb_eq in E1 as ->; reflexivity|].
  destruct (c =? 34) eqn:E2; [apply N.eqb_eq in E2 as ->; reflexivity|].
  destruct (c =? 8) eqn:E3; [apply N.eqb_eq in E3 as ->; reflexivity|].
  destruct (c =? 12) eqn:E4; [apply N.eqb_eq in E4 as ->; reflexivity|].
  destruct (c =? 10) eqn:E5; [apply N.eqb_eq in E5 as ->; reflexivity|].
  destruct (c =? 13) eqn:E6; [apply N.eqb_eq in E6 as ->; reflexivity|].
  destruct (c =? 9) eqn:E7; [apply N.eqb_eq in E7 as ->; reflexivity|].
  destruct ((32 <=? c) && (c <=? 126)) eqn:E8.
  - apply andb_true_iff in E8 as [Hge _]. apply N.leb_le in Hge.
    cbn [app scanstring]. rewrite E2, E1.
    replace (c <? 32) with false by (symmetry; apply N.ltb_ge; lia). done.
  - destruct (c <? 65536) eqn:E9.
    + apply N.ltb_lt in E9. by apply scanstring_bmp_escape.
    + apply N.ltb_ge in E9. rewrite <- !app_assoc. by apply scanstring_pair_escape.
Qed.

Lemma surrogate_ranges_disjoint (c : N) :
  is_high_surrogate c = true -> is_low_surrogate c = false.
Proof.
  unfold is_high_surrogate, is_low_surrogate. intros Hh.
  apply andb_true_iff in Hh as [_ Hle]. apply N.leb_le in Hle.
  apply andb_false_iff. left. apply N.leb_gt. lia.
Qed.

Lemma low_escape_ahead_escape_char (c : N) (T : pystr) :
  c < 1114112 ->
  is_low_surrogate c = false ->
  low_escape_ahead (escape_char c ++ T) = false.
Proof.
  intros Hc Hlow. unfold escape_char.
  destruct (c =? 92) eqn:E1; [reflexivity|].
  destruct (c =? 34) eqn:E2; [reflexivity|].
  destruct (c =? 8) eqn:E3; [reflexivity|].
  destruct (c =? 12) eqn:E4; [reflexivity|].
  destruct (c =? 10) eqn:E5; [reflexivity|].
  destruct (c =? 13) eqn:E6; [reflexivity|].
  destruct (c =? 9) eqn:E7; [reflexivity|].
  destruct ((32 <=? c) && (c <=? 126)) eqn:E8.
  - cbn [app]. destruct T as [|v T]; [done|]. cbn [low_escape_ahead]. by rewrite E1.
  - destruct (c <? 65536) eqn:E9.
    + apply N.ltb_lt in E9.
      change (low_escape_ahead ((u "\u" ++ hex4 c) ++ T)) with
        (match hex4val (hexdigit (N.land (N.shiftr c 12) 15))
                 (hexdigit (N.land (N.shiftr c 8) 15))
                 (hexdigit (N.land (N.shiftr c 4) 15)) (hexdigit (N.land c 15)) with
         | Some uni2 => is_low_surrogate uni2
         | None => true
         end).
      by rewrite hex4val_hex4.
    + apply N.ltb_ge in E9.
      destruct (surrogates_spec c E9 Hc) as (H1 & _ & Hhigh & _).
      set (s1 := N.lor 55296 _) in *. set (s2 := N.lor 56320 _) in *.
      change (low_escape_ahead ((u "\u" ++ hex4 s1 ++ u "\u" ++ hex4 s2) ++ T)) with
        (match hex4val (hexdigit (N.land (N.shiftr s1 12) 15))
                 (hexdigit (N.land (N.shiftr s1 8) 15))
                 (hexdigit (N.land (N.shiftr s1 4) 15)) (hexdigit (N.land s1 15)) with
         | Some uni2 => is_low_surrogate uni2
         | None => true
         end).
      rewrite hex4val_hex4 by done. by apply surrogate_ranges_disjoint.
Qed.

(** The decoder reads the body of an encoded string, up to the closing
    quote, as the string that was encoded. *)
Lemma scanstring_escaped (s rest : pystr) :
  plain_str s ->
  scanstring (concat (map escape_char s) ++ 34 :: rest) = Some (s, rest).
Proof.
  intros [Hrange Hpairs]. induction s as [|c s IH]; [reflexivity|].
  apply Forall_cons in Hrange as [Hc Hrange].
  cbn [no_surrogate_pair] in Hpairs. apply andb_true_iff in Hpairs as [Hpair Hpairs].
  cbn [map concat]. rewrite <- app_assoc.
  rewrite scanstring_escape_char; [by rewrite IH|done|].
  destruct s as [|c2 s].
  - right. cbn [map concat app]. by destruct rest.
  - apply negb_true_iff, andb_false_iff in Hpair as [Hh|Hl]; [by left|right].
    cbn [map concat]. rewrite <- app_assoc. apply low_escape_ahead_escape_char; [|done].
    by apply Forall_cons in Hrange as [? _].
Qed.

Lemma scan_once_str `{PyRuntime} pc (n : nat) (s rest : pystr) :
  plain_str s ->
  scan_once pc (S n) (encode_basestring_ascii s ++ rest) = Some (PyStr s, rest).
Proof.
  intros Hs. unfold encode_basestring_ascii. rewrite <- !app_assoc.
  cbn [app]. destruct n; cbn [scan_once]; change (34 =? 34) with true; cbv iota;
    by rewrite (scanstring_escaped s rest Hs).
Qed.

(** *** The equations of the decoder *)

Lemma scan_once_eq `{PyRuntime} pc (n : nat) (s : pystr) :
  scan_once pc (S n) s
  = match s with
    | [] => None
    | c :: s1 =>
        if c =? 34 then '(str, r) ← scanstring s1; Some (PyStr str, r)
        else if c =? 123 then
          match skip_ws s1 with
          | c' :: r =>
              if c' =? 125 then Some (PyDict [], r)
              else '(pairs, r') ← object_members pc n (c' :: r);
                   Some (PyDict (dict_of_pairs pairs), r')
          | [] => None
          end
        else if c =? 91 then
          match skip_ws s1 with
          | c' :: r =>
              if c' =? 93 then Some (PyList [], r)
              else '(values, r') ← array_items pc n (c' :: r); Some (PyList values, r')
          | [] => None
          end
        else
          match strip_prefix (u "null") s, strip_prefix (u "true") s,
                strip_prefix (u "false") s with
          | Some r, _, _ => Some (PyNone, r)
          | _, Some r, _ => Some (PyBool true, r)
          | _, _, Some r => Some (PyBool false, r)
          | _, _, _ =>
              match match_number s with
              | Some res => Some res
              | None => scan_constant pc s
              end
          end
    end.
Proof. reflexivity. Qed.

Lemma array_items_eq `{PyRuntime} pc (n : nat) (s : pystr) :
  array_items pc (S n) s
  = '(value, r) ← scan_once pc n s;
    match skip_ws r with
    | c :: r1 =>
        if c =? 93 then Some ([value], r1)
        else if c =? 44 then
          '(values, r2) ← array_items pc n (skip_ws r1); Some (value :: values, r2)
        else None
    | [] => None
    end.
Proof. reflexivity. Qed.

Lemma object_members_eq `{PyRuntime} pc (n : nat) (s : pystr) :
  object_members pc (S n) s
  = match s with
    | c :: s1 =>
        if c =? 34 then
          '(key, r) ← scanstring s1;
          match skip_ws r with
          | c1 :: r1 =>
              if c1 =? 58 then
                '(value, r2) ← scan_once pc n (skip_ws r1);
                match skip_ws r2 with
                | c2 :: r3 =>
                    if c2 =? 125 then Some ([(key, value)], r3)
                    else if c2 =? 44 then
                      '(pairs, r4) ← object_members pc n (skip_ws r3);
                      Some ((key, value) :: pairs, r4)
                    else None
                | [] => None
                end
              else None
          | [] => None
          end
        else None
    | [] => None
    end.
Proof. reflexivity. Qed.

(** *** Reading back a number *)

Lemma floatstr_finite `{PyRuntime} (x : float) :
  is_finite x = true -> floatstr x = float_repr x.
Proof.
  unfold is_finite, floatstr. intros Hx.
  apply andb_true_iff in Hx as [Hx Hninf]. apply andb_true_iff in Hx as [Hnan Hinf].
  rewrite Hnan. apply negb_true_iff in Hinf, Hninf. by rewrite Hinf, Hninf.
Qed.

Lemma scan_once_float `{PyRuntime} pc (n : nat) (s rest : pystr) :
  float_literal s = true ->
  ends_number rest = true ->
  scan_once pc (S n) (s ++ rest) = Some (PyFloat (float_of_str s), rest).
Proof.
  intros Hlit Hrest.
  destruct (float_literal_spec s Hlit) as (_ & (c & s' & -> & Hc) & i & f & e & Hg & Hs & Hfe).
  pose proof (number_groups_ext _ rest _ _ _ _ Hrest Hg) as Hext.
  change ([] ++ rest) with rest in Hext.
  assert (Hnum : match_number ((c :: s') ++ rest)
                 = Some (PyFloat (float_of_str (c :: s')), rest)).
  { unfold match_number. rewrite Hext. simpl. rewrite Hs.
    destruct Hfe as [[f0 ->]|[e0 ->]]; [done|]. by destruct f. }
  assert (Hclass : (c =? 34) = false /\ (c =? 123) = false /\ (c =? 91) = false
                   /\ (110 =? c) = false /\ (116 =? c) = false /\ (102 =? c) = false).
  { destruct Hc as [->|Hd]; [done|]. unfold is_digit in Hd.
    apply andb_true_iff in Hd as [Hlo Hhi]. apply N.leb_le in Hlo, Hhi.
    repeat split; apply N.eqb_neq; lia. }
  destruct Hclass as (H1 & H2 & H3 & H4 & H5 & H6).
  cbn [app]. rewrite scan_once_eq, H1, H2, H3.
  change (strip_prefix (u "null") (c :: s' ++ rest)) with
    (if 110 =? c then strip_prefix (u "ull") (s' ++ rest) else None).
  change (strip_prefix (u "true") (c :: s' ++ rest)) with
    (if 116 =? c then strip_prefix (u "rue") (s' ++ rest) else None).
  change (strip_prefix (u "false") (c :: s' ++ rest)) with
    (if 102 =? c then strip_prefix (u "alse") (s' ++ rest) else None).
  rewrite H4, H5, H6. change (c :: s' ++ rest) with ((c :: s') ++ rest). by rewrite Hnum.
Qed.

Lemma float_literal_solid (s rest : pystr) :
  float_literal s = true -> skip_ws (32 :: s ++ rest) = s ++ rest.
Proof.
  intros Hlit. destruct (float_literal_spec s Hlit) as (_ & (c & s' & -> & Hc) & _).
  cbn [skip_ws app]. change (is_ws 32) with true. cbv iota. cbn [skip_ws].
  assert (is_ws c = false) as ->; [|done].
  destruct Hc as [->|Hd]; [done|]. unfold is_digit in Hd.
  apply andb_true_iff in Hd as [Hlo Hhi]. apply N.leb_le in Hlo, Hhi.
  unfold is_ws. rewrite !orb_false_iff. repeat split; apply N.eqb_neq; lia.
Qed.

(** *** Reading back a segment *)

Lemma scan_once_object_open `{PyRuntime} pc (n : nat) (key X : pystr) :
  scan_once pc (S n) (123 :: 10 :: 32 :: 32 :: 32 :: 32 :: encode_basestring_ascii key ++ X)
  = '(pairs, r) ← object_members pc n (encode_basestring_ascii key ++ X);
    Some (PyDict (dict_of_pairs pairs), r).
Proof. rewrite scan_once_eq. reflexivity. Qed.

Lemma object_members_more `{PyRuntime} pc (n : nat) (key V key2 : pystr) (v : pyval)
    (R : pystr) :
  plain_str key ->
  skip_ws (32 :: V ++ 44 :: 10 :: 32 :: 32 :: 32 :: 32 :: encode_basestring_ascii key2 ++ R)
  = V ++ 44 :: 10 :: 32 :: 32 :: 32 :: 32 :: encode_basestring_ascii key2 ++ R ->
  scan_once pc n (V ++ 44 :: 10 :: 32 :: 32 :: 32 :: 32 :: encode_basestring_ascii key2 ++ R)
  = Some (v, 44 :: 10 :: 32 :: 32 :: 32 :: 32 :: encode_basestring_ascii key2 ++ R) ->
  object_members pc (S n)
    (encode_basestring_ascii key ++ 58 :: 32 :: V
       ++ 44 :: 10 :: 32 :: 32 :: 32 :: 32 :: encode_basestring_ascii key2 ++ R)
  = '(pairs, r) ← object_members pc n (encode_basestring_ascii key2 ++ R);
    Some ((key, v) :: pairs, r).
Proof.
  intros Hkey Hsolid Hv. rewrite object_members_eq.
  unfold encode_basestring_ascii at 1. rewrite <- !app_assoc.
  cbn [app]. change (34 =? 34) with true. cbv iota.
  rewrite (scanstring_escaped key _ Hkey). cbn [mbind option_bind skip_ws].
  change (is_ws 58) with false. cbv iota. change (58 =? 58) with true. cbv iota.
  rewrite Hsolid, Hv. reflexivity.
Qed.

Lemma object_members_last `{PyRuntime} pc (n : nat) (key V : pystr) (v : pyval) (R : pystr) :
  plain_str key ->
  skip_ws (32 :: V ++ 10 :: 32 :: 32 :: 125 :: R) = V ++ 10 :: 32 :: 32 :: 125 :: R ->
  scan_once pc n (V ++ 10 :: 32 :: 32 :: 125 :: R) = Some (v, 10 :: 32 :: 32 :: 125 :: R) ->
  object_members pc (S n)
    (encode_basestring_ascii key ++ 58 :: 32 :: V ++ 10 :: 32 :: 32 :: 125 :: R)
  = Some ([(key, v)], R).
Proof.
  intros Hkey Hsolid Hv. rewrite object_members_eq.
  unfold encode_basestring_ascii at 1. rewrite <- !app_assoc.
  cbn [app]. change (34 =? 34) with true. cbv iota.
  rewrite (scanstring_escaped key _ Hkey). cbn [mbind option_bind skip_ws].
  change (is_ws 58) with false. cbv iota. change (58 =? 58) with true. cbv iota.
  rewrite Hsolid, Hv. reflexivity.
Qed.

Lemma render_segment_shape `{PyRuntime} (t : Track) (rest : pystr) :
  render_segment t ++ rest
  = 123 :: 10 :: 32 :: 32 :: 32 :: 32 ::
      encode_basestring_ascii (u "start") ++ 58 :: 32 :: floatstr (seg_start (turn t))
      ++ 44 :: 10 :: 32 :: 32 :: 32 :: 32 ::
      encode_basestring_ascii (u "end") ++ 58 :: 32 :: floatstr (seg_end (turn t))
      ++ 44 :: 10 :: 32 :: 32 :: 32 :: 32 ::
      encode_basestring_ascii (u "speaker") ++ 58 :: 32 ::
      encode_basestring_ascii (u "SPEAKER_" ++ speaker t)
      ++ 10 :: 32 :: 32 :: 125 :: rest.
Proof.
  unfold render_segment, quoted, encode_basestring_ascii.
  change (u "start") with [115; 116; 97; 114; 116].
  change (u "end") with [101; 110; 100].
  change (u "speaker") with [115; 112; 101; 97; 107; 101; 114].
  change (u "  ") with [32; 32]. change (u "    ") with [32; 32; 32; 32].
  change (u "{") with [123]. change (u "}") with [125].
  change (u ",") with [44]. change (u ": ") with [58; 32].
  cbn [map escape_char concat app].
  repeat (rewrite <- ?app_assoc; cbn [app]). reflexivity.
Qed.

Lemma plain_str_literal (s : string) :
  bool_decide (Forall (fun c => c < 1114112) (u s)) && no_surrogate_pair (u s) = true ->
  plain_str (u s).
Proof.
  intros Hb. apply andb_true_iff in Hb as [Hr Hp]. split; [|done].
  by apply bool_decide_eq_true in Hr.
Qed.

Lemma plain_str_app (a b : pystr) :
  plain_str a -> plain_str b ->
  (forall c, last a = Some c -> is_high_surrogate c = false) ->
  plain_str (a ++ b).
Proof.
  intros [Ha1 Ha2] [Hb1 Hb2] Hlast. split; [by apply Forall_app|].
  induction a as [|c a IH]; [done|].
  apply Forall_cons in Ha1 as [_ Ha1]. cbn [no_surrogate_pair] in Ha2.
  apply andb_true_iff in Ha2 as [Hc Ha2].
  cbn [app no_surrogate_pair]. apply andb_true_iff. split.
  - destruct a as [|c2 a]; [|done]. cbn [app]. destruct b as [|c2 b]; [done|].
    by rewrite (Hlast c eq_refl).
  - apply IH; [done|done|]. intros c' Hc'. apply Hlast.
    destruct a; [done|]. done.
Qed.

Lemma plain_str_speaker (label : pystr) :
  plain_str label -> plain_str (u "SPEAKER_" ++ label).
Proof.
  intros Hl. apply plain_str_app; [by apply plain_str_literal|done|].
  intros c [= <-]. reflexivity.
Qed.

Lemma scan_once_segment `{PyRuntime} pc (n : nat) (t : Track) (rest : pystr) :
  readable t ->
  scan_once pc (5 + n) (render_segment t ++ rest) = Some (segment_dict t, rest).
Proof.
  intros ((Hs1 & Hs2 & Hs3) & (He1 & He2 & He3) & Hlabel).
  rewrite render_segment_shape.
  rewrite (floatstr_finite _ Hs1), (floatstr_finite _ He1).
  change (5 + n)%nat with (S (S (S (S (S n))))).
  rewrite scan_once_object_open.
  rewrite (object_members_more pc _ _ _ _ (PyFloat (seg_start (turn t)))).
  2: by apply plain_str_literal.
  2: by apply float_literal_solid.
  2: { rewrite scan_once_float by done. by rewrite Hs3. }
  rewrite (object_members_more pc _ _ _ _ (PyFloat (seg_end (turn t)))).
  2: by apply plain_str_literal.
  2: by apply float_literal_solid.
  2: { rewrite scan_once_float by done. by rewrite He3. }
  rewrite (object_members_last pc _ _ _ (PyStr (u "SPEAKER_" ++ speaker t))).
  2: by apply plain_str_literal.
  2: reflexivity.
  2: { apply scan_once_str. by apply plain_str_speaker. }
  reflexivity.
Qed.

(** *** Reading back the whole file *)

Lemma render_segment_head `{PyRuntime} (t : Track) :
  exists body, render_segment t = 123 :: body.
Proof. by eexists. Qed.

Lemma join_head `{PyRuntime} (t : Track) (ts : list Track) (rest : pystr) :
  exists body,
    join (u "," ++ [10] ++ u "  ") (map render_segment (t :: ts)) ++ rest = 123 :: body.
Proof. destruct ts; by eexists. Qed.

Lemma array_items_segments `{PyRuntime} pc (n : nat) (tracks : list Track) (rest : pystr) :
  tracks <> [] ->
  Forall readable tracks ->
  array_items pc (length tracks + 5 + n)
    (join (u "," ++ [10] ++ u "  ") (map render_segment tracks) ++ 10 :: 93 :: rest)
  = Some (map segment_dict tracks, rest).
Proof.
  intros Hne Hall. induction tracks as [|t ts IH]; [done|].
  apply Forall_cons in Hall as [Ht Hts].
  change (length (t :: ts) + 5 + n)%nat with (S (length ts + 5 + n)).
  rewrite array_items_eq. destruct ts as [|t2 ts].
  - cbn [map join length]. change (0 + 5 + n)%nat with (5 + n)%nat.
    rewrite scan_once_segment by done. reflexivity.
  - destruct (join_head t2 ts (10 :: 93 :: rest)) as [body Hbody].
    change (join (u "," ++ [10] ++ u "  ") (map render_segment (t :: t2 :: ts)))
      with (render_segment t ++ (u "," ++ [10] ++ u "  ")
            ++ join (u "," ++ [10] ++ u "  ") (map render_segment (t2 :: ts))).
    rewrite <- (app_assoc (render_segment t)).
    change (((u "," ++ [10] ++ u "  ")
             ++ join (u "," ++ [10] ++ u "  ") (map render_segment (t2 :: ts)))
            ++ 10 :: 93 :: rest)
      with (44 :: 10 :: 32 :: 32
            :: (join (u "," ++ [10] ++ u "  ") (map render_segment (t2 :: ts))
                ++ 10 :: 93 :: rest)).
    replace (length (t2 :: ts) + 5 + n)%nat with (5 + (length (t2 :: ts) + n))%nat by lia.
    rewrite scan_once_segment by done.
    rewrite Hbody. cbn [mbind option_bind skip_ws].
    change (is_ws 44) with false. cbv iota.
    change (44 =? 93) with false. change (44 =? 44) with true. cbv iota.
    cbn [skip_ws]. change (is_ws 10) with true. change (is_ws 32) with true.
    change (is_ws 123) with false. cbv iota.
    rewrite <- Hbody.
    replace (5 + (length (t2 :: ts) + n))%nat with (length (t2 :: ts) + 5 + n)%nat by lia.
    rewrite IH by done. reflexivity.
Qed.

Lemma json_loads_fuel_layout `{PyRuntime} pc (n : nat) (tracks : list Track) :
  Forall readable tracks ->
  json_loads_fuel pc (length tracks + 6 + n) (layout tracks)
  = Some (PyList (map segment_dict tracks)).
Proof.
  intros Hall. unfold json_loads_fuel, layout. destruct tracks as [|t ts].
  - reflexivity.
  - destruct (join_head t ts (10 :: 93 :: [])) as [body Hbody].
    change (u "[" ++ [10] ++ u "  "
            ++ join (u "," ++ [10] ++ u "  ") (map render_segment (t :: ts)) ++ [10] ++ u "]")
      with (91 :: 10 :: 32 :: 32
            :: join (u "," ++ [10] ++ u "  ") (map render_segment (t :: ts)) ++ 10 :: 93 :: []).
    cbn [skip_ws]. change (is_ws 91) with false. cbv iota.
    replace (length (t :: ts) + 6 + n)%nat with (S (length (t :: ts) + 5 + n)) by lia.
    rewrite scan_once_eq. change (91 =? 34) with false. change (91 =? 123) with false.
    change (91 =? 91) with true. cbv iota.
    cbn [skip_ws]. change (is_ws 10) with true. change (is_ws 32) with true. cbv iota.
    rewrite Hbody. cbn [skip_ws]. change (is_ws 123) with false. cbv iota.
    change (123 =? 93) with false. cbv iota. rewrite <- Hbody.
    rewrite array_items_segments by done. reflexivity.
Qed.

Lemma join_length (sep : pystr) (parts : list pystr) :
  Forall (fun p => 1 <= length p)%nat parts -> (length parts <= length (join sep parts))%nat.
Proof.
  induction parts as [|p ps IH]; [done|]. intros Hall.
  apply Forall_cons in Hall as [Hp Hps]. specialize (IH Hps).
  destruct ps as [|p2 ps]; [simpl in *; lia|].
  change (join sep (p :: p2 :: ps)) with (p ++ sep ++ join sep (p2 :: ps)).
  rewrite !length_app. simpl in *. lia.
Qed.

Lemma layout_length `{PyRuntime} (tracks : list Track) :
  (2 + length tracks <= length (layout tracks))%nat.
Proof.
  unfold layout. destruct tracks as [|t ts]; [done|].
  rewrite !length_app.
  assert (length (t :: ts)
          <= length (join (u "," ++ [10%N] ++ u "  ") (map render_segment (t :: ts))))%nat.
  { rewrite <- (length_map render_segment (t :: ts)) at 1. apply join_length.
    apply Forall_forall. intros p Hp. apply list_elem_of_fmap in Hp as (t' & -> & _).
    destruct (render_segment_head t') as [body ->]. simpl. lia. }
  simpl in *. lia.
Qed.

Lemma json_loads_layout `{PyRuntime} pc (tracks : list Track) :
  Forall readable tracks ->
  json_loads pc (layout tracks) = Some (PyList (map segment_dict tracks)).
Proof.
  intros Hall. unfold json_loads. pose proof (layout_length tracks) as Hlen.
  replace (2 * length (layout tracks) + 2)%nat
    with (length tracks + 6 + (2 * length (layout tracks) - length tracks - 4))%nat by lia.
  by apply json_loads_fuel_layout.
Qed.

(** The text of a list of readable tracks is a JSON text, and the decoder
    reads it back as the list of their segments. *)
Lemma dumps_readable `{PyRuntime} (tracks : list Track) :
  Forall readable tracks ->
  valid_json (json_dumps (PyList (collect_segments tracks)))
  /\ forall pc, json_loads pc (json_dumps (PyList (collect_segments tracks)))
                = Some (PyList (collect_segments tracks)).
Proof.
  intros Hall. rewrite json_dumps_layout, collect_segments_map. split.
  - exists (length tracks + 6 + 0)%nat, (PyList (map segment_dict tracks)).
    by apply json_loads_fuel_layout.
  - intros pc. by apply json_loads_layout.
Qed.

(** C6, as stated, fails: a track whose interval is a NaN is written as the
    token [NaN], which no JSON decoder without [parse_constant] accepts,
    whatever the run-time prints for finite numbers. *)
Lemma C6_nan_is_not_json :
  ~ exists R : PyRuntime,
      @valid_json R (@json_dumps R (PyList (collect_segments nan_tracks))).
Proof.
  intros (R & n & v & Hv).
  destruct n as [|[|[|[|[|n]]]]]; vm_compute in Hv; discriminate.
Qed.

(** C6, amended: when every timestamp is finite and survives
    [float(repr(x))], and no label holds a surrogate pair, the text of a
    completed run is a JSON text and [json.load] reads it back as the list of
    segments that was serialized. *)
Theorem C6_roundtrip `{Pyannote} `{PyRuntime}
    (audio_file output_file : pystr) (h : Host) (p : Pipeline) (d : Annotation)
    (tracks : list Track) :
  from_pretrained MODEL (environ h !! TOKEN) = inr p ->
  apply_pipeline p audio_file = inr d ->
  itertracks d = (tracks, None) ->
  result (diarize_audio audio_file output_file h) = inr tt ->
  Forall readable tracks ->
  exists text : pystr,
    files (host_after (diarize_audio audio_file output_file h)) !! output_file = Some text
    /\ valid_json text
    /\ json_loads python_constants text = Some (PyList (collect_segments tracks))
    /\ json_loads no_constants text = Some (PyList (collect_segments tracks)).
Proof.
  intros Hp Hd Ht Hres Hall.
  destruct (completed_run _ _ _ p d tracks Hp Hd Ht Hres) as (_ & _ & Hfiles & _).
  destruct (dumps_readable tracks Hall) as [Hvalid Hloads].
  exists (json_dumps (PyList (collect_segments tracks))).
  rewrite Hfiles, lookup_insert_eq. by rewrite !Hloads.
Qed.

Lemma example_tracks_readable : Forall (@readable example_runtime) example_tracks.
Proof.
  repeat constructor; try reflexivity; apply bool_decide_unpack; vm_compute; exact I.
Qed.

Lemma C6_roundtrip_witness :
  exists text : pystr,
    files (host_after (@diarize_audio (stub_pipeline example_tracks) example_runtime
                         (u "a.wav") (u "out.json") empty_host)) !! u "out.json"
    = Some text
    /\ @json_loads example_runtime python_constants text
       = Some (PyList (collect_segments example_tracks)).
Proof.
  destruct (@C6_roundtrip (stub_pipeline example_tracks) example_runtime
              (u "a.wav") (u "out.json") empty_host tt tt example_tracks
              eq_refl eq_refl eq_refl eq_refl example_tracks_readable)
    as (text & Hfile & _ & Hloads & _).
  exists text. by split.
Defined.

(** *** The decoder and the lexer

    Whatever the decoder accepts is balanced for the lexer: a value leaves
    the lexer where it was. *)

Lemma lex_run_app (st : lex) (a b : pystr) :
  lex_run st (a ++ b) = lex_run (lex_run st a) b.
Proof. apply fold_left_app. Qed.

Lemma eats_refl (f : Z -> lex) (s : pystr) : eats f f s s.
Proof. by exists []. Qed.

Lemma eats_trans (f g k : Z -> lex) (s r r' : pystr) :
  eats f g s r -> eats g k r r' -> eats f k s r'.
Proof.
  intros (c1 & -> & H1) (c2 & -> & H2). exists (c1 ++ c2). split; [by rewrite app_assoc|].
  intros d. by rewrite lex_run_app, H1, H2.
Qed.

Lemma eats_char (f g : Z -> lex) (c : N) (r : pystr) :
  (forall d, lex_step (f d) c = g d) -> eats f g (c :: r) r.
Proof. intros Hc. exists [c]. split; [done|]. intros d. apply Hc. Qed.

Lemma eats_shift (f g : Z -> lex) (k : Z -> Z) (s r : pystr) :
  eats f g s r -> eats (fun d => f (k d)) (fun d => g (k d)) s r.
Proof. intros (c & -> & Hc). exists c. split; [done|]. intros d. apply Hc. Qed.

Lemma eats_ext (f g g' : Z -> lex) (s r : pystr) :
  (forall d, g d = g' d) -> eats f g s r -> eats f g' s r.
Proof. intros Hg (c & -> & Hc). exists c. split; [done|]. intros d. by rewrite Hc. Qed.

Lemma lex_step_inert (d : Z) (c : N) : inert c = true -> lex_step (Out d) c = Out d.
Proof.
  unfold inert, lex_step. intros Hc. apply negb_true_iff in Hc.
  repeat (apply orb_false_iff in Hc as [Hc ?]). by rewrite Hc, H, H0, H1, H2.
Qed.

Lemma lex_run_inert (d : Z) (s : pystr) :
  Forall (fun c => inert c = true) s -> lex_run (Out d) s = Out d.
Proof.
  induction 1 as [|c s Hc _ IH]; [done|].
  change (lex_run (Out d) (c :: s)) with (lex_run (lex_step (Out d) c) s).
  by rewrite lex_step_inert.
Qed.

Lemma eats_inert (c r : pystr) :
  Forall (fun x => inert x = true) c -> eats Out Out (c ++ r) r.
Proof. intros Hc. exists c. split; [done|]. intros d. by apply lex_run_inert. Qed.

Lemma eats_skip_ws (s : pystr) : eats Out Out s (skip_ws s).
Proof.
  induction s as [|c s IH]; [apply eats_refl|]. simpl.
  destruct (is_ws c) eqn:Hc; [|apply eats_refl].
  eapply eats_trans; [|exact IH]. apply eats_char. intros d. apply lex_step_inert.
  unfold is_ws in Hc. unfold inert.
  repeat (apply orb_true_iff in Hc as [Hc|Hc]); apply N.eqb_eq in Hc as ->; reflexivity.
Qed.

Lemma numchar_inert (c : N) : numchar c = true -> inert c = true.
Proof.
  unfold numchar, is_digit, inert. intros Hc.
  repeat (apply orb_true_iff in Hc as [Hc|Hc]);
    try (apply N.eqb_eq in Hc as ->; reflexivity).
  apply andb_true_iff in Hc as [Hlo Hhi]. apply N.leb_le in Hlo, Hhi.
  apply negb_true_iff. rewrite !orb_false_iff. repeat split; apply N.eqb_neq; lia.
Qed.

Lemma strip_prefix_spec (lit s r : pystr) :
  strip_prefix lit s = Some r -> s = lit ++ r.
Proof.
  revert s. induction lit as [|a lit IH]; intros s; simpl.
  - by intros [= ->].
  - destruct s as [|b s]; [done|]. destruct (a =? b) eqn:Hab; [|done].
    apply N.eqb_eq in Hab as ->. intros Hs. by rewrite (IH _ Hs).
Qed.

Lemma eats_literal (lit : string) (s r : pystr) :
  forallb inert (u lit) = true ->
  strip_prefix (u lit) s = Some r -> eats Out Out s r.
Proof.
  intros Hlit Hs. rewrite (strip_prefix_spec _ _ _ Hs). apply eats_inert.
  apply Forall_forall. intros c Hc. rewrite forallb_forall in Hlit. apply Hlit.
  by apply list_elem_of_In.
Qed.

Lemma eats_number `{PyRuntime} (s r : pystr) (v : pyval) :
  match_number s = Some (v, r) -> eats Out Out s r.
Proof.
  unfold match_number.
  destruct (number_groups s) as [[[[i f] e] b]|] eqn:Hg; [|done]. simpl.
  destruct (number_groups_spec _ _ _ _ _ Hg) as (-> & Hall & _).
  intros Hv. assert (b = r) as -> by (destruct f, e; by inversion Hv).
  apply eats_inert. eapply Forall_impl; [exact Hall|]. exact numchar_inert.
Qed.

Lemma eats_constant `{PyRuntime} pc (s r : pystr) (v : pyval) :
  scan_constant pc s = Some (v, r) -> eats Out Out s r.
Proof.
  unfold scan_constant.
  destruct (strip_prefix (u "NaN") s) as [r1|] eqn:H1.
  { destruct (pc (u "NaN")); [|done]. intros [= <- <-]. by eapply (eats_literal "NaN"). }
  destruct (strip_prefix (u "Infinity") s) as [r2|] eqn:H2.
  { destruct (pc (u "Infinity")); [|done]. intros [= <- <-].
    by eapply (eats_literal "Infinity"). }
  destruct (strip_prefix (u "-Infinity") s) as [r3|] eqn:H3; [|done].
  destruct (pc (u "-Infinity")); [|done]. intros [= <- <-].
  by eapply (eats_literal "-Infinity").
Qed.

Lemma push_Some (c : N) (o : option (pystr * pystr)) (str r : pystr) :
  push c o = Some (str, r) -> exists str', o = Some (str', r).
Proof. destruct o as [[str' r']|]; [|done]. intros [= <- <-]. by eexists. Qed.

Lemma hexval_plain (h v : N) :
  hexval h = Some v -> forall d, lex_step (Str d) h = Str d.
Proof.
  unfold hexval, is_digit. intros Hh d.
  assert ((h =? 34) = false /\ (h =? 92) = false) as [H1 H2].
  { destruct ((48 <=? h) && (h <=? 57)) eqn:E1.
    { apply andb_true_iff in E1 as [Hlo Hhi]. apply N.leb_le in Hlo, Hhi.
      split; apply N.eqb_neq; lia. }
    destruct ((97 <=? h) && (h <=? 102)) eqn:E2.
    { apply andb_true_iff in E2 as [Hlo Hhi]. apply N.leb_le in Hlo, Hhi.
      split; apply N.eqb_neq; lia. }
    destruct ((65 <=? h) && (h <=? 70)) eqn:E3; [|done].
    apply andb_true_iff in E3 as [Hlo Hhi]. apply N.leb_le in Hlo, Hhi.
    split; apply N.eqb_neq; lia. }
  unfold lex_step. by rewrite H1, H2.
Qed.

Lemma eats_hex4 (h1 h2 h3 h4 uni : N) (r : pystr) :
  hex4val h1 h2 h3 h4 = Some uni ->
  eats Str Str (h1 :: h2 :: h3 :: h4 :: r) r.
Proof.
  unfold hex4val. intros Hh.
  destruct (hexval h1) as [a|] eqn:E1; [|done].
  destruct (hexval h2) as [b|] eqn:E2; [|done].
  destruct (hexval h3) as [c|] eqn:E3; [|done].
  destruct (hexval h4) as [d|] eqn:E4; [|done].
  eapply eats_trans; [apply eats_char, (hexval_plain _ _ E1)|].
  eapply eats_trans; [apply eats_char, (hexval_plain _ _ E2)|].
  eapply eats_trans; [apply eats_char, (hexval_plain _ _ E3)|].
  apply eats_char, (hexval_plain _ _ E4).
Qed.

Lemma eats_backslash_u (r : pystr) : eats Str Str (92 :: 117 :: r) r.
Proof. by exists [92; 117]. Qed.

(** The decoder reads a string up to the quote that closes it. *)
Lemma eats_scanstring (s str r : pystr) :
  scanstring s = Some (str, r) -> eats Str Out s r.
Proof.
  remember (length s) as k eqn:Hk. revert s str r Hk.
  induction k as [k IH] using lt_wf_ind. intros s str r Hk Hs.
  destruct s as [|c s1]; [done|]. cbn [scanstring] in Hs.
  destruct (c =? 34) eqn:E34.
  { apply N.eqb_eq in E34 as ->. inversion Hs; subst. by apply eats_char. }
  destruct (c =? 92) eqn:E92.
  - apply N.eqb_eq in E92 as ->. destruct s1 as [|e s2]; [done|].
    destruct (e =? 117) eqn:E117.
    + apply N.eqb_eq in E117 as ->.
      destruct s2 as [|h1 [|h2 [|h3 [|h4 s3]]]]; try done.
      destruct (hex4val h1 h2 h3 h4) as [uni|] eqn:Hhex; [|done].
      assert (Hlone : forall str', scanstring s3 = Some (str', r) ->
                eats Str Out (92 :: 117 :: h1 :: h2 :: h3 :: h4 :: s3) r).
      { intros str' Hs3.
        eapply eats_trans; [apply eats_backslash_u|].
        eapply eats_trans; [by eapply eats_hex4|].
        eapply (IH (length s3)); [simpl in Hk; lia|done|exact Hs3]. }
      destruct (is_high_surrogate uni).
      2: { apply push_Some in Hs as [str' Hs3]. by eapply Hlone. }
      destruct s3 as [|b [|v s4]].
      { apply push_Some in Hs as [str' Hs3]. by eapply Hlone. }
      { apply push_Some in Hs as [str' Hs3]. by eapply Hlone. }
      destruct ((b =? 92) && (v =? 117)) eqn:Ebv.
      2: { apply push_Some in Hs as [str' Hs3]. by eapply Hlone. }
      destruct s4 as [|l1 [|l2 [|l3 [|l4 s5]]]]; try done.
      destruct (hex4val l1 l2 l3 l4) as [uni2|] eqn:Hhex2; [|done].
      destruct (is_low_surrogate uni2).
      2: { apply push_Some in Hs as [str' Hs3]. by eapply Hlone. }
      apply push_Some in Hs as [str' Hs5].
      apply andb_true_iff in Ebv as [Eb Ev].
      apply N.eqb_eq in Eb as ->. apply N.eqb_eq in Ev as ->.
      eapply eats_trans; [apply eats_backslash_u|].
      eapply eats_trans; [by eapply eats_hex4|].
      eapply eats_trans; [apply eats_backslash_u|].
      eapply eats_trans; [by eapply eats_hex4|].
      eapply (IH (length s5)); [simpl in Hk; lia|done|exact Hs5].
    + destruct (backslash e) as [ch|]; [|done].
      apply push_Some in Hs as [str' Hs2].
      eapply eats_trans; [apply (eats_char Str (fun d => Esc d)); by intros d|].
      eapply eats_trans; [apply (eats_char (fun d => Esc d) Str); by intros d|].
      eapply (IH (length s2)); [simpl in Hk; lia|done|exact Hs2].
  - destruct (c <? 32); [done|].
    apply push_Some in Hs as [str' Hs1].
    eapply eats_trans.
    + apply (eats_char Str Str). intros d. unfold lex_step. by rewrite E34, E92.
    + eapply (IH (length s1)); [simpl in Hk; lia|done|exact Hs1].
Qed.

Lemma eats_close (c : N) (r : pystr) :
  (c =? 93) || (c =? 125) = true ->
  eats Out (fun d => Out (d - 1)) (c :: r) r.
Proof.
  intros Hc. apply eats_char. intros d.
  apply orb_true_iff in Hc as [Hc|Hc]; apply N.eqb_eq in Hc as ->; reflexivity.
Qed.

Lemma eats_open (c : N) (r : pystr) :
  (c =? 91) || (c =? 123) = true ->
  eats Out (fun d => Out (d + 1)) (c :: r) r.
Proof.
  intros Hc. apply eats_char. intros d.
  apply orb_true_iff in Hc as [Hc|Hc]; apply N.eqb_eq in Hc as ->; reflexivity.
Qed.

(** An opening character, then whitespace, then text that closes one level:
    a value. *)
Lemma eats_bracketed (c : N) (s1 r : pystr) :
  (c =? 91) || (c =? 123) = true ->
  eats Out (fun d => Out (d - 1)) (skip_ws s1) r ->
  eats Out Out (c :: s1) r.
Proof.
  intros Hc Hbody.
  eapply eats_trans; [by apply eats_open|].
  eapply eats_trans; [apply (eats_shift Out Out (fun d => d + 1)%Z), eats_skip_ws|].
  eapply eats_ext; [|apply (eats_shift Out (fun d => Out (d - 1)) (fun d => d + 1)%Z), Hbody].
  intros d. simpl. f_equal. lia.
Qed.

Lemma eats_after_value (r r' : pystr) (k : Z -> lex) :
  eats Out k (skip_ws r) r' -> eats Out k r r'.
Proof. intros Hr. eapply eats_trans; [apply eats_skip_ws|exact Hr]. Qed.

Lemma eats_comma (r : pystr) : eats Out Out (44 :: r) r.
Proof. by apply eats_char. Qed.

Lemma eats_colon (r : pystr) : eats Out Out (58 :: r) r.
Proof. by apply eats_char. Qed.

Lemma eats_quote (r : pystr) : eats Out Str (34 :: r) r.
Proof. by apply eats_char. Qed.

Section DecoderBalanced.
Context `{PyRuntime}.
Variable pc : pystr -> option pyval.

Lemma decoder_balanced (n : nat) :
  (forall s v r, scan_once pc n s = Some (v, r) -> eats Out Out s r)
  /\ (forall s vs r, array_items pc n s = Some (vs, r) ->
        eats Out (fun d => Out (d - 1)) s r)
  /\ (forall s ps r, object_members pc n s = Some (ps, r) ->
        eats Out (fun d => Out (d - 1)) s r).
Proof.
  induction n as [|n (IHv & IHa & IHo)]; [done|]. split; [|split].
  - intros s v r. rewrite scan_once_eq. destruct s as [|c s1]; [done|].
    destruct (c =? 34) eqn:E34.
    { apply N.eqb_eq in E34 as ->.
      destruct (scanstring s1) as [[str r0]|] eqn:Hstr; [|done]. intros [= <- <-].
      eapply eats_trans; [apply eats_quote|]. by eapply eats_scanstring. }
    destruct (c =? 123) eqn:E123.
    { destruct (skip_ws s1) as [|c' r0] eqn:Hws; [done|].
      destruct (c' =? 125) eqn:E125.
      - intros [= <- <-]. apply eats_bracketed; [by rewrite E123, orb_true_r|].
        rewrite Hws. apply eats_close. by rewrite E125, orb_true_r.
      - destruct (object_members pc n (c' :: r0)) as [[pairs r']|] eqn:Hobj; [|done].
        intros [= <- <-]. apply eats_bracketed; [by rewrite E123, orb_true_r|].
        rewrite Hws. by eapply IHo. }
    destruct (c =? 91) eqn:E91.
    { destruct (skip_ws s1) as [|c' r0] eqn:Hws; [done|].
      destruct (c' =? 93) eqn:E93.
      - intros [= <- <-]. apply eats_bracketed; [by rewrite E91|].
        rewrite Hws. apply eats_close. by rewrite E93.
      - destruct (array_items pc n (c' :: r0)) as [[values r']|] eqn:Harr; [|done].
        intros [= <- <-]. apply eats_bracketed; [by rewrite E91|].
        rewrite Hws. by eapply IHa. }
    destruct (strip_prefix (u "null") (c :: s1)) as [r1|] eqn:H1.
    { intros [= <- <-]. by eapply (eats_literal "null"). }
    destruct (strip_prefix (u "true") (c :: s1)) as [r2|] eqn:H2.
    { intros [= <- <-]. by eapply (eats_literal "true"). }
    destruct (strip_prefix (u "false") (c :: s1)) as [r3|] eqn:H3.
    { intros [= <- <-]. by eapply (eats_literal "false"). }
    destruct (match_number (c :: s1)) as [[v' r']|] eqn:Hnum.
    { intros [= <- <-]. by eapply eats_number. }
    intros Hc. by eapply eats_constant.
  - intros s vs r. rewrite array_items_eq.
    destruct (scan_once pc n s) as [[value r0]|] eqn:Hv; [|done]. simpl.
    pose proof (IHv _ _ _ Hv) as Hvalue.
    destruct (skip_ws r0) as [|c r1] eqn:Hws; [done|].
    destruct (c =? 93) eqn:E93.
    { intros [= <- <-]. eapply eats_trans; [exact Hvalue|].
      apply eats_after_value. rewrite Hws. apply eats_close. by rewrite E93. }
    destruct (c =? 44) eqn:E44; [|done]. apply N.eqb_eq in E44 as ->.
    destruct (array_items pc n (skip_ws r1)) as [[values r2]|] eqn:Harr; [|done].
    intros [= <- <-]. eapply eats_trans; [exact Hvalue|].
    apply eats_after_value. rewrite Hws.
    eapply eats_trans; [apply eats_comma|].
    apply eats_after_value. by eapply IHa.
  - intros s ps r. rewrite object_members_eq. destruct s as [|c s1]; [done|].
    destruct (c =? 34) eqn:E34; [|done]. apply N.eqb_eq in E34 as ->.
    destruct (scanstring s1) as [[key r0]|] eqn:Hkey; [|done]. simpl.
    destruct (skip_ws r0) as [|c1 r1] eqn:Hws0; [done|].
    destruct (c1 =? 58) eqn:E58; [|done]. apply N.eqb_eq in E58 as ->.
    destruct (scan_once pc n (skip_ws r1)) as [[value r2]|] eqn:Hv; [|done]. simpl.
    pose proof (IHv _ _ _ Hv) as Hvalue.
    assert (Hhead : eats Out Out (34 :: s1) r2).
    { eapply eats_trans; [apply eats_quote|].
      eapply eats_trans; [by eapply eats_scanstring|].
      apply eats_after_value. rewrite Hws0.
      eapply eats_trans; [apply eats_colon|].
      by apply eats_after_value. }
    destruct (skip_ws r2) as [|c2 r3] eqn:Hws2; [done|].
    destruct (c2 =? 125) eqn:E125.
    { intros [= <- <-]. eapply eats_trans; [exact Hhead|].
      apply eats_after_value. rewrite Hws2. apply eats_close. by rewrite E125, orb_true_r. }
    destruct (c2 =? 44) eqn:E44; [|done]. apply N.eqb_eq in E44 as ->.
    destruct (object_members pc n (skip_ws r3)) as [[pairs r4]|] eqn:Hobj; [|done].
    intros [= <- <-]. eapply eats_trans; [exact Hhead|].
    apply eats_after_value. rewrite Hws2.
    eapply eats_trans; [apply eats_comma|].
    apply eats_after_value. by eapply IHo.
Qed.

(** A text that the decoder accepts is not empty and leaves the lexer
    outside of every string, bracket and brace. *)
Lemma json_loads_balanced (n : nat) (s : pystr) (v : pyval) :
  json_loads_fuel pc n s = Some v -> s <> [] /\ lex_run (Out 0) s = Out 0%Z.
Proof.
  unfold json_loads_fuel.
  destruct (scan_once pc n (skip_ws s)) as [[obj r]|] eqn:Hv; [|done]. simpl.
  destruct (skip_ws r) as [|c r'] eqn:Hws; [|done]. intros _. split.
  - intros ->. simpl in Hv. by destruct n.
  - destruct (proj1 (decoder_balanced n) _ _ _ Hv) as (c1 & Hc1 & Hrun1).
    destruct (eats_skip_ws s) as (c0 & Hc0 & Hrun0).
    destruct (eats_skip_ws r) as (c2 & Hc2 & Hrun2).
    rewrite Hws, app_nil_r in Hc2. rewrite Hc0, Hc1, Hc2.
    by rewrite !lex_run_app, Hrun0, Hrun1, Hrun2.
Qed.
End DecoderBalanced.

(** *** The lexer on the text of the output file *)

Lemma stays_unclosed_app (st : lex) (a b : pystr) :
  stays_unclosed st (a ++ b) = stays_unclosed st a && stays_unclosed (lex_run st a) b.
Proof.
  revert st. induction a as [|c a IH]; intros st; [done|].
  cbn [app stays_unclosed]. rewrite IH.
  change (lex_run st (c :: a)) with (lex_run (lex_step st c) a). by rewrite andb_assoc.
Qed.

Lemma walk_nil (st : lex) : walk st [] st.
Proof. done. Qed.

Lemma walk_app (st st1 st2 : lex) (a b : pystr) :
  walk st a st1 -> walk st1 b st2 -> walk st (a ++ b) st2.
Proof.
  intros [Ha1 Ha2] [Hb1 Hb2]. split.
  - by rewrite stays_unclosed_app, Ha1, Ha2, Hb1.
  - by rewrite lex_run_app, Ha2, Hb2.
Qed.

Lemma walk_inert (d : Z) (s : pystr) :
  (0 < d)%Z -> Forall (fun c => inert c = true) s -> walk (Out d) s (Out d).
Proof.
  intros Hd. induction 1 as [|c s Hc _ IH]; [done|].
  apply (walk_app _ (Out d) _ [c] s); [|exact IH].
  split; cbn [stays_unclosed lex_run fold_left]; rewrite lex_step_inert by done; [|done].
  simpl. rewrite andb_true_r. by apply Z.ltb_lt.
Qed.

Lemma walk_prefix (st st' : lex) (s p : pystr) :
  walk st s st' -> p `prefix_of` s -> p <> [] -> unclosed (lex_run st p) = true.
Proof.
  intros [Hs _] [q ->] Hp. rewrite stays_unclosed_app in Hs.
  apply andb_true_iff in Hs as [Hs _]. clear q.
  revert st Hs. induction p as [|c p IH]; [done|]. intros st Hs.
  cbn [stays_unclosed] in Hs. apply andb_true_iff in Hs as [Hc Hs].
  change (lex_run st (c :: p)) with (lex_run (lex_step st c) p).
  destruct p as [|c2 p]; [done|]. by apply IH.
Qed.

Lemma hexdigit_plain (n : N) (d : Z) : lex_step (Str d) (hexdigit n) = Str d.
Proof.
  unfold hexdigit, lex_step. destruct (n <? 10) eqn:Hn.
  - apply N.ltb_lt in Hn.
    replace (48 + n =? 34) with false by (symmetry; apply N.eqb_neq; lia).
    by replace (48 + n =? 92) with false by (symmetry; apply N.eqb_neq; lia).
  - apply N.ltb_ge in Hn.
    replace (87 + n =? 34) with false by (symmetry; apply N.eqb_neq; lia).
    by replace (87 + n =? 92) with false by (symmetry; apply N.eqb_neq; lia).
Qed.

Lemma walk_hex4 (n : N) (d : Z) : walk (Str d) (hex4 n) (Str d).
Proof.
  unfold hex4. split; cbn [stays_unclosed lex_run fold_left]; by rewrite !hexdigit_plain.
Qed.

Lemma walk_backslash_u (d : Z) : walk (Str d) (u "\u") (Str d).
Proof. done. Qed.

Lemma walk_escape_char (c : N) (d : Z) : walk (Str d) (escape_char c) (Str d).
Proof.
  unfold escape_char.
  destruct (c =? 92) eqn:E1; [done|].
  destruct (c =? 34) eqn:E2; [done|].
  destruct (c =? 8); [done|]. destruct (c =? 12); [done|]. destruct (c =? 10); [done|].
  destruct (c =? 13); [done|]. destruct (c =? 9); [done|].
  destruct ((32 <=? c) && (c <=? 126)).
  - split; cbn [stays_unclosed lex_run fold_left lex_step]; by rewrite E2, E1.
  - destruct (c <? 65536).
    + apply walk_app with (Str d); [apply walk_backslash_u|apply walk_hex4].
    + apply walk_app with (Str d); [apply walk_backslash_u|].
      apply walk_app with (Str d); [apply walk_hex4|].
      apply walk_app with (Str d); [apply walk_backslash_u|apply walk_hex4].
Qed.

Lemma walk_escaped (s : pystr) (d : Z) : walk (Str d) (concat (map escape_char s)) (Str d).
Proof.
  induction s as [|c s IH]; [done|]. cbn [map concat].
  apply walk_app with (Str d); [apply walk_escape_char|exact IH].
Qed.

Lemma walk_encoded_string (s : pystr) (d : Z) :
  (0 < d)%Z -> walk (Out d) (encode_basestring_ascii s) (Out d).
Proof.
  intros Hd. unfold encode_basestring_ascii.
  apply walk_app with (Str d); [done|].
  apply walk_app with (Str d); [apply walk_escaped|].
  split; [|done]. simpl. rewrite andb_true_r. by apply Z.ltb_lt.
Qed.

(** What [floatstr] prints: a number literal or one of three tokens. *)
Lemma floatstr_cases `{PyRuntime} (x : float) :
  (is_finite x = true /\ floatstr x = float_repr x)
  \/ (is_finite x = false
      /\ (floatstr x = u "NaN" \/ floatstr x = u "Infinity" \/ floatstr x = u "-Infinity")).
Proof.
  unfold is_finite, floatstr.
  destruct (PrimFloat.eqb x x); simpl; [|by eauto].
  destruct (PrimFloat.eqb x infinity); simpl; [by eauto|].
  destruct (PrimFloat.eqb x neg_infinity); simpl; by eauto.
Qed.

Lemma floatstr_inert `{PyRuntime} (x : float) :
  float_repr_ok -> Forall (fun c => inert c = true) (floatstr x).
Proof.
  intros Hok. destruct (floatstr_cases x) as [[Hfin ->]|[_ [->|[->| ->]]]].
  - destruct (float_literal_spec _ (Hok x Hfin)) as [Hall _].
    eapply Forall_impl; [exact Hall|exact numchar_inert].
  - by repeat constructor.
  - by repeat constructor.
  - by repeat constructor.
Qed.

Lemma render_segment_pieces `{PyRuntime} (t : Track) :
  render_segment t
  = (123 :: 10 :: 32 :: 32 :: 32 :: 32 :: encode_basestring_ascii (u "start") ++ [58; 32])
    ++ floatstr (seg_start (turn t))
    ++ (44 :: 10 :: 32 :: 32 :: 32 :: 32 :: encode_basestring_ascii (u "end") ++ [58; 32])
    ++ floatstr (seg_end (turn t))
    ++ (44 :: 10 :: 32 :: 32 :: 32 :: 32 :: encode_basestring_ascii (u "speaker") ++ [58; 32])
    ++ encode_basestring_ascii (u "SPEAKER_" ++ speaker t)
    ++ [10; 32; 32; 125].
Proof.
  rewrite <- (app_nil_r (render_segment t)) at 1. rewrite render_segment_shape.
  unfold encode_basestring_ascii.
  change (u "start") with [115; 116; 97; 114; 116].
  change (u "end") with [101; 110; 100].
  change (u "speaker") with [115; 112; 101; 97; 107; 101; 114].
  cbn [map escape_char concat app].
  repeat (rewrite <- ?app_assoc; cbn [app]). reflexivity.
Qed.

Lemma walk_render_segment `{PyRuntime} (t : Track) :
  float_repr_ok -> walk (Out 1) (render_segment t) (Out 1).
Proof.
  intros Hok. rewrite render_segment_pieces.
  apply walk_app with (Out 2); [done|].
  apply walk_app with (Out 2); [apply walk_inert; [done|by apply floatstr_inert]|].
  apply walk_app with (Out 2); [done|].
  apply walk_app with (Out 2); [apply walk_inert; [done|by apply floatstr_inert]|].
  apply walk_app with (Out 2); [done|].
  apply walk_app with (Out 2); [by apply walk_encoded_string|].
  done.
Qed.

Lemma walk_join_segments `{PyRuntime} (tracks : list Track) :
  float_repr_ok ->
  walk (Out 1) (join (u "," ++ [10] ++ u "  ") (map render_segment tracks)) (Out 1).
Proof.
  intros Hok. induction tracks as [|t ts IH]; [done|].
  destruct ts as [|t2 ts]; [by apply walk_render_segment|].
  change (join (u "," ++ [10] ++ u "  ") (map render_segment (t :: t2 :: ts)))
    with (render_segment t ++ (u "," ++ [10] ++ u "  ")
          ++ join (u "," ++ [10] ++ u "  ") (map render_segment (t2 :: ts))).
  apply walk_app with (Out 1); [by apply walk_render_segment|].
  apply walk_app with (Out 1); [done|exact IH].
Qed.

(** The text of the output file is one opening bracket, a body inside of
    which the lexer is never closed, and the closing bracket. *)
Lemma layout_body `{PyRuntime} (tracks : list Track) :
  float_repr_ok ->
  exists body, layout tracks = body ++ [93] /\ walk (Out 0) body (Out 1).
Proof.
  intros Hok. unfold layout. destruct tracks as [|t ts].
  - by exists [91].
  - exists (u "[" ++ [10] ++ u "  "
            ++ join (u "," ++ [10] ++ u "  ") (map render_segment (t :: ts)) ++ [10]).
    split; [by rewrite <- !app_assoc|].
    apply walk_app with (Out 1); [done|].
    apply walk_app with (Out 1); [done|].
    apply walk_app with (Out 1); [done|].
    apply walk_app with (Out 1); [by apply walk_join_segments|done].
Qed.

(** No proper prefix of the text of the output file is accepted by the
    decoder, whatever [parse_constant] is. *)
Lemma layout_prefix_rejected `{PyRuntime} pc (n : nat) (tracks : list Track) (p : pystr) :
  float_repr_ok ->
  p `prefix_of` layout tracks ->
  p <> layout tracks ->
  json_loads_fuel pc n p = None.
Proof.
  intros Hok Hpre Hne.
  destruct (json_loads_fuel pc n p) as [v|] eqn:Hv; [|done]. exfalso.
  destruct (json_loads_balanced pc n p v Hv) as [Hnil Hrun].
  destruct (layout_body tracks Hok) as (body & Hbody & Hwalk).
  assert (Hpb : p `prefix_of` body).
  { rewrite Hbody in Hpre, Hne. destruct Hpre as [q Hq].
    destruct (decide (q = [])) as [->|Hq'].
    - rewrite app_nil_r in Hq. by subst.
    - destruct (exists_last Hq') as (q' & c & ->).
      rewrite app_assoc in Hq. apply app_inj_tail in Hq as [-> _]. by exists q'. }
  pose proof (walk_prefix _ _ _ _ Hwalk Hpb Hnil) as Hopen.
  by rewrite Hrun in Hopen.
Qed.

(** *** The text of the output file is ASCII *)

Lemma numchar_ascii (c : N) : numchar c = true -> c < 128.
Proof.
  unfold numchar, is_digit. intros Hc.
  repeat (apply orb_true_iff in Hc as [Hc|Hc]); try (apply N.eqb_eq in Hc as ->; done).
  apply andb_true_iff in Hc as [_ Hhi]. apply N.leb_le in Hhi. lia.
Qed.

Lemma floatstr_ascii `{PyRuntime} (x : float) :
  float_repr_ok -> Forall (fun c => c < 128) (floatstr x).
Proof.
  intros Hok. destruct (floatstr_cases x) as [[Hfin ->]|[_ [->|[->| ->]]]].
  - destruct (float_literal_spec _ (Hok x Hfin)) as [Hall _].
    eapply Forall_impl; [exact Hall|exact numchar_ascii].
  - by repeat constructor.
  - by repeat constructor.
  - by repeat constructor.
Qed.

Lemma hexdigit_ascii (x : N) : hexdigit (N.land x 15) < 128.
Proof.
  rewrite land_15. pose proof (N.mod_lt x 16). unfold hexdigit.
  destruct (x mod 16 <? 10); lia.
Qed.

Lemma hex4_ascii (n : N) : Forall (fun c => c < 128) (hex4 n).
Proof. unfold hex4. repeat constructor; apply hexdigit_ascii. Qed.

Lemma escape_char_ascii (c : N) : Forall (fun x => x < 128) (escape_char c).
Proof.
  unfold escape_char.
  destruct (c =? 92); [by repeat constructor|].
  destruct (c =? 34); [by repeat constructor|].
  destruct (c =? 8); [by repeat constructor|].
  destruct (c =? 12); [by repeat constructor|].
  destruct (c =? 10); [by repeat constructor|].
  destruct (c =? 13); [by repeat constructor|].
  destruct (c =? 9); [by repeat constructor|].
  destruct ((32 <=? c) && (c <=? 126)) eqn:E.
  - apply andb_true_iff in E as [_ Hhi]. apply N.leb_le in Hhi.
    constructor; [lia|constructor].
  - destruct (c <? 65536).
    + apply Forall_app. split; [by repeat constructor|apply hex4_ascii].
    + rewrite !Forall_app. repeat split; try apply hex4_ascii; by repeat constructor.
Qed.

Lemma encode_basestring_ascii_ascii (s : pystr) :
  Forall (fun c => c < 128) (encode_basestring_ascii s).
Proof.
  unfold encode_basestring_ascii. rewrite !Forall_app. split; [by repeat constructor|].
  split; [|by repeat constructor].
  induction s as [|c s IH]; [constructor|]. cbn [map concat].
  apply Forall_app. split; [apply escape_char_ascii|exact IH].
Qed.

Lemma render_segment_ascii `{PyRuntime} (t : Track) :
  float_repr_ok -> Forall (fun c => c < 128) (render_segment t).
Proof.
  intros Hok. rewrite render_segment_pieces. rewrite !Forall_app.
  repeat split; try (by apply floatstr_ascii); try apply encode_basestring_ascii_ascii;
    by repeat constructor.
Qed.

Lemma join_Forall (P : N -> Prop) (sep : pystr) (parts : list pystr) :
  Forall P sep -> Forall (Forall P) parts -> Forall P (join sep parts).
Proof.
  intros Hsep. induction 1 as [|p ps Hp Hps IH]; [constructor|].
  destruct ps as [|p2 ps]; [done|].
  change (join sep (p :: p2 :: ps)) with (p ++ sep ++ join sep (p2 :: ps)).
  rewrite !Forall_app. by repeat split.
Qed.

Lemma layout_ascii `{PyRuntime} (tracks : list Track) :
  float_repr_ok -> Forall (fun c => c < 128) (layout tracks).
Proof.
  intros Hok. unfold layout. destruct tracks as [|t ts]; [by repeat constructor|].
  rewrite !Forall_app. repeat split; try by repeat constructor.
  apply join_Forall; [by repeat constructor|].
  apply Forall_fmap, Forall_forall. intros t' _. by apply render_segment_ascii.
Qed.

(** *** What [json.load] reads in the output file, whatever the tracks *)

Lemma low_escape_ahead_inv (c2 : N) (T : pystr) :
  c2 < 1114112 ->
  low_escape_ahead (escape_char c2 ++ T) = true ->
  is_low_surrogate c2 = true /\ escape_char c2 = u "\u" ++ hex4 c2 /\ c2 < 65536.
Proof.
  intros Hc Hahead. destruct (is_low_surrogate c2) eqn:Hlow.
  - split; [done|]. unfold is_low_surrogate in Hlow.
    apply andb_true_iff in Hlow as [Hlo Hhi]. apply N.leb_le in Hlo, Hhi.
    unfold escape_char.
    repeat (match goal with
            | |- context [?a =? ?b] =>
                replace (a =? b) with false by (symmetry; apply N.eqb_neq; lia)
            end).
    replace (c2 <=? 126) with false by (symmetry; apply N.leb_gt; lia).
    rewrite andb_false_r.
    replace (c2 <? 65536) with true by (symmetry; apply N.ltb_lt; lia).
    split; [done|lia].
  - by rewrite low_escape_ahead_escape_char in Hahead.
Qed.

(** The decoder reads the body of every encoded string, up to the closing
    quote, as some string. *)
Lemma scanstring_escaped_some (s rest : pystr) :
  valid_str s ->
  exists s', scanstring (concat (map escape_char s) ++ 34 :: rest) = Some (s', rest).
Proof.
  remember (length s) as k eqn:Hk. revert s Hk.
  induction k as [k IH] using lt_wf_ind. intros s Hk Hvalid.
  destruct s as [|c s]; [by exists []|].
  apply Forall_cons in Hvalid as [Hc Hvalid].
  cbn [map concat]. rewrite <- app_assoc.
  set (T := concat (map escape_char s) ++ 34 :: rest).
  destruct (is_high_surrogate c) eqn:Hhigh; [destruct (low_escape_ahead T) eqn:Hahead|].
  - destruct s as [|c2 s].
    { subst T. cbn [map concat app] in Hahead. by destruct rest. }
    apply Forall_cons in Hvalid as [Hc2 Hvalid].
    subst T. cbn [map concat] in *. rewrite <- app_assoc in *.
    destruct (low_escape_ahead_inv _ _ Hc2 Hahead) as (Hlow & -> & Hc2').
    assert (Hc' : c < 65536).
    { unfold is_high_surrogate in Hhigh. apply andb_true_iff in Hhigh as [_ Hhi].
      apply N.leb_le in Hhi. lia. }
    assert (Hesc : escape_char c = u "\u" ++ hex4 c).
    { unfold is_high_surrogate in Hhigh. apply andb_true_iff in Hhigh as [Hlo Hhi].
      apply N.leb_le in Hlo, Hhi. unfold escape_char.
      repeat (match goal with
              | |- context [?a =? ?b] =>
                  replace (a =? b) with false by (symmetry; apply N.eqb_neq; lia)
              end).
      replace (c <=? 126) with false by (symmetry; apply N.leb_gt; lia).
      rewrite andb_false_r.
      by replace (c <? 65536) with true by (symmetry; apply N.ltb_lt; lia). }
    rewrite Hesc.
    destruct (IH (length s)) with (s := s) as [s' Hs']; [simpl in Hk; lia|done|done|].
    exists (join_surrogates c c2 :: s').
    change ((u "\u" ++ hex4 c) ++ (u "\u" ++ hex4 c2)
            ++ concat (map escape_char s) ++ 34 :: rest)
      with (92 :: 117 :: hexdigit (N.land (N.shiftr c 12) 15)
               :: hexdigit (N.land (N.shiftr c 8) 15)
               :: hexdigit (N.land (N.shiftr c 4) 15) :: hexdigit (N.land c 15)
               :: 92 :: 117 :: hexdigit (N.land (N.shiftr c2 12) 15)
               :: hexdigit (N.land (N.shiftr c2 8) 15)
               :: hexdigit (N.land (N.shiftr c2 4) 15) :: hexdigit (N.land c2 15)
               :: (concat (map escape_char s) ++ 34 :: rest)).
    rewrite scanstring_u, hex4val_hex4, Hhigh by done.
    change ((92 =? 92) && (117 =? 117)) with true. cbv iota.
    by rewrite hex4val_hex4, Hlow, Hs'.
  - destruct (IH (length s)) with (s := s) as [s' Hs']; [simpl in Hk; lia|done|done|].
    exists (c :: s'). rewrite scanstring_escape_char by auto. fold T in Hs'. by rewrite Hs'.
  - destruct (IH (length s)) with (s := s) as [s' Hs']; [simpl in Hk; lia|done|done|].
    exists (c :: s'). rewrite scanstring_escape_char by auto. fold T in Hs'. by rewrite Hs'.
Qed.

Lemma scan_once_speaker `{PyRuntime} pc (n : nat) (label rest : pystr) :
  valid_str label ->
  exists label',
    scan_once pc (S n) (encode_basestring_ascii (u "SPEAKER_" ++ label) ++ rest)
    = Some (PyStr (u "SPEAKER_" ++ label'), rest).
Proof.
  intros Hvalid. destruct (scanstring_escaped_some label rest Hvalid) as [label' Hl].
  exists label'. unfold encode_basestring_ascii.
  rewrite map_app, concat_app, <- !app_assoc.
  change (concat (map escape_char (u "SPEAKER_"))) with [83; 80; 69; 65; 75; 69; 82; 95].
  change (u "SPEAKER_") with [83; 80; 69; 65; 75; 69; 82; 95].
  cbn [app]. rewrite scan_once_eq. change (34 =? 34) with true. cbv iota.
  change (scanstring (83 :: 80 :: 69 :: 65 :: 75 :: 69 :: 82 :: 95
                        :: concat (map escape_char label) ++ 34 :: rest))
    with (push 83 (push 80 (push 69 (push 65 (push 75 (push 69 (push 82 (push 95
            (scanstring (concat (map escape_char label) ++ 34 :: rest)))))))))).
  by rewrite Hl.
Qed.

(** A number of the output file is read as a [float]: by every decoder
    when it is finite, by the decoder of [json.load] in any case. *)
Lemma scan_once_floatstr `{PyRuntime} pc (n : nat) (x : float) (rest : pystr) :
  float_repr_ok ->
  pc = python_constants \/ is_finite x = true ->
  skip_ws (32 :: floatstr x ++ 44 :: rest) = floatstr x ++ 44 :: rest
  /\ exists y, scan_once pc (S n) (floatstr x ++ 44 :: rest)
               = Some (PyFloat y, 44 :: rest).
Proof.
  intros Hok Hpc. destruct (floatstr_cases x) as [[Hfin ->]|[Hinf Hx]].
  - split; [by apply float_literal_solid, Hok|].
    eexists. by apply scan_once_float; [apply Hok|].
  - destruct Hpc as [->|Hfin]; [|congruence].
    destruct Hx as [->|[->| ->]];
      (split; [done|]; eexists; rewrite scan_once_eq; reflexivity).
Qed.

Lemma scan_once_segment_like `{PyRuntime} pc (n : nat) (t : Track) (rest : pystr) :
  float_repr_ok ->
  valid_str (speaker t) ->
  pc = python_constants \/ finite_track t ->
  exists v, segment_like v
            /\ scan_once pc (5 + n) (render_segment t ++ rest) = Some (v, rest).
Proof.
  intros Hok Hvalid Hpc.
  assert (Hstart : pc = python_constants \/ is_finite (seg_start (turn t)) = true)
    by (destruct Hpc as [?|[? ?]]; auto).
  assert (Hend : pc = python_constants \/ is_finite (seg_end (turn t)) = true)
    by (destruct Hpc as [?|[? ?]]; auto).
  rewrite render_segment_shape.
  change (5 + n)%nat with (S (S (S (S (S n))))).
  rewrite scan_once_object_open.
  match goal with
  | |- context [floatstr (seg_start (turn t)) ++ 44 :: ?R] =>
      destruct (scan_once_floatstr pc (S (S n)) (seg_start (turn t)) R Hok Hstart)
        as (Hs1 & s & Hs2)
  end.
  rewrite (object_members_more _ _ _ _ _ (PyFloat s)); [|by apply plain_str_literal|done|done].
  match goal with
  | |- context [floatstr (seg_end (turn t)) ++ 44 :: ?R] =>
      destruct (scan_once_floatstr pc (S n) (seg_end (turn t)) R Hok Hend)
        as (He1 & e & He2)
  end.
  rewrite (object_members_more _ _ _ _ _ (PyFloat e)); [|by apply plain_str_literal|done|done].
  destruct (scan_once_speaker pc n (speaker t) (10 :: 32 :: 32 :: 125 :: rest)
              Hvalid) as [label' Hl].
  rewrite (object_members_last _ _ _ _ (PyStr (u "SPEAKER_" ++ label')));
    [|by apply plain_str_literal|reflexivity|done].
  eexists. split; [|reflexivity]. by exists s, e, label'.
Qed.

Lemma array_items_segment_like `{PyRuntime} pc (n : nat) (tracks : list Track)
    (rest : pystr) :
  float_repr_ok ->
  tracks <> [] ->
  Forall (fun t => valid_str (speaker t)) tracks ->
  pc = python_constants \/ Forall finite_track tracks ->
  exists vs,
    length vs = length tracks
    /\ Forall segment_like vs
    /\ array_items pc (length tracks + 5 + n)
         (join (u "," ++ [10] ++ u "  ") (map render_segment tracks) ++ 10 :: 93 :: rest)
       = Some (vs, rest).
Proof.
  intros Hok Hne Hall Hpc. induction tracks as [|t ts IH]; [done|].
  apply Forall_cons in Hall as [Ht Hts].
  assert (Hpct : pc = python_constants \/ finite_track t)
    by (destruct Hpc as [?|Hfin]; [by left|right; by apply Forall_cons in Hfin as [? ?]]).
  assert (Hpcts : pc = python_constants \/ Forall finite_track ts)
    by (destruct Hpc as [?|Hfin]; [by left|right; by apply Forall_cons in Hfin as [? ?]]).
  change (length (t :: ts) + 5 + n)%nat with (S (length ts + 5 + n)).
  rewrite array_items_eq. destruct ts as [|t2 ts].
  - cbn [map join length]. change (0 + 5 + n)%nat with (5 + n)%nat.
    destruct (scan_once_segment_like pc n t (10 :: 93 :: rest) Hok Ht Hpct)
      as (v & Hv & ->).
    exists [v]. split; [done|]. split; [by constructor|reflexivity].
  - destruct (join_head t2 ts (10 :: 93 :: rest)) as [body Hbody].
    change (join (u "," ++ [10] ++ u "  ") (map render_segment (t :: t2 :: ts)))
      with (render_segment t ++ (u "," ++ [10] ++ u "  ")
            ++ join (u "," ++ [10] ++ u "  ") (map render_segment (t2 :: ts))).
    rewrite <- (app_assoc (render_segment t)).
    change (((u "," ++ [10] ++ u "  ")
             ++ join (u "," ++ [10] ++ u "  ") (map render_segment (t2 :: ts)))
            ++ 10 :: 93 :: rest)
      with (44 :: 10 :: 32 :: 32
            :: (join (u "," ++ [10] ++ u "  ") (map render_segment (t2 :: ts))
                ++ 10 :: 93 :: rest)).
    replace (length (t2 :: ts) + 5 + n)%nat with (5 + (length (t2 :: ts) + n))%nat by lia.
    match goal with
    | |- context [render_segment t ++ ?R] =>
        destruct (scan_once_segment_like pc (length (t2 :: ts) + n) t R Hok Ht Hpct)
          as (v & Hv & ->)
    end.
    rewrite Hbody. cbn [mbind option_bind skip_ws].
    change (is_ws 44) with false. cbv iota.
    change (44 =? 93) with false. change (44 =? 44) with true. cbv iota.
    cbn [skip_ws]. change (is_ws 10) with true. change (is_ws 32) with true.
    change (is_ws 123) with false. cbv iota.
    rewrite <- Hbody.
    replace (5 + (length (t2 :: ts) + n))%nat with (length (t2 :: ts) + 5 + n)%nat by lia.
    destruct IH as (vs & Hlen & Hlike & ->); [done|done|done|].
    exists (v :: vs). split; [simpl in *; lia|]. split; [by constructor|reflexivity].
Qed.

(** [json.load] reads the output file as a list of as many segment-like
    dictionaries as there are tracks; so does a decoder without
    [parse_constant] when the timestamps are finite. *)
Lemma json_loads_segment_like `{PyRuntime} pc (tracks : list Track) :
  float_repr_ok ->
  Forall (fun t => valid_str (speaker t)) tracks ->
  pc = python_constants \/ Forall finite_track tracks ->
  exists vs,
    length vs = length tracks
    /\ Forall segment_like vs
    /\ json_loads pc (layout tracks) = Some (PyList vs).
Proof.
  intros Hok Hall Hpc. unfold json_loads. pose proof (layout_length tracks) as Hlen.
  replace (2 * length (layout tracks) + 2)%nat
    with (length tracks + 6 + (2 * length (layout tracks) - length tracks - 4))%nat by lia.
  generalize (2 * length (layout tracks) - length tracks - 4)%nat. intros n.
  unfold json_loads_fuel, layout. destruct tracks as [|t ts].
  - by exists [].
  - destruct (join_head t ts (10 :: 93 :: [])) as [body Hbody].
    change (u "[" ++ [10] ++ u "  "
            ++ join (u "," ++ [10] ++ u "  ") (map render_segment (t :: ts)) ++ [10] ++ u "]")
      with (91 :: 10 :: 32 :: 32
            :: join (u "," ++ [10] ++ u "  ") (map render_segment (t :: ts)) ++ 10 :: 93 :: []).
    cbn [skip_ws]. change (is_ws 91) with false. cbv iota.
    replace (length (t :: ts) + 6 + n)%nat with (S (length (t :: ts) + 5 + n)) by lia.
    rewrite scan_once_eq. change (91 =? 34) with false. change (91 =? 123) with false.
    change (91 =? 91) with true. cbv iota.
    cbn [skip_ws]. change (is_ws 10) with true. change (is_ws 32) with true. cbv iota.
    rewrite Hbody. cbn [skip_ws]. change (is_ws 123) with false. cbv iota.
    change (123 =? 93) with false. cbv iota. rewrite <- Hbody.
    destruct (array_items_segment_like pc n (t :: ts) [] Hok) as (vs & Hl & Hlike & ->);
      [done|done|done|].
    by exists vs.
Qed.

(** *** The output file *)

Lemma example_runtime_ok : @float_repr_ok example_runtime.
Proof.
  intros x _. unfold float_repr, example_runtime.
  destruct (PrimFloat.eqb x 1.5); [reflexivity|].
  destruct (PrimFloat.eqb x 3.25); reflexivity.
Qed.

Lemma example_tracks_valid : Forall (fun t => valid_str (speaker t)) example_tracks.
Proof. repeat constructor. Qed.

Lemma example_tracks_finite : Forall finite_track example_tracks.
Proof. repeat constructor. Qed.

Lemma opened_prelude (audio_file : pystr) (tok : option pystr) :
  opened (prelude audio_file tok) = [].
Proof. unfold prelude. by destruct (not_ tok). Qed.

Lemma opened_app (a b : list event) : opened (a ++ b) = opened a ++ opened b.
Proof. unfold opened. apply omap_app. Qed.

Lemma opened_prints (texts : list pystr) : opened (Print <$> texts) = [].
Proof. by induction texts. Qed.

(** A finite timestamp is written as a JSON number. *)
Lemma floatstr_number `{PyRuntime} (x : float) :
  float_repr_ok -> is_finite x = true -> float_literal (floatstr x) = true.
Proof. intros Hok Hfin. rewrite floatstr_finite by done. by apply Hok. Qed.

(** No proper prefix of the text of the output file is a JSON text. *)
Lemma layout_take_rejected `{PyRuntime} (tracks : list Track) (k : nat) :
  float_repr_ok ->
  (k < length (layout tracks))%nat ->
  (forall pc n, json_loads_fuel pc n (take k (layout tracks)) = None)
  /\ ~ valid_json (take k (layout tracks)).
Proof.
  intros Hok Hlt.
  assert (Hrej : forall pc n, json_loads_fuel pc n (take k (layout tracks)) = None).
  { intros pc n. apply (layout_prefix_rejected pc n tracks); [done|apply prefix_take|].
    intros Heq. apply (f_equal length) in Heq. rewrite length_take in Heq. lia. }
  split; [done|]. intros (n & v & Hv). by rewrite Hrej in Hv.
Qed.

(** C7, as stated, fails: a run that completes on a track whose interval
    is a NaN leaves an output file that is not a JSON text, although the
    run-time prints every finite number as a JSON number. *)
Lemma C7_nan_file_is_not_json :
  @float_repr_ok example_runtime
  /\ result (@diarize_audio (stub_pipeline nan_tracks) example_runtime
               (u "a.wav") (u "out.json") empty_host) = inr tt
  /\ exists text : pystr,
       files (host_after (@diarize_audio (stub_pipeline nan_tracks) example_runtime
                            (u "a.wav") (u "out.json") empty_host)) !! u "out.json"
       = Some text
       /\ ~ @valid_json example_runtime text.
Proof.
  split; [exact example_runtime_ok|]. split; [reflexivity|].
  exists (@json_dumps example_runtime (PyList (collect_segments nan_tracks))). split.
  - destruct (@completed_run (stub_pipeline nan_tracks) example_runtime
                (u "a.wav") (u "out.json") empty_host tt tt nan_tracks
                eq_refl eq_refl eq_refl eq_refl)
      as (_ & _ & -> & _).
    apply lookup_insert_eq.
  - intros (n & v & Hv).
    destruct n as [|[|[|[|[|n]]]]]; vm_compute in Hv; discriminate.
Qed.

(** C7, amended: a run that completes on tracks with finite timestamps
    writes one file, the output file (created or replaced, every other file
    untouched, opened once); its content is the serialization of the list of
    segments, laid out with two spaces per level, in ASCII (hence UTF-8), and
    it is a JSON text; every element of the list is a dictionary with
    exactly the keys [start] and [end] (written as JSON numbers) and
    [speaker] (a string that starts with ["SPEAKER_"]), and that is also what
    a JSON decoder reads in the file: a list with nothing else around it. *)
Theorem C7_output_file `{Pyannote} `{PyRuntime}
    (audio_file output_file : pystr) (h : Host) (p : Pipeline) (d : Annotation)
    (tracks : list Track) :
  float_repr_ok ->
  Forall (fun t => valid_str (speaker t)) tracks ->
  Forall finite_track tracks ->
  from_pretrained MODEL (environ h !! TOKEN) = inr p ->
  apply_pipeline p audio_file = inr d ->
  itertracks d = (tracks, None) ->
  result (diarize_audio audio_file output_file h) = inr tt ->
  files (host_after (diarize_audio audio_file output_file h))
  = <[output_file := layout tracks]> (files h)
  /\ (forall path, path <> output_file ->
        files (host_after (diarize_audio audio_file output_file h)) !! path
        = files h !! path)
  /\ opened (trace (diarize_audio audio_file output_file h)) = [output_file]
  /\ layout tracks = json_dumps (PyList (map segment_dict tracks))
  /\ Forall (fun c => c < 128) (layout tracks)
  /\ valid_json (layout tracks)
  /\ Forall (fun t => float_literal (floatstr (seg_start (turn t))) = true
                      /\ float_literal (floatstr (seg_end (turn t))) = true) tracks
  /\ Forall segment_like (map segment_dict tracks)
  /\ (forall pc, exists vs,
        json_loads pc (layout tracks) = Some (PyList vs)
        /\ length vs = length tracks
        /\ Forall segment_like vs).
Proof.
  intros Hok Hvalid Hfinite Hp Hd Ht Hres.
  destruct (completed_run _ _ _ p d tracks Hp Hd Ht Hres) as (_ & _ & Hfiles & Htrace).
  rewrite Hfiles, Htrace, json_dumps_layout.
  split; [done|]. split; [|split; [|split; [|split; [|split; [|split; [|split]]]]]].
  - intros path Hne. by rewrite lookup_insert_ne.
  - rewrite !opened_app, opened_prelude. reflexivity.
  - by rewrite <- json_dumps_layout, collect_segments_map.
  - by apply layout_ascii.
  - destruct (json_loads_segment_like no_constants tracks Hok Hvalid (or_intror Hfinite))
      as (vs & _ & _ & Hloads).
    by eexists _, _.
  - eapply Forall_impl; [exact Hfinite|]. intros t [Hs He].
    split; by apply floatstr_number.
  - apply Forall_fmap, Forall_forall. intros t _. by eexists _, _, _.
  - intros pc.
    destruct (json_loads_segment_like pc tracks Hok Hvalid (or_intror Hfinite))
      as (vs & Hlen & Hlike & Hloads).
    by exists vs.
Qed.

Lemma C7_output_file_witness :
  files (host_after (@diarize_audio (stub_pipeline example_tracks) example_runtime
                       (u "a.wav") (u "out.json") full_host_unlimited))
  = {[ u "out.json" := @layout example_runtime example_tracks ]}
  /\ @valid_json example_runtime (@layout example_runtime example_tracks).
Proof.
  destruct (@C7_output_file (stub_pipeline example_tracks) example_runtime
              (u "a.wav") (u "out.json") full_host_unlimited tt tt example_tracks
              example_runtime_ok example_tracks_valid example_tracks_finite
              eq_refl eq_refl eq_refl eq_refl)
    as (Hfiles & _ & _ & _ & _ & Hjson & _).
  split; [|exact Hjson]. rewrite Hfiles. apply insert_singleton_eq.
Defined.

(** C3, as stated, fails: when the device runs out of space during the
    write, the run raises and the output file, which held ["old"], holds the
    first five characters of the new text. *)
Lemma C3_failed_write_truncates :
  result (@diarize_audio (stub_pipeline example_tracks) example_runtime
            (u "a.wav") (u "out.json") full_host) = inl (OSError (u "out.json"))
  /\ files full_host !! u "out.json" = Some (u "old")
  /\ files (host_after (@diarize_audio (stub_pipeline example_tracks) example_runtime
                          (u "a.wav") (u "out.json") full_host)) !! u "out.json"
     = Some ([91; 10; 32; 32; 123]).
Proof. vm_compute. done. Qed.

(** C3, amended, case by case. When the construction of the pipeline, the
    inference, the iteration over the tracks or the opening of the output
    file fails, the files are as they were (the output file absent or
    stale). When it is the write that fails, the device accepting [k]
    characters and the text being longer, the output file holds the first
    [k] characters of the serialization of the tracks that were collected,
    and that is not a JSON text. In every run the output file is opened only
    once the pipeline has returned and all the tracks have been collected.
    And a failed run that changed the files is one of two: the write failed
    as above, or the file was written in full and one of the two closing
    prints raised. *)
Theorem C3_failed_run `{Pyannote} `{PyRuntime} (audio_file output_file : pystr) (h : Host) :
  float_repr_ok ->
  (forall e,
     from_pretrained MODEL (environ h !! TOKEN) = inl e ->
     files (host_after (diarize_audio audio_file output_file h)) = files h)
  /\ (forall p e,
        from_pretrained MODEL (environ h !! TOKEN) = inr p ->
        apply_pipeline p audio_file = inl e ->
        files (host_after (diarize_audio audio_file output_file h)) = files h)
  /\ (forall p d tracks e,
        from_pretrained MODEL (environ h !! TOKEN) = inr p ->
        apply_pipeline p audio_file = inr d ->
        itertracks d = (tracks, Some e) ->
        files (host_after (diarize_audio audio_file output_file h)) = files h)
  /\ (forall p d tracks,
        from_pretrained MODEL (environ h !! TOKEN) = inr p ->
        apply_pipeline p audio_file = inr d ->
        itertracks d = (tracks, None) ->
        writable h output_file = false ->
        files (host_after (diarize_audio audio_file output_file h)) = files h)
  /\ (forall p d tracks k,
        from_pretrained MODEL (environ h !! TOKEN) = inr p ->
        apply_pipeline p audio_file = inr d ->
        itertracks d = (tracks, None) ->
        writable h output_file = true ->
        space h = Some k ->
        (k < length (layout tracks))%nat ->
        ~ valid_json (take k (layout tracks))
        /\ (forall pc n, json_loads_fuel pc n (take k (layout tracks)) = None)
        /\ (prints_return h (opening_lines audio_file (environ h !! TOKEN)) ->
            result (diarize_audio audio_file output_file h) = inl (OSError output_file)
            /\ files (host_after (diarize_audio audio_file output_file h))
               = <[output_file := take k (layout tracks)]> (files h)))
  /\ (opened (trace (diarize_audio audio_file output_file h)) <> [] ->
      exists p d tracks,
        from_pretrained MODEL (environ h !! TOKEN) = inr p
        /\ apply_pipeline p audio_file = inr d
        /\ itertracks d = (tracks, None))
  /\ (forall e,
        result (diarize_audio audio_file output_file h) = inl e ->
        files (host_after (diarize_audio audio_file output_file h)) = files h
        \/ exists p d tracks,
             from_pretrained MODEL (environ h !! TOKEN) = inr p
             /\ apply_pipeline p audio_file = inr d
             /\ itertracks d = (tracks, None)
             /\ writable h output_file = true
             /\ ((exists k,
                    space h = Some k
                    /\ (k < length (layout tracks))%nat
                    /\ e = OSError output_file
                    /\ files (host_after (diarize_audio audio_file output_file h))
                       = <[output_file := take k (layout tracks)]> (files h))
                 \/ (fits h (layout tracks)
                     /\ files (host_after (diarize_audio audio_file output_file h))
                        = <[output_file := layout tracks]> (files h)
                     /\ print_error (print_raises h)
                          (stdout h ++ opening_lines audio_file (environ h !! TOKEN))
                          (closing_lines output_file (length tracks)) = Some e))).
Proof.
  intros Hok.
  destruct (diarize_audio_cases audio_file output_file h) as
    [e Hraised|e Hprints He|p e Hprints Hp He|p d tracks e Hprints Hp Hd Ht
    |p d tracks Hprints Hp Hd Ht Hw|p d tracks k Hprints Hp Hd Ht Hw Hk Hlt
    |p d tracks e Hprints Hp Hd Ht Hw Hfit Hclosing
    |p d tracks Hprints Hp Hd Ht Hw Hfit Hclosing];
    cbn [result host_after trace files host_with];
    rewrite ?json_dumps_layout in *;
    (split; [try done; intros; congruence|]);
    (split; [try done; intros; congruence|]);
    (split; [try done; intros; congruence|]);
    (split; [try done; intros; congruence|]);
    (split;
     [intros p' d' tracks' k' Hp' Hd' Ht' Hw' Hk' Hlt';
      destruct (layout_take_rejected tracks' k' Hok Hlt') as [Hrej Hbad];
      split; [done|]; split; [done|]; intros Hprints'|]);
    try (stuck Hprints'); try congruence.
  - split; [by rewrite opened_prints|]. intros e' _. by left.
  - split; [by rewrite opened_prelude|]. intros e' _. by left.
  - split; [by rewrite opened_app, opened_prelude|]. intros e' _. by left.
  - split; [by rewrite opened_app, opened_prelude|]. intros e' _. by left.
  - split; [intros _; by exists p, d, tracks|]. intros e' _. by left.
  - assert (tracks' = tracks) as -> by congruence.
    assert (k' = k) as -> by congruence. done.
  - split; [intros _; by exists p, d, tracks|]. intros e' He'.
    right. exists p, d, tracks. do 4 (split; [done|]). left. exists k.
    do 2 (split; [done|]). split; [congruence|done].
  - assert (tracks' = tracks) as -> by congruence.
    exfalso. unfold fits in Hfit. rewrite Hk' in Hfit. lia.
  - split; [intros _; by exists p, d, tracks|]. intros e' He'.
    right. exists p, d, tracks. do 4 (split; [done|]). right.
    do 2 (split; [done|]). congruence.
  - assert (tracks' = tracks) as -> by congruence.
    exfalso. unfold fits in Hfit. rewrite Hk' in Hfit. lia.
  - split; [intros _; by exists p, d, tracks|]. intros e' He'. discriminate.
Qed.

Lemma C3_failed_run_witness :
  ~ @valid_json example_runtime (take 5 (@layout example_runtime example_tracks))
  /\ files (host_after (@diarize_audio (stub_pipeline example_tracks) example_runtime
                          (u "a.wav") (u "out.json") full_host))
     = <[ u "out.json" := take 5 (@layout example_runtime example_tracks) ]>
         (files full_host).
Proof.
  destruct (@C3_failed_run (stub_pipeline example_tracks) example_runtime
              (u "a.wav") (u "out.json") full_host example_runtime_ok)
    as (_ & _ & _ & _ & Hwrite & _).
  destruct (Hwrite tt tt example_tracks 5%nat eq_refl eq_refl eq_refl eq_refl eq_refl)
    as (Hbad & _ & Hrun); [vm_compute; lia|].
  split; [exact Hbad|]. exact (proj2 (Hrun eq_refl)).
Defined.

(** C2: when the pipeline yields N tracks and the run completes, the output
    file holds the serialization of a list of exactly N segments, and
    [json.load] reads it as a list of exactly N elements; in both, every
    element has a [speaker] string that starts with ["SPEAKER_"]. *)
Theorem C2_as_many_segments_as_tracks `{Pyannote} `{PyRuntime}
    (audio_file output_file : pystr) (h : Host) (p : Pipeline) (d : Annotation)
    (tracks : list Track) :
  float_repr_ok ->
  Forall (fun t => valid_str (speaker t)) tracks ->
  from_pretrained MODEL (environ h !! TOKEN) = inr p ->
  apply_pipeline p audio_file = inr d ->
  itertracks d = (tracks, None) ->
  result (diarize_audio audio_file output_file h) = inr tt ->
  exists (text : pystr) (segments : list pyval),
    files (host_after (diarize_audio audio_file output_file h)) !! output_file = Some text
    /\ text = json_dumps (PyList (collect_segments tracks))
    /\ length (collect_segments tracks) = length tracks
    /\ Forall (fun seg => exists label,
                 getitem seg (u "speaker") = Some (PyStr (u "SPEAKER_" ++ label)))
         (collect_segments tracks)
    /\ json_loads python_constants text = Some (PyList segments)
    /\ length segments = length tracks
    /\ Forall (fun seg => exists label,
                 getitem seg (u "speaker") = Some (PyStr (u "SPEAKER_" ++ label)))
         segments.
Proof.
  intros Hok Hvalid Hp Hd Ht Hres.
  destruct (completed_run _ _ _ p d tracks Hp Hd Ht Hres) as (_ & _ & Hfiles & _).
  destruct (json_loads_segment_like python_constants tracks Hok Hvalid (or_introl eq_refl))
    as (vs & Hlen & Hlike & Hloads).
  exists (json_dumps (PyList (collect_segments tracks))), vs.
  rewrite Hfiles, lookup_insert_eq. split; [done|]. split; [done|].
  rewrite collect_segments_map. split; [apply length_map|]. split.
  { apply Forall_fmap, Forall_forall. intros t _. by exists (speaker t). }
  rewrite <- collect_segments_map, json_dumps_layout. split; [done|]. split; [done|].
  eapply Forall_impl; [exact Hlike|]. intros seg (s & e & label & ->). by exists label.
Qed.

Lemma C2_as_many_segments_as_tracks_witness :
  exists (text : pystr) (segments : list pyval),
    files (host_after (@diarize_audio (stub_pipeline example_tracks) example_runtime
                         (u "a.wav") (u "out.json") empty_host)) !! u "out.json"
    = Some text
    /\ @json_loads example_runtime python_constants text = Some (PyList segments)
    /\ length segments = 2%nat.
Proof.
  destruct (@C2_as_many_segments_as_tracks (stub_pipeline example_tracks) example_runtime
              (u "a.wav") (u "out.json") empty_host tt tt example_tracks
              example_runtime_ok example_tracks_valid eq_refl eq_refl eq_refl eq_refl)
    as (text & segments & Hfile & _ & _ & _ & Hloads & Hlen & _).
  by exists text, segments.
Defined.

(** ** Further properties of the run *)


Lemma closed_app (a b : list event) : closed (a ++ b) = closed a ++ closed b.
Proof. unfold closed. apply omap_app. Qed.

Lemma calls_app (a b : list event) : calls (a ++ b) = calls a ++ calls b.
Proof. unfold calls. apply omap_app. Qed.




Lemma closed_prints (texts : list pystr) : closed (Print <$> texts) = [].
Proof. by induction texts. Qed.

Lemma calls_prints (texts : list pystr) : calls (Print <$> texts) = [].
Proof. by induction texts. Qed.


Lemma closed_prelude (audio_file : pystr) (tok : option pystr) :
  closed (prelude audio_file tok) = [].
Proof. unfold prelude. by destruct (not_ tok). Qed.

Lemma calls_prelude (audio_file : pystr) (tok : option pystr) :
  calls (prelude audio_file tok) = [FromPretrained MODEL tok].
Proof. unfold prelude. by destruct (not_ tok). Qed.


(** No retry: a run constructs the pipeline at most once, with the model
    identifier of the script and the credential of the environment, then
    invokes it at most once, on the audio file, then iterates over the
    result at most once; and it constructs the pipeline when, and only when,
    the prints of lines 11-18 have returned. *)
Theorem calls_of_a_run `{Pyannote} `{PyRuntime} (audio_file output_file : pystr) (h : Host) :
  calls (trace (diarize_audio audio_file output_file h))
    `prefix_of` [FromPretrained MODEL (environ h !! TOKEN);
                 ApplyPipeline audio_file; IterTracks]
  /\ (prints_return h (opening_lines audio_file (environ h !! TOKEN))
      <-> [FromPretrained MODEL (environ h !! TOKEN)]
            `prefix_of` calls (trace (diarize_audio audio_file output_file h))).
Proof.
  destruct (diarize_audio_cases audio_file output_file h);
    cbn [trace]; rewrite ?calls_app, ?calls_prelude, ?calls_prints; cbn [calls omap app];
    (split; [by eexists|]); split; try done; try (by eexists).
  - intros Hprints. stuck Hprints.
  - intros [k Hk]. discriminate.
Qed.

(** A refused construction (a bad credential, a model that cannot be
    loaded), once the opening prints have returned, is the outcome of the
    run: the pipeline is never invoked, the output file is never opened and
    the host is as it was, but for the texts printed. *)
Theorem construction_refused `{Pyannote} `{PyRuntime}
    (audio_file output_file : pystr) (h : Host) (e : exn) :
  prints_return h (opening_lines audio_file (environ h !! TOKEN)) ->
  from_pretrained MODEL (environ h !! TOKEN) = inl e ->
  result (diarize_audio audio_file output_file h) = inl e
  /\ host_after (diarize_audio audio_file output_file h)
     = host_with h (files h) (space h)
         (stdout h ++ opening_lines audio_file (environ h !! TOKEN))
  /\ calls (trace (diarize_audio audio_file output_file h))
     = [FromPretrained MODEL (environ h !! TOKEN)]
  /\ opened (trace (diarize_audio audio_file output_file h)) = [].
Proof.
  intros Hprints He. rewrite (run_from_pretrained_raises _ _ _ e Hprints He).
  cbn [result host_after trace].
  by rewrite calls_prelude, opened_prelude.
Qed.

Lemma construction_refused_witness :
  let o := @diarize_audio (refused_pipeline (PipelineError (u "401"))) example_runtime
             (u "a.wav") (u "out.json") full_host in
  result o = inl (PipelineError (u "401")) /\ files (host_after o) = files full_host.
Proof.
  intros o.
  destruct (@construction_refused (refused_pipeline (PipelineError (u "401"))) example_runtime
              (u "a.wav") (u "out.json") full_host (PipelineError (u "401")) eq_refl eq_refl)
    as (Hres & Hhost & _).
  split; [exact Hres|]. exact (f_equal files Hhost).
Defined.

(** An iterator that raises after it has yielded some tracks: the segments
    collected so far are dropped, the exception is the outcome of the run,
    the output file is never opened and the host is as it was, but for the
    texts printed. *)
Theorem iteration_raised `{Pyannote} `{PyRuntime}
    (audio_file output_file : pystr) (h : Host) (p : Pipeline) (d : Annotation)
    (tracks : list Track) (e : exn) :
  prints_return h (opening_lines audio_file (environ h !! TOKEN)) ->
  from_pretrained MODEL (environ h !! TOKEN) = inr p ->
  apply_pipeline p audio_file = inr d ->
  itertracks d = (tracks, Some e) ->
  result (diarize_audio audio_file output_file h) = inl e
  /\ host_after (diarize_audio audio_file output_file h)
     = host_with h (files h) (space h)
         (stdout h ++ opening_lines audio_file (environ h !! TOKEN))
  /\ opened (trace (diarize_audio audio_file output_file h)) = [].
Proof.
  intros Hprints Hp Hd Ht.
  rewrite (run_itertracks_raises _ _ _ p d tracks e Hprints Hp Hd Ht).
  cbn [result host_after trace]. by rewrite opened_app, opened_prelude.
Qed.

Lemma iteration_raised_witness :
  let o := @diarize_audio (broken_iterator example_tracks (PipelineError (u "eof")))
             example_runtime (u "a.wav") (u "out.json") full_host in
  result o = inl (PipelineError (u "eof")) /\ files (host_after o) = files full_host.
Proof.
  intros o.
  destruct (@iteration_raised (broken_iterator example_tracks (PipelineError (u "eof")))
              example_runtime (u "a.wav") (u "out.json") full_host tt tt example_tracks
              (PipelineError (u "eof")) eq_refl eq_refl eq_refl eq_refl)
    as (Hres & Hhost & _).
  split; [exact Hres|]. exact (f_equal files Hhost).
Defined.

(** An output path that cannot be opened for writing: once the opening
    prints have returned, the run raises the error of [open] after the
    pipeline has run, the host is as it was, but for the texts printed, and
    nothing is closed. *)
Theorem output_not_writable `{Pyannote} `{PyRuntime}
    (audio_file output_file : pystr) (h : Host) (p : Pipeline) (d : Annotation)
    (tracks : list Track) :
  prints_return h (opening_lines audio_file (environ h !! TOKEN)) ->
  from_pretrained MODEL (environ h !! TOKEN) = inr p ->
  apply_pipeline p audio_file = inr d ->
  itertracks d = (tracks, None) ->
  writable h output_file = false ->
  result (diarize_audio audio_file output_file h) = inl (OSError output_file)
  /\ host_after (diarize_audio audio_file output_file h)
     = host_with h (files h) (space h)
         (stdout h ++ opening_lines audio_file (environ h !! TOKEN))
  /\ calls (trace (diarize_audio audio_file output_file h))
     = [FromPretrained MODEL (environ h !! TOKEN); ApplyPipeline audio_file; IterTracks]
  /\ opened (trace (diarize_audio audio_file output_file h)) = [output_file]
  /\ closed (trace (diarize_audio audio_file output_file h)) = [].
Proof.
  intros Hprints Hp Hd Ht Hw.
  rewrite (run_open_raises _ _ _ p d tracks Hprints Hp Hd Ht Hw).
  cbn [result host_after trace].
  by rewrite calls_app, opened_app, closed_app, calls_prelude, opened_prelude, closed_prelude.
Qed.

Lemma output_not_writable_witness :
  let o := @diarize_audio (stub_pipeline example_tracks) example_runtime
             (u "a.wav") (u "out.json") readonly_host in
  result o = inl (OSError (u "out.json")) /\ files (host_after o) = files readonly_host.
Proof.
  intros o.
  destruct (@output_not_writable (stub_pipeline example_tracks) example_runtime
              (u "a.wav") (u "out.json") readonly_host tt tt example_tracks
              eq_refl eq_refl eq_refl eq_refl eq_refl) as (Hres & Hhost & _).
  split; [exact Hres|]. exact (f_equal files Hhost).
Defined.

(** The [with] statement: a file that was opened is closed, also when
    [json.dump] raises; a file that could not be opened is not. *)
Theorem opened_file_is_closed `{Pyannote} `{PyRuntime}
    (audio_file output_file : pystr) (h : Host) :
  closed (trace (diarize_audio audio_file output_file h))
  = (if writable h output_file
     then opened (trace (diarize_audio audio_file output_file h))
     else [])
  /\ opened (trace (diarize_audio audio_file output_file h)) `prefix_of` [output_file].
Proof.
  destruct (diarize_audio_cases audio_file output_file h) as
    [e Hraised|e Hprints He|p e Hprints Hp He|p d tracks e Hprints Hp Hd Ht
    |p d tracks Hprints Hp Hd Ht Hw|p d tracks k Hprints Hp Hd Ht Hw Hk Hlt
    |p d tracks e Hprints Hp Hd Ht Hw Hfit Hclosing
    |p d tracks Hprints Hp Hd Ht Hw Hfit Hclosing];
    cbn [trace]; rewrite ?epilogue_closing, ?closed_app, ?opened_app, ?closed_prelude,
      ?opened_prelude, ?closed_prints, ?opened_prints;
    cbn [closed opened omap app]; rewrite ?Hw; split; try done;
    try (by destruct (writable h output_file)); by eexists.
Qed.

(** When the pipeline returns, the output can be opened, the text fits, the
    prints return and the interpreter can flush its standard streams, the
    run completes with status 0, and it does things in this order: the start
    line and the warnings, the three calls into pyannote, the output file
    opened, written and closed, and only then the two closing lines. *)
Theorem run_completes `{Pyannote} `{PyRuntime}
    (audio_file output_file : pystr) (h : Host) (p : Pipeline) (d : Annotation)
    (tracks : list Track) :
  from_pretrained MODEL (environ h !! TOKEN) = inr p ->
  apply_pipeline p audio_file = inr d ->
  itertracks d = (tracks, None) ->
  writable h output_file = true ->
  fits h (layout tracks) ->
  prints_return h (opening_lines audio_file (environ h !! TOKEN)
                   ++ closing_lines output_file (length tracks)) ->
  flushes_at_exit h (stdout h ++ opening_lines audio_file (environ h !! TOKEN)
                              ++ closing_lines output_file (length tracks)) = true ->
  result (main audio_file output_file h) = inr tt
  /\ exit_status (main audio_file output_file h) = 0%Z
  /\ files (host_after (main audio_file output_file h)) !! output_file
     = Some (layout tracks)
  /\ trace (main audio_file output_file h)
     = [Print (u "Starting diarization for " ++ audio_file)]
       ++ (if not_ (environ h !! TOKEN) then [Print WARNING1; Print WARNING2] else [])
       ++ [FromPretrained MODEL (environ h !! TOKEN);
           ApplyPipeline audio_file; IterTracks;
           Open output_file; Close output_file;
           Print (u "Diarization complete. Found " ++ str_of_nat (length tracks)
                    ++ u " speaker segments.");
           Print (u "Results saved to " ++ output_file)].
Proof.
  intros Hp Hd Ht Hw Hfit Hprints Hflush. rewrite <- json_dumps_layout in Hfit.
  apply prints_return_app in Hprints as [Hopening Hclosing].
  unfold exit_status, main. rewrite (run_written _ _ _ p d tracks Hopening Hp Hd Ht Hw Hfit).
  rewrite Hclosing, (print_done_all _ _ _ Hclosing).
  cbn [result host_after trace files stdout flushes_at_exit host_with].
  rewrite <- (app_assoc (stdout h)), Hflush, lookup_insert_eq, json_dumps_layout.
  unfold prelude. by rewrite <- !app_assoc.
Qed.

Lemma run_completes_witness :
  let o := @main (stub_pipeline example_tracks) example_runtime
             (u "a.wav") (u "out.json") full_host_unlimited in
  result o = inr tt
  /\ files (host_after o) !! u "out.json" = Some (@layout example_runtime example_tracks).
Proof.
  intros o.
  destruct (@run_completes (stub_pipeline example_tracks) example_runtime
              (u "a.wav") (u "out.json") full_host_unlimited tt tt example_tracks
              eq_refl eq_refl eq_refl eq_refl I eq_refl eq_refl) as (Hres & _ & Hfile & _).
  by split.
Defined.

Lemma run_keeps_environ `{Pyannote} `{PyRuntime} (audio_file output_file : pystr) (h : Host) :
  environ (host_after (diarize_audio audio_file output_file h)) = environ h.
Proof. by destruct (diarize_audio_cases audio_file output_file h). Qed.

(** Running the script again on the same audio, with a pipeline that yields
    the same tracks, rewrites the output file with the same text: after two
    completed runs the files are what they were after the first. *)
Theorem rerun_changes_nothing `{Pyannote} `{PyRuntime}
    (audio_file output_file : pystr) (h : Host) (p : Pipeline) (d : Annotation)
    (tracks : list Track) :
  from_pretrained MODEL (environ h !! TOKEN) = inr p ->
  apply_pipeline p audio_file = inr d ->
  itertracks d = (tracks, None) ->
  result (diarize_audio audio_file output_file h) = inr tt ->
  result (diarize_audio audio_file output_file
            (host_after (diarize_audio audio_file output_file h))) = inr tt ->
  files (host_after (diarize_audio audio_file output_file
                       (host_after (diarize_audio audio_file output_file h))))
  = files (host_after (diarize_audio audio_file output_file h)).
Proof.
  intros Hp Hd Ht Hres1 Hres2.
  destruct (completed_run _ _ _ p d tracks Hp Hd Ht Hres1) as (_ & _ & Hfiles1 & _).
  assert (Hp2 : from_pretrained MODEL
                  (environ (host_after (diarize_audio audio_file output_file h)) !! TOKEN)
                = inr p) by (by rewrite run_keeps_environ).
  destruct (completed_run _ _ _ p d tracks Hp2 Hd Ht Hres2) as (_ & _ & Hfiles2 & _).
  rewrite Hfiles2, Hfiles1. apply insert_insert_eq.
Qed.

Lemma rerun_changes_nothing_witness :
  let h1 := host_after (@diarize_audio (stub_pipeline example_tracks) example_runtime
                          (u "a.wav") (u "out.json") full_host_unlimited) in
  files (host_after (@diarize_audio (stub_pipeline example_tracks) example_runtime
                       (u "a.wav") (u "out.json") h1))
  = files h1.
Proof.
  intros h1.
  exact (@rerun_changes_nothing (stub_pipeline example_tracks) example_runtime
           (u "a.wav") (u "out.json") full_host_unlimited tt tt example_tracks
           eq_refl eq_refl eq_refl eq_refl eq_refl).
Defined.

(** The track name that the iterator yields (the [_] of the loop) is
    dropped: tracks with the same intervals and labels give the same
    segments, hence the same text. *)
Theorem track_names_are_dropped `{PyRuntime} (tracks1 tracks2 : list Track) :
  map kept tracks1 = map kept tracks2 ->
  collect_segments tracks1 = collect_segments tracks2
  /\ json_dumps (PyList (collect_segments tracks1))
     = json_dumps (PyList (collect_segments tracks2)).
Proof.
  intros Hkept.
  assert (Hsegs : collect_segments tracks1 = collect_segments tracks2);
    [|by rewrite Hsegs].
  rewrite !collect_segments_map. revert tracks2 Hkept.
  induction tracks1 as [|t1 ts1 IH]; intros [|t2 ts2] Hkept; try done.
  injection Hkept as Hs He Hl Htail. cbn [map]. rewrite (IH _ Htail). f_equal.
  unfold segment_dict. by rewrite Hs, He, Hl.
Qed.

Lemma track_names_are_dropped_witness :
  @json_dumps example_runtime (PyList (collect_segments example_tracks))
  = @json_dumps example_runtime (PyList (collect_segments renamed_tracks)).
Proof.
  exact (proj2 (@track_names_are_dropped example_runtime example_tracks renamed_tracks
                  eq_refl)).
Defined.

(** Nothing else is lost: two lists of readable tracks that give the same
    text have the same intervals and labels, in the same order. *)
Theorem text_determines_segments `{PyRuntime} (tracks1 tracks2 : list Track) :
  Forall readable tracks1 ->
  Forall readable tracks2 ->
  json_dumps (PyList (collect_segments tracks1))
  = json_dumps (PyList (collect_segments tracks2)) ->
  map kept tracks1 = map kept tracks2.
Proof.
  intros H1 H2 Htext. rewrite !json_dumps_layout in Htext.
  pose proof (json_loads_layout no_constants tracks1 H1) as Hl1.
  pose proof (json_loads_layout no_constants tracks2 H2) as Hl2.
  rewrite Htext, Hl2 in Hl1. injection Hl1 as Hsegs. clear -Hsegs.
  revert tracks1 Hsegs.
  induction tracks2 as [|t2 ts2 IH]; intros [|t1 ts1] Hsegs; try done.
  injection Hsegs as Hs He Hl Htail. cbn [map]. rewrite (IH _ Htail). f_equal.
  unfold kept. by rewrite Hs, He, Hl.
Qed.

Lemma text_determines_segments_witness :
  map kept example_tracks = map kept renamed_tracks.
Proof.
  apply (@text_determines_segments example_runtime example_tracks renamed_tracks
           example_tracks_readable).
  - repeat constructor; try reflexivity; apply bool_decide_unpack; vm_compute; exact I.
  - reflexivity.
Defined.

(** The first [print] (line 11) comes before everything else: when it
    raises, because the standard output cannot encode the audio path or
    because the stream fails, that exception is the outcome of the run, and
    nothing else has happened: no warning, no call into pyannote, no file
    opened, the host as it was. *)
Theorem start_line_refused `{Pyannote} `{PyRuntime}
    (audio_file output_file : pystr) (h : Host) (e : exn) :
  print_raises h (stdout h) (u "Starting diarization for " ++ audio_file) = Some e ->
  result (diarize_audio audio_file output_file h) = inl e
  /\ trace (diarize_audio audio_file output_file h) = []
  /\ host_after (diarize_audio audio_file output_file h) = h.
Proof.
  intros Hraises.
  assert (Herr : print_error (print_raises h) (stdout h)
                   (opening_lines audio_file (environ h !! TOKEN)) = Some e)
    by (unfold opening_lines; cbn [print_error]; by rewrite Hraises).
  assert (Hdone : print_done (print_raises h) (stdout h)
                    (opening_lines audio_file (environ h !! TOKEN)) = [])
    by (unfold opening_lines; cbn [print_done]; by rewrite Hraises).
  rewrite (run_opening_raises _ _ _ e Herr), Hdone. cbn [result trace host_after fmap list_fmap].
  by rewrite app_nil_r, host_with_same.
Qed.

Lemma start_line_refused_witness :
  let o := @diarize_audio (stub_pipeline example_tracks) example_runtime
             accented_audio (u "out.json") ascii_stdout_host in
  result o = inl (UnicodeEncodeError (u "Starting diarization for " ++ accented_audio))
  /\ trace o = []
  /\ files (host_after o) = files ascii_stdout_host.
Proof.
  intros o.
  destruct (@start_line_refused (stub_pipeline example_tracks) example_runtime
              accented_audio (u "out.json") ascii_stdout_host
              (UnicodeEncodeError (u "Starting diarization for " ++ accented_audio))
              eq_refl) as (Hres & Htrace & Hhost).
  split; [exact Hres|]. split; [exact Htrace|]. exact (f_equal files Hhost).
Defined.

(** The two closing prints (lines 42-43) come after the output file has
    been written and closed: when one of them raises, for instance because
    the standard output cannot encode the output path, the run ends with
    that exception and a status that is not 0, and yet the output file holds
    the whole text. *)
Theorem closing_print_refused `{Pyannote} `{PyRuntime}
    (audio_file output_file : pystr) (h : Host) (p : Pipeline) (d : Annotation)
    (tracks : list Track) (e : exn) :
  from_pretrained MODEL (environ h !! TOKEN) = inr p ->
  apply_pipeline p audio_file = inr d ->
  itertracks d = (tracks, None) ->
  writable h output_file = true ->
  fits h (layout tracks) ->
  prints_return h (opening_lines audio_file (environ h !! TOKEN)) ->
  print_error (print_raises h)
    (stdout h ++ opening_lines audio_file (environ h !! TOKEN))
    (closing_lines output_file (length tracks)) = Some e ->
  result (main audio_file output_file h) = inl e
  /\ exit_status (main audio_file output_file h) <> 0%Z
  /\ files (host_after (main audio_file output_file h))
     = <[output_file := layout tracks]> (files h)
  /\ opened (trace (main audio_file output_file h)) = [output_file]
  /\ closed (trace (main audio_file output_file h)) = [output_file].
Proof.
  intros Hp Hd Ht Hw Hfit Hopening Hclosing. rewrite <- json_dumps_layout in Hfit.
  unfold exit_status, main. rewrite (run_written _ _ _ p d tracks Hopening Hp Hd Ht Hw Hfit).
  rewrite Hclosing. cbn [result host_after trace files stdout flushes_at_exit host_with].
  rewrite json_dumps_layout, !opened_app, !closed_app, opened_prelude, closed_prelude,
    opened_prints, closed_prints.
  split; [done|]. split; [by destruct (flushes_at_exit _ _)|]. done.
Qed.

Lemma closing_print_refused_witness :
  let o := @main (stub_pipeline example_tracks) example_runtime
             (u "a.wav") accented_output ascii_stdout_host in
  result o = inl (UnicodeEncodeError (u "Results saved to " ++ accented_output))
  /\ files (host_after o) !! accented_output
     = Some (@layout example_runtime example_tracks).
Proof.
  intros o.
  destruct (@closing_print_refused (stub_pipeline example_tracks) example_runtime
              (u "a.wav") accented_output ascii_stdout_host tt tt example_tracks
              (UnicodeEncodeError (u "Results saved to " ++ accented_output))
              eq_refl eq_refl eq_refl eq_refl I eq_refl eq_refl)
    as (Hres & _ & Hfiles & _).
  split; [exact Hres|]. unfold o. rewrite Hfiles. apply lookup_insert_eq.
Defined.


